(** * Recurring-event expansion (expand_recurring_events.py)

    A shallow embedding of the calendar expander: the tolerant date/time
    parser, the recurrence loop, the batch processor and the extraction of
    the event array from raw text, followed by the properties the
    specification states about them. *)

From Stdlib Require Import ZArith Lia Bool List Ascii String DecimalString Sorted.
From stdpp Require Import base option list gmap strings.

Local Open Scope Z_scope.

(** ** The proleptic Gregorian calendar of [datetime]

    The program delegates date arithmetic to the host library.  The
    definitions below follow the library's reference algorithms
    ([_ymd2ord], [_ord2ymd], [_days_in_month], ...). *)

Module Calendar.

Definition MINYEAR : Z := 1.
Definition MAXYEAR : Z := 9999.
Definition MAXORDINAL : Z := 3652059.

Definition is_leap (y : Z) : bool :=
  (y mod 4 =? 0) && (negb (y mod 100 =? 0) || (y mod 400 =? 0)).

Definition DAYS_IN_MONTH (m : Z) : Z :=
  match m with
  | 1 => 31 | 2 => 28 | 3 => 31 | 4 => 30 | 5 => 31 | 6 => 30
  | 7 => 31 | 8 => 31 | 9 => 30 | 10 => 31 | 11 => 30 | 12 => 31
  | _ => 0
  end.

Definition DAYS_BEFORE_MONTH (m : Z) : Z :=
  match m with
  | 1 => 0 | 2 => 31 | 3 => 59 | 4 => 90 | 5 => 120 | 6 => 151
  | 7 => 181 | 8 => 212 | 9 => 243 | 10 => 273 | 11 => 304 | 12 => 334
  | _ => 0
  end.

Definition leap_day (cond leap : bool) : Z := if cond && leap then 1 else 0.

Definition days_in_month_of (leap : bool) (m : Z) : Z :=
  DAYS_IN_MONTH m + leap_day (m =? 2) leap.

Definition days_before_month_of (leap : bool) (m : Z) : Z :=
  DAYS_BEFORE_MONTH m + leap_day (2 <? m) leap.

Definition days_in_month (y m : Z) : Z := days_in_month_of (is_leap y) m.

Definition days_before_month (y m : Z) : Z := days_before_month_of (is_leap y) m.

Definition days_before_year (year : Z) : Z :=
  let y := year - 1 in y * 365 + y / 4 - y / 100 + y / 400.

Definition ymd2ord (y m d : Z) : Z :=
  days_before_year y + days_before_month y m + d.

Definition DI400Y : Z := 146097.
Definition DI100Y : Z := 36524.
Definition DI4Y : Z := 1461.

(** Month and day of the [n]-th day (from 0) of a year. *)
Definition month_day (leap : bool) (n : Z) : Z * Z :=
  let month := Z.shiftr (n + 50) 5 in
  let preceding := days_before_month_of leap month in
  if n <? preceding
  then (month - 1, n - (preceding - days_in_month_of leap (month - 1)) + 1)
  else (month, n - preceding + 1).

Definition ord2ymd (ordinal : Z) : Z * Z * Z :=
  let n := ordinal - 1 in
  let n400 := n / DI400Y in
  let n := n mod DI400Y in
  let year := n400 * 400 + 1 in
  let n100 := n / DI100Y in
  let n := n mod DI100Y in
  let n4 := n / DI4Y in
  let n := n mod DI4Y in
  let n1 := n / 365 in
  let n := n mod 365 in
  let year := year + n100 * 100 + n4 * 4 + n1 in
  if (n1 =? 4) || (n100 =? 4) then (year - 1, 12, 31)
  else
    let leapyear := (n1 =? 3) && (negb (n4 =? 24) || (n100 =? 3)) in
    let '(m, d) := month_day leapyear n in
    (year, m, d).

Definition valid_date (y m d : Z) : bool :=
  (MINYEAR <=? y) && (y <=? MAXYEAR) && (1 <=? m) && (m <=? 12)
  && (1 <=? d) && (d <=? days_in_month y m).

(** Bounded universal quantification over an interval of integers, as a
    boolean that can be evaluated. *)
Fixpoint all_below (n : nat) (lo : Z) (f : Z -> bool) : bool :=
  match n with
  | O => true
  | S k => f lo && all_below k (lo + 1) f
  end.

Definition month_day_ok (leap : bool) (n : Z) : bool :=
  let '(m, d) := month_day leap n in
  (1 <=? m) && (m <=? 12) && (1 <=? d) && (d <=? days_in_month_of leap m)
  && (days_before_month_of leap m + d =? n + 1).

(** [month_day] undoes the count of days before a date of the year. *)
Definition month_day_inverse_ok (leap : bool) (m : Z) : bool :=
  all_below 31 1 (fun d =>
    if d <=? days_in_month_of leap m
    then (let '(m', d') := month_day leap (days_before_month_of leap m + d - 1) in
          (m' =? m) && (d' =? d))
         && (days_before_month_of leap m + d <=? 365 + (if leap then 1 else 0))
    else true).

End Calendar.

(** ** Exceptions and results *)

Inductive exn : Type :=
| ValueError
| AttributeError
| TypeError
| OverflowError
| IndexError
| UnicodeEncodeError.

Inductive result (A : Type) : Type :=
| Ok (a : A)
| Raise (e : exn).

Arguments Ok {A} a.
Arguments Raise {A} e.

Definition rbind {A B : Type} (r : result A) (k : A -> result B) : result B :=
  match r with
  | Ok a => k a
  | Raise e => Raise e
  end.

(** ** The string methods the program calls

    A text is represented by the bytes of its UTF-8 encoding, a surrogate
    code point by the three bytes of its number.  The characters the
    program looks for are ASCII, so searching, splitting and slicing at
    what was found act on the bytes as they act on the characters.  White
    space is that of [str.isspace], all of Unicode.  [lower] turns the
    ASCII capitals, and the Kelvin sign (the one other character whose
    lower case is an ASCII letter), into their lower case and leaves every
    other character as it is: it is the library's [str.lower] on ASCII
    text, and on any text it agrees with [str.lower] on whether the result
    is a given ASCII word; the lower case of other letters is not
    modelled. *)

Module PyStr.

Definition ascii_eqb (a b : ascii) : bool := Ascii.eqb a b.

(** [c in s] for a one-character [c]. *)
Fixpoint contains (c : ascii) (s : string) : bool :=
  match s with
  | EmptyString => false
  | String a s' => ascii_eqb a c || contains c s'
  end.

(** [s.split(c)]: never empty. *)
Fixpoint split (c : ascii) (s : string) : list string :=
  match s with
  | EmptyString => [EmptyString]
  | String a s' =>
      if ascii_eqb a c then EmptyString :: split c s'
      else match split c s' with
           | p :: ps => String a p :: ps
           | [] => [String a EmptyString]
           end
  end.

(** [s.replace(c, '')]. *)
Fixpoint remove (c : ascii) (s : string) : string :=
  match s with
  | EmptyString => EmptyString
  | String a s' => if ascii_eqb a c then remove c s' else String a (remove c s')
  end.

(** [s.replace(c, d)] for one-character [c] and [d]. *)
Fixpoint replace (c d : ascii) (s : string) : string :=
  match s with
  | EmptyString => EmptyString
  | String a s' => String (if ascii_eqb a c then d else a) (replace c d s')
  end.

Definition lower_char (a : ascii) : ascii :=
  let n := nat_of_ascii a in
  if (65 <=? n)%nat && (n <=? 90)%nat then ascii_of_nat (n + 32) else a.

(** The three bytes of the Kelvin sign, code point 8490. *)
Definition is_kelvin (a b c : ascii) : bool :=
  (nat_of_ascii a =? 226)%nat && (nat_of_ascii b =? 132)%nat && (nat_of_ascii c =? 170)%nat.

(** [s.lower()], for the ASCII letters and the Kelvin sign of [s]. *)
Fixpoint lower (s : string) : string :=
  match s with
  | EmptyString => EmptyString
  | String a s1 =>
      match s1 with
      | String b (String c s3) =>
          if is_kelvin a b c then String "k" (lower s3)
          else String (lower_char a) (lower s1)
      | _ => String (lower_char a) (lower s1)
      end
  end.

(** [s.startswith(p)]. *)
Fixpoint startswith (p s : string) : bool :=
  match p, s with
  | EmptyString, _ => true
  | String a p', String b s' => ascii_eqb a b && startswith p' s'
  | String _ _, EmptyString => false
  end.

(** The white space of [str.isspace]: the code points 9 to 13, 28 to 32,
    133, 160, 5760, 8192 to 8202, 8232, 8233, 8239, 8287 and 12288, of
    one, two or three bytes. *)
Definition is_space (a : ascii) : bool :=
  let n := nat_of_ascii a in
  ((9 <=? n)%nat && (n <=? 13)%nat) || ((28 <=? n)%nat && (n <=? 32)%nat).

Definition is_space2 (a b : ascii) : bool :=
  let m := nat_of_ascii b in
  (nat_of_ascii a =? 194)%nat && ((m =? 133)%nat || (m =? 160)%nat).

Definition is_space3 (a b c : ascii) : bool :=
  let l := nat_of_ascii a in
  let m := nat_of_ascii b in
  let n := nat_of_ascii c in
  ((l =? 225)%nat && (m =? 154)%nat && (n =? 128)%nat)
  || ((l =? 226)%nat && (m =? 128)%nat
      && (((128 <=? n)%nat && (n <=? 138)%nat)
          || (n =? 168)%nat || (n =? 169)%nat || (n =? 175)%nat))
  || ((l =? 226)%nat && (m =? 129)%nat && (n =? 159)%nat)
  || ((l =? 227)%nat && (m =? 128)%nat && (n =? 128)%nat).

Fixpoint lstrip (s : string) : string :=
  match s with
  | EmptyString => EmptyString
  | String a s1 =>
      if is_space a then lstrip s1
      else
        match s1 with
        | EmptyString => s
        | String b s2 =>
            if is_space2 a b then lstrip s2
            else
              match s2 with
              | EmptyString => s
              | String c s3 => if is_space3 a b c then lstrip s3 else s
              end
        end
  end.

(** What is left of [s] before its last run of white space. *)
Fixpoint rstrip (s : string) : string :=
  match s with
  | EmptyString => EmptyString
  | String a s' =>
      if String.eqb (lstrip s) EmptyString then EmptyString else String a (rstrip s')
  end.

Definition strip (s : string) : string := rstrip (lstrip s).

(** [s[:n]]. *)
Fixpoint take (n : nat) (s : string) : string :=
  match n, s with
  | S k, String a s' => String a (take k s')
  | _, _ => EmptyString
  end.

(** [s[n:]]. *)
Fixpoint drop (n : nat) (s : string) : string :=
  match n, s with
  | S k, String _ s' => drop k s'
  | _, _ => s
  end.

(** The text is ASCII. *)
Fixpoint is_ascii (s : string) : bool :=
  match s with
  | EmptyString => true
  | String a s' => (nat_of_ascii a <? 128)%nat && is_ascii s'
  end.

(** The text holds a surrogate code point: the byte 237 followed by a
    byte from 160 on. *)
Fixpoint holds_surrogate (s : string) : bool :=
  match s with
  | EmptyString => false
  | String a s' =>
      match s' with
      | EmptyString => false
      | String b _ =>
          ((nat_of_ascii a =? 237)%nat && (160 <=? nat_of_ascii b)%nat) || holds_surrogate s'
      end
  end.

(** The text can be written to a stream of UTF-8, which refuses the
    surrogates. *)
Definition encodable (s : string) : bool := negb (holds_surrogate s).

End PyStr.

(** ** [datetime] and [timedelta] *)

Module DT.
Import Calendar.

Record datetime : Type := mk_datetime {
  year : Z; month : Z; day : Z;
  hour : Z; minute : Z; second : Z; microsecond : Z
}.

(** A [timedelta] is normalised by the library to one value per duration;
    it is represented by its total number of microseconds. *)
Definition timedelta : Type := Z.

Definition US_PER_SECOND : Z := 1000000.
Definition US_PER_DAY : Z := 86400 * US_PER_SECOND.

Definition timedelta_days (n : Z) : timedelta := n * US_PER_DAY.
Definition timedelta_weeks (n : Z) : timedelta := timedelta_days (7 * n).

Definition valid (d : datetime) : bool :=
  valid_date (year d) (month d) (day d)
  && (0 <=? hour d) && (hour d <? 24)
  && (0 <=? minute d) && (minute d <? 60)
  && (0 <=? second d) && (second d <? 60)
  && (0 <=? microsecond d) && (microsecond d <? US_PER_SECOND).

(** The constructor, which validates its arguments. *)
Definition make (y m d hh mm ss us : Z) : result datetime :=
  let r := mk_datetime y m d hh mm ss us in
  if valid r then Ok r else Raise ValueError.

Definition toordinal (d : datetime) : Z := ymd2ord (year d) (month d) (day d).

Definition seconds_of_day (d : datetime) : Z :=
  second d + minute d * 60 + hour d * 3600.

(** Microseconds since the start of day 0 of the calendar. *)
Definition to_micros (d : datetime) : Z :=
  (toordinal d * 86400 + seconds_of_day d) * US_PER_SECOND + microsecond d.

Definition of_micros (t : Z) : datetime :=
  let days := t / US_PER_DAY in
  let rest := t mod US_PER_DAY in
  let secs := rest / US_PER_SECOND in
  let us := rest mod US_PER_SECOND in
  let '(y, m, d) := ord2ymd days in
  mk_datetime y m d (secs / 3600) (secs mod 3600 / 60) (secs mod 60) us.

(** [a - b] *)
Definition sub (a b : datetime) : timedelta := to_micros a - to_micros b.

(** [d + delta], failing when the result leaves years 1..9999. *)
Definition add (d : datetime) (delta : timedelta) : result datetime :=
  let t := to_micros d + delta in
  let days := t / US_PER_DAY in
  if (0 <? days) && (days <=? MAXORDINAL) then Ok (of_micros t)
  else Raise OverflowError.

(** [d.replace(year=y, month=m)] *)
Definition replace_year_month (d : datetime) (y m : Z) : result datetime :=
  make y m (day d) (hour d) (minute d) (second d) (microsecond d).

(** [d.replace(month=m)] *)
Definition replace_month (d : datetime) (m : Z) : result datetime :=
  replace_year_month d (year d) m.

(** [d.replace(year=y)] *)
Definition replace_year (d : datetime) (y : Z) : result datetime :=
  replace_year_month d y (month d).

Definition fields (d : datetime) : list Z :=
  [year d; month d; day d; hour d; minute d; second d; microsecond d].

Fixpoint lex_le (a b : list Z) : bool :=
  match a, b with
  | x :: a', y :: b' => (x <? y) || ((x =? y) && lex_le a' b')
  | [], _ => true
  | _ :: _, [] => false
  end.

(** [a <= b] *)
Definition le (a b : datetime) : bool := lex_le (fields a) (fields b).

(** *** Formatting and parsing *)

Inductive directive : Type :=
| DY | Dm | Dd | DH | DM | DS | Df
| Lit (c : ascii).

(** ['%Y-%m-%dT%H:%M:%S'] *)
Definition FMT_SECONDS : list directive :=
  [DY; Lit "-"; Dm; Lit "-"; Dd; Lit "T"; DH; Lit ":"; DM; Lit ":"; DS].

(** ['%Y-%m-%d'] *)
Definition FMT_DATE : list directive := [DY; Lit "-"; Dm; Lit "-"; Dd].

(** ['%Y-%m-%dT%H:%M:%S.%f'] *)
Definition FMT_MICROS : list directive := FMT_SECONDS ++ [Lit "."; Df].

(** ['%Y%m%d'] *)
Definition FMT_COMPACT : list directive := [DY; Dm; Dd].

Definition digit_char (k : Z) : ascii := ascii_of_nat (48 + Z.to_nat k).

Definition digit_val (c : ascii) : option Z :=
  let n := nat_of_ascii c in
  if (48 <=? n)%nat && (n <=? 57)%nat then Some (Z.of_nat n - 48) else None.

(** [n] in decimal, zero-padded to [w] digits. *)
Fixpoint pad (w : nat) (n : Z) : string :=
  match w with
  | O => EmptyString
  | S k => String.append (pad k (n / 10)) (String (digit_char (n mod 10)) EmptyString)
  end.

(** [n] in decimal, without padding. *)
Definition decimal (n : Z) : string := NilZero.string_of_int (Z.to_int n).

(** The text one directive writes.  The host's C library writes the year
    of [%Y] in decimal without padding ('999' for the year 999); the other
    fields are zero-padded to their width. *)
Definition render (d : directive) (t : datetime) : string :=
  match d with
  | DY => decimal (year t)
  | Dm => pad 2 (month t)
  | Dd => pad 2 (day t)
  | DH => pad 2 (hour t)
  | DM => pad 2 (minute t)
  | DS => pad 2 (second t)
  | Df => pad 6 (microsecond t)
  | Lit c => String c EmptyString
  end.

(** [t.strftime(fmt)] *)
Fixpoint strftime (fmt : list directive) (t : datetime) : string :=
  match fmt with
  | [] => EmptyString
  | d :: fmt' => String.append (render d t) (strftime fmt' t)
  end.

(** The same text with the year zero-padded to four digits: the form
    that [isoformat] writes and that [strptime] reads. *)
Definition render_padded (d : directive) (t : datetime) : string :=
  match d with
  | DY => pad 4 (year t)
  | Dm => pad 2 (month t)
  | Dd => pad 2 (day t)
  | DH => pad 2 (hour t)
  | DM => pad 2 (minute t)
  | DS => pad 2 (second t)
  | Df => pad 6 (microsecond t)
  | Lit c => String c EmptyString
  end.

Fixpoint padded (fmt : list directive) (t : datetime) : string :=
  match fmt with
  | [] => EmptyString
  | d :: fmt' => String.append (render_padded d t) (padded fmt' t)
  end.

(** The number of digits of a year. *)
Definition year_width (y : Z) : nat :=
  if y <? 10 then 1 else if y <? 100 then 2 else if y <? 1000 then 3 else 4.

(** One decimal digit accepted by [ok]. *)
Definition alt1 (ok : Z -> bool) (s : string) : list (Z * string) :=
  match s with
  | String c r =>
      match digit_val c with
      | Some a => if ok a then [(a, r)] else []
      | None => []
      end
  | EmptyString => []
  end.

(** Two decimal digits, accepted by [ok1] and [ok2]. *)
Definition alt2 (ok1 ok2 : Z -> bool) (s : string) : list (Z * string) :=
  flat_map (fun '(a, r) => map (fun '(b, r') => (10 * a + b, r')) (alt1 ok2 r))
           (alt1 ok1 s).

Definition any_digit (_ : Z) : bool := true.
Definition between (lo hi : Z) (a : Z) : bool := (lo <=? a) && (a <=? hi).

(** A blank followed by a digit, the last alternative of [%d]. *)
Definition blank_then (p : string -> list (Z * string)) (s : string) : list (Z * string) :=
  match s with
  | String " " r => p r
  | _ => []
  end.

(** Up to [k] further digits of a fraction, longest first; [acc] holds
    the digits read so far and [w] the places still to fill. *)
Fixpoint fraction (k : nat) (w : nat) (acc : Z) (s : string) : list (Z * string) :=
  match k with
  | O => [(acc * 10 ^ Z.of_nat w, s)]
  | S k' =>
      match s with
      | String c r =>
          match digit_val c with
          | Some a => fraction k' (pred w) (10 * acc + a) r ++ [(acc * 10 ^ Z.of_nat w, s)]
          | None => [(acc * 10 ^ Z.of_nat w, s)]
          end
      | EmptyString => [(acc * 10 ^ Z.of_nat w, s)]
      end
  end.

(** The candidates of one directive on the text [s], in the order the
    library's pattern tries them, each with the text left over: four
    digits for [%Y]; [1[0-2]|0[1-9]|[1-9]] for [%m];
    [3[0-1]|[1-2]\d|0[1-9]|[1-9]| [1-9]] for [%d]; [2[0-3]|[0-1]\d|\d] for
    [%H]; [[0-5]\d|\d] for [%M]; [6[0-1]|[0-5]\d|\d] for [%S]; one to six
    digits for [%f], read as millionths; a literal character matches
    whatever its letter case. *)
Definition candidates (d : directive) (s : string) : list (Z * string) :=
  match d with
  | DY =>
      flat_map (fun '(a, r) => map (fun '(b, r') => (100 * a + b, r')) (alt2 any_digit any_digit r))
               (alt2 any_digit any_digit s)
  | Dm => alt2 (Z.eqb 1) (between 0 2) s ++ alt2 (Z.eqb 0) (between 1 9) s
          ++ alt1 (between 1 9) s
  | Dd => alt2 (Z.eqb 3) (between 0 1) s ++ alt2 (between 1 2) any_digit s
          ++ alt2 (Z.eqb 0) (between 1 9) s ++ alt1 (between 1 9) s
          ++ blank_then (alt1 (between 1 9)) s
  | DH => alt2 (Z.eqb 2) (between 0 3) s ++ alt2 (between 0 1) any_digit s
          ++ alt1 any_digit s
  | DM => alt2 (between 0 5) any_digit s ++ alt1 any_digit s
  | DS => alt2 (Z.eqb 6) (between 0 1) s ++ alt2 (between 0 5) any_digit s
          ++ alt1 any_digit s
  | Df =>
      match s with
      | String c r =>
          match digit_val c with
          | Some a => fraction 5 5 a r
          | None => []
          end
      | EmptyString => []
      end
  | Lit c =>
      match s with
      | String a r =>
          if PyStr.ascii_eqb (PyStr.lower_char a) (PyStr.lower_char c) then [(0, r)] else []
      | EmptyString => []
      end
  end.

Definition store (d : directive) (v : Z) (t : datetime) : datetime :=
  match d with
  | DY => mk_datetime v (month t) (day t) (hour t) (minute t) (second t) (microsecond t)
  | Dm => mk_datetime (year t) v (day t) (hour t) (minute t) (second t) (microsecond t)
  | Dd => mk_datetime (year t) (month t) v (hour t) (minute t) (second t) (microsecond t)
  | DH => mk_datetime (year t) (month t) (day t) v (minute t) (second t) (microsecond t)
  | DM => mk_datetime (year t) (month t) (day t) (hour t) v (second t) (microsecond t)
  | DS => mk_datetime (year t) (month t) (day t) (hour t) (minute t) v (microsecond t)
  | Df => mk_datetime (year t) (month t) (day t) (hour t) (minute t) (second t) v
  | Lit _ => t
  end.

(** All ways the pattern of [fmt] matches a prefix of [s], first match first. *)
Fixpoint matches (fmt : list directive) (s : string) (t : datetime)
  : list (datetime * string) :=
  match fmt with
  | [] => [(t, s)]
  | d :: fmt' =>
      flat_map (fun '(v, r) => matches fmt' r (store d v t)) (candidates d s)
  end.

(** Fields a format leaves unset. *)
Definition DEFAULTS : datetime := mk_datetime 1900 1 1 0 0 0 0.

(** [datetime.strptime(s, fmt)] *)
Definition strptime (s : string) (fmt : list directive) : result datetime :=
  match matches fmt s DEFAULTS with
  | [] => Raise ValueError
  | (t, rest) :: _ =>
      match rest with
      | EmptyString => if valid t then Ok t else Raise ValueError
      | String _ _ => Raise ValueError
      end
  end.

End DT.

(** ** Event records

    An event is a string-keyed mapping of JSON values.  Of a value that is
    not text the program only ever tests the truth value, takes the
    [str()] rendering and, of an array or an object, asks whether it holds
    the text "+" or the text "Z" (as an element, as a key); a float is
    represented by the first two observations, an array or an object by
    the four. *)

Inductive pyval : Type :=
| VNone
| VBool (b : bool)
| VInt (n : Z)
| VStr (s : string)
| VOther (truth : bool) (shown : string)
| VContainer (truth : bool) (shown : string) (holds_plus holds_zed : bool).

Global Instance pyval_eq_dec : EqDecision pyval.
Proof. solve_decision. Defined.

Abbreviation event := (gmap string pyval).

(** An entry of the input array: a record, or any other JSON value. *)
Inductive item : Type :=
| IRecord (e : event)
| IOther (v : pyval).

Definition truthy (v : pyval) : bool :=
  match v with
  | VNone => false
  | VBool b => b
  | VInt n => negb (n =? 0)
  | VStr s => negb (String.eqb s EmptyString)
  | VOther t _ => t
  | VContainer t _ _ _ => t
  end.

(** [str(v)], as an f-string interpolates it. *)
Definition py_str (v : pyval) : string :=
  match v with
  | VNone => "None"
  | VBool true => "True"
  | VBool false => "False"
  | VInt n => NilZero.string_of_int (Z.to_int n)
  | VStr s => s
  | VOther _ shown => shown
  | VContainer _ shown _ _ => shown
  end.

(** [e.get(k, default)] *)
Definition get (e : event) (k : string) (default : pyval) : pyval :=
  match e !! k with
  | Some v => v
  | None => default
  end.

(** [v.lower()]: only text has the method. *)
Definition str_lower (v : pyval) : result string :=
  match v with
  | VStr s => Ok (PyStr.lower s)
  | _ => Raise AttributeError
  end.

(** [l[n]] *)
Definition index {A : Type} (l : list A) (n : nat) : result A :=
  match l !! n with
  | Some x => Ok x
  | None => Raise IndexError
  end.

(** ** Output and entropy

    What the program prints, line by line, and how many UUIDs it has drawn. *)

Inductive line : Type :=
| LSkipping (title : pyval)
| LUnknownPattern (recurrence : string)
| LGenerated (n : nat) (title : pyval)
| LError (title : pyval)
| LProcessing
| LInput (n : nat)
| LProcessed (n : nat)
| LOutput (n : nat).

Record world : Type := mk_world {
  draws : nat;
  out : list line
}.

(** A computation threads the world, may raise, and may run out of fuel
    ([None]). *)
Definition M (A : Type) : Type := world -> option (result A * world).

Definition ret {A : Type} (a : A) : M A := fun w => Some (Ok a, w).

Definition raise {A : Type} (e : exn) : M A := fun w => Some (Raise e, w).

Definition lift {A : Type} (r : result A) : M A := fun w => Some (r, w).

Definition out_of_fuel {A : Type} : M A := fun _ => None.

Definition bind {A B : Type} (m : M A) (k : A -> M B) : M B :=
  fun w =>
    match m w with
    | None => None
    | Some (Ok a, w') => k a w'
    | Some (Raise e, w') => Some (Raise e, w')
    end.

(** [try: m except Exception: h] *)
Definition catch {A : Type} (m : M A) (h : exn -> M A) : M A :=
  fun w =>
    match m w with
    | None => None
    | Some (Ok a, w') => Some (Ok a, w')
    | Some (Raise e, w') => h e w'
    end.

(** The texts of the input that a line interpolates. *)
Definition interpolated (l : line) : list string :=
  match l with
  | LSkipping title => [py_str title]
  | LUnknownPattern recurrence => [recurrence]
  | LGenerated _ title => [py_str title]
  | LError title => [py_str title]
  | _ => []
  end.

(** [print(...)] of a line that interpolates the texts [more] besides its
    own.  The output is a stream of UTF-8: it writes every text but one
    that holds a surrogate, on which [print] raises and writes nothing. *)
Definition print_with (more : list string) (l : line) : M unit :=
  fun w =>
    if forallb PyStr.encodable (interpolated l ++ more)
    then Some (Ok tt, mk_world (draws w) (out w ++ [l]))
    else Some (Raise UnicodeEncodeError, w).

Definition print (l : line) : M unit := print_with [] l.

(** A computation that never runs out of fuel. *)
Definition total {A : Type} (m : M A) : Prop := forall w, is_Some (m w).

Notation "x <- m ;; k" := (bind m (fun x => k))
  (at level 100, m at next level, right associativity).
Notation "m ;;; k" := (bind m (fun _ => k))
  (at level 100, right associativity).

(** ** The program *)

Section Program.

(** The random source: [uuid4 k] is the text of the [k]-th UUID drawn. *)
Variable uuid4 : nat -> string.

(** [str(uuid.uuid4())[:8]] *)
Definition uuid4_prefix : M string :=
  fun w => Some (Ok (PyStr.take 8 (uuid4 (draws w))), mk_world (S (draws w)) (out w)).

Fixpoint try_formats (dt_string : string) (formats : list (list DT.directive))
  : result DT.datetime :=
  match formats with
  | [] => Raise ValueError
  | fmt :: rest =>
      match DT.strptime dt_string fmt with
      | Ok d => Ok d
      | Raise ValueError => try_formats dt_string rest
      | Raise e => Raise e
      end
  end.

(** The text left once the timezone part is taken off. *)
Definition strip_timezone (dt_string : string) : result string :=
  if PyStr.contains "+" dt_string then index (PyStr.split "+" dt_string) 0
  else if PyStr.contains "Z" dt_string then Ok (PyStr.remove "Z" dt_string)
  else Ok dt_string.

(** [parse_datetime]: [None] for an empty field.  A value that is neither
    text nor an array or object fails on the membership test, a
    [TypeError]; an array or an object that holds "+" or "Z" has not the
    method called next, an [AttributeError], and one that holds neither is
    refused by [strptime], a [TypeError]. *)
Definition parse_datetime (dt_string : pyval) : result (option DT.datetime) :=
  if negb (truthy dt_string) then Ok None
  else
    match dt_string with
    | VStr s =>
        rbind (strip_timezone s) (fun s' =>
        rbind (try_formats s' [DT.FMT_SECONDS; DT.FMT_DATE; DT.FMT_MICROS]) (fun d =>
        Ok (Some d)))
    | VContainer _ _ holds_plus holds_zed =>
        if holds_plus || holds_zed then Raise AttributeError else Raise TypeError
    | _ => Raise TypeError
    end.

(** The timezone literal re-attached to every instance. *)
Definition tz_suffix (start_time_str : pyval) : result string :=
  match start_time_str with
  | VStr s =>
      if PyStr.contains "+" s
      then rbind (index (PyStr.split "+" s) 1) (fun p => Ok (String "+" p))
      else if PyStr.contains "Z" s then Ok "Z"
      else Ok "+00:00"
  | VContainer _ _ holds_plus holds_zed =>
      if holds_plus then Raise AttributeError
      else if holds_zed then Ok "Z"
      else Ok "+00:00"
  | _ => Raise TypeError
  end.

Definition MAX_INSTANCES : nat := 100.

(** The body of the loop up to [instances.append(instance)]. *)
Definition make_instance (master_event : event) (start_time_str : pyval)
    (event_duration : DT.timedelta) (current_date : DT.datetime) : M event :=
  let instance := master_event in
  instance_end <- lift (DT.add current_date event_duration) ;;
  tz <- lift (tz_suffix start_time_str) ;;
  let instance :=
    <["startTime" := VStr (String.append (DT.strftime DT.FMT_SECONDS current_date) tz)]> instance in
  let instance :=
    <["endTime" := VStr (String.append (DT.strftime DT.FMT_SECONDS instance_end) tz)]> instance in
  let stamp := DT.strftime DT.FMT_COMPACT current_date in
  instance <-
    (if negb (truthy (get instance "iCalUld" VNone))
     then
       title <- lift (str_lower (get master_event "title" (VStr "event"))) ;;
       let base_uid := PyStr.replace " " "_" title in
       u <- uuid4_prefix ;;
       ret (<["iCalUld" :=
               VStr (String.append base_uid
                      (String.append "_" (String.append stamp (String.append "_" u))))]>
              instance)
     else
       ret (<["iCalUld" :=
               VStr (String.append (py_str (get instance "iCalUld" VNone))
                      (String.append "_" stamp))]>
              instance)) ;;
  let instance := <["isRecurringInstance" := VBool true]> instance in
  u <- uuid4_prefix ;;
  let instance :=
    <["recurringMasterId" :=
        get master_event "iCalUld" (VStr (String.append "master_" u))]> instance in
  ret instance.

(** The next occurrence, or [None] when the pattern is not known and the
    loop breaks. *)
Definition advance (recurrence : string) (current_date : DT.datetime)
  : M (option DT.datetime) :=
  if String.eqb recurrence "weekly" then
    d <- lift (DT.add current_date (DT.timedelta_weeks 1)) ;; ret (Some d)
  else if String.eqb recurrence "daily" then
    d <- lift (DT.add current_date (DT.timedelta_days 1)) ;; ret (Some d)
  else if String.eqb recurrence "monthly" then
    d <- lift (if DT.month current_date =? 12
               then DT.replace_year_month current_date (DT.year current_date + 1) 1
               else DT.replace_month current_date (DT.month current_date + 1)) ;;
    ret (Some d)
  else if String.eqb recurrence "yearly" then
    d <- lift (DT.replace_year current_date (DT.year current_date + 1)) ;; ret (Some d)
  else
    print (LUnknownPattern recurrence) ;;; ret None.

(** The [while] loop. *)
Fixpoint expansion_loop (fuel : nat) (master_event : event) (recurrence : string)
    (start_time_str : pyval) (event_duration : DT.timedelta)
    (recurrence_end : DT.datetime) (current_date : DT.datetime)
    (instance_count : nat) (instances : list event) : M (list event) :=
  if DT.le current_date recurrence_end && (instance_count <? MAX_INSTANCES)%nat then
    match fuel with
    | O => out_of_fuel
    | S fuel' =>
        instance <- make_instance master_event start_time_str event_duration current_date ;;
        let instances := instances ++ [instance] in
        let instance_count := S instance_count in
        next <- advance recurrence current_date ;;
        match next with
        | Some current_date =>
            expansion_loop fuel' master_event recurrence start_time_str event_duration
              recurrence_end current_date instance_count instances
        | None => ret instances
        end
    end
  else ret instances.

(** [end_datetime - start_datetime] and the first comparison fail on an
    absent operand. *)
Definition need (d : option DT.datetime) : result DT.datetime :=
  match d with
  | Some d => Ok d
  | None => Raise TypeError
  end.

(** The body of the [try] block. *)
Definition expand_body (master_event : event) (recurrence : string)
    (start_time_str end_time_str recurrence_end_str : pyval) : M (list event) :=
  start_datetime <- lift (parse_datetime start_time_str) ;;
  end_datetime <- lift (parse_datetime end_time_str) ;;
  recurrence_end <- lift (parse_datetime recurrence_end_str) ;;
  end_datetime <- lift (need end_datetime) ;;
  start_datetime <- lift (need start_datetime) ;;
  let event_duration := DT.sub end_datetime start_datetime in
  recurrence_end <- lift (need recurrence_end) ;;
  instances <- expansion_loop MAX_INSTANCES master_event recurrence start_time_str
                 event_duration recurrence_end start_datetime 0 [] ;;
  print (LGenerated (length instances) (get master_event "title" (VStr "Unknown"))) ;;;
  ret instances.

(** The date text that the parser's own [ValueError] quotes: what is
    left of a text that none of the formats reads. *)
Definition unread (dt_string : pyval) : option string :=
  match dt_string with
  | VStr s =>
      if negb (truthy dt_string) then None
      else
        match strip_timezone s with
        | Ok s' =>
            match try_formats s' [DT.FMT_SECONDS; DT.FMT_DATE; DT.FMT_MICROS] with
            | Raise ValueError => Some s'
            | _ => None
            end
        | Raise _ => None
        end
  | _ => None
  end.

(** The text of the input in [str(e)], for an exception [e] of the [try]
    block.  The messages of the library are fixed text or escape what
    they quote; the parser's own [ValueError] quotes the date text it
    could not read, that of the first of the three dates that is not
    read (the dates before it were parsed, or the exception would be
    theirs). *)
Definition quoted (e : exn) (dates : list pyval) : list string :=
  match e with
  | ValueError =>
      match omap unread dates with
      | s' :: _ => [s']
      | [] => []
      end
  | _ => []
  end.

(** The expander can print about the record: its title, and the date
    texts an error message would quote, can be encoded. *)
Definition printable (master_event : event) : bool :=
  PyStr.encodable (py_str (get master_event "title" (VStr "Unknown")))
  && forallb PyStr.encodable
       (omap unread [get master_event "startTime" (VStr EmptyString);
                     get master_event "endTime" (VStr EmptyString);
                     get master_event "recurrenceEndDate" (VStr EmptyString)]).

Definition generate_recurring_instances (master_event : event) : M (list event) :=
  recurrence <- lift (str_lower (get master_event "recurrence" (VStr EmptyString))) ;;
  if String.eqb recurrence "none" || negb (truthy (VStr recurrence)) then ret [master_event]
  else
    let start_time_str := get master_event "startTime" (VStr EmptyString) in
    let end_time_str := get master_event "endTime" (VStr EmptyString) in
    let recurrence_end_str := get master_event "recurrenceEndDate" (VStr EmptyString) in
    if negb (truthy start_time_str && truthy end_time_str && truthy recurrence_end_str)
    then
      print (LSkipping (get master_event "title" (VStr "Unknown"))) ;;; ret [master_event]
    else
      catch
        (expand_body master_event recurrence start_time_str end_time_str recurrence_end_str)
        (fun e =>
           print_with (quoted e [start_time_str; end_time_str; recurrence_end_str])
             (LError (get master_event "title" (VStr "Unknown"))) ;;;
           ret [master_event]).

(** The [for] loop of the batch processor. *)
Fixpoint process_events (input_data : list item) (recurring_count : nat)
    (expanded_events : list event) : M (nat * list event) :=
  match input_data with
  | [] => ret (recurring_count, expanded_events)
  | IOther _ :: rest => process_events rest recurring_count expanded_events
  | IRecord ev :: rest =>
      if bool_decide (ev = ∅) then process_events rest recurring_count expanded_events
      else
        recurrence <- lift (str_lower (get ev "recurrence" (VStr EmptyString))) ;;
        if truthy (VStr recurrence) && negb (String.eqb recurrence "none") then
          instances <- generate_recurring_instances ev ;;
          process_events rest (S recurring_count) (expanded_events ++ instances)
        else
          process_events rest recurring_count (expanded_events ++ [ev])
  end.

Definition expand_calendar_events (input_data : list item) : M (list event) :=
  print LProcessing ;;;
  print (LInput (length input_data)) ;;;
  r <- process_events input_data 0 [] ;;
  print (LProcessed (fst r)) ;;;
  print (LOutput (length (snd r))) ;;;
  ret (snd r).

(** [filter_events_for_date]: the prefix test needs text. *)
Fixpoint filter_events_for_date (events : list event) (target_date : string)
  : result (list event) :=
  match events with
  | [] => Ok []
  | ev :: rest =>
      match get ev "startTime" (VStr EmptyString) with
      | VStr start_time =>
          rbind (filter_events_for_date rest target_date) (fun tl =>
          Ok (if PyStr.startswith target_date start_time then ev :: tl else tl))
      | _ => Raise AttributeError
      end
  end.

End Program.

(** ** Locating the event array in the raw text *)

Section Source.

(** The JSON parser of the host library. *)
Variable J : Type.
Variable json_loads : string -> result J.

Definition QUOTE : string := String (ascii_of_nat 34) EmptyString.

Definition TITLE_KEY : string :=
  String.append "{" (String.append QUOTE (String.append "title" (String.append QUOTE ":"))).

(** The pattern between two entries, the start of the array, and the start
    of an entry. *)
Definition BOUNDARY : string := String.append "}," TITLE_KEY.
Definition ARRAY_START : string := String.append "[" TITLE_KEY.
Definition ENTRY_START : string := String.append "," TITLE_KEY.

(** Start of the leftmost occurrence of [pat] in [s]. *)
Fixpoint find (pat s : string) : option nat :=
  if PyStr.startswith pat s then Some O
  else match s with
       | EmptyString => None
       | String _ s' => S <$> find pat s'
       end.

Fixpoint rfind_from (sub s : string) (i : nat) : Z :=
  if PyStr.startswith sub (PyStr.drop i s) then Z.of_nat i
  else match i with
       | O => -1
       | S j => rfind_from sub s j
       end.

(** [s.rfind(sub, 0, stop)] *)
Definition rfind (sub s : string) (stop : nat) : Z :=
  let e := Nat.min stop (String.length s) in
  if (String.length sub <=? e)%nat then rfind_from sub s (e - String.length sub)
  else -1.

(** [s[start:]], where a negative [start] counts from the end. *)
Definition slice_from (start : Z) (s : string) : string :=
  if start <? 0
  then PyStr.drop (Z.to_nat (Z.max 0 (Z.of_nat (String.length s) + start))) s
  else PyStr.drop (Z.to_nat start) s.

(** The bracket-counting loop: the value of [end_pos] when it ends. *)
Fixpoint scan_brackets (json_content : string) (bracket_count : Z) (i : nat) : nat :=
  match json_content with
  | EmptyString => O
  | String char rest =>
      if PyStr.ascii_eqb char "[" then scan_brackets rest (bracket_count + 1) (S i)
      else if PyStr.ascii_eqb char "]" then
        if bracket_count - 1 =? 0 then S i
        else scan_brackets rest (bracket_count - 1) (S i)
      else scan_brackets rest bracket_count (S i)
  end.

(** The text that is handed to the JSON parser. *)
Definition extract_text (content : string) : result string :=
  if PyStr.startswith "[" (PyStr.strip content) then Ok content
  else
    match find BOUNDARY content with
    | Some p =>
        let start_pos := rfind ARRAY_START content (p + 10) in
        let start_pos :=
          if start_pos =? -1 then
            let q := rfind ENTRY_START content (p + 10) in
            if negb (q =? -1) then q + 1 else q
          else start_pos in
        let json_content := slice_from start_pos content in
        let end_pos := scan_brackets json_content 0 0 in
        Ok (PyStr.take end_pos json_content)
    | None => Raise ValueError
    end.

Definition extract (content : string) : result J :=
  rbind (extract_text content) json_loads.

End Source.

(** Square brackets that pair up, [depth] of them open at the start. *)
Fixpoint balanced_from (s : string) (depth : nat) : bool :=
  match s with
  | EmptyString => Nat.eqb depth 0
  | String c rest =>
      if PyStr.ascii_eqb c "[" then balanced_from rest (S depth)
      else if PyStr.ascii_eqb c "]" then
        match depth with
        | O => false
        | S d => balanced_from rest d
        end
      else balanced_from rest depth
  end.

Definition balanced (s : string) : bool := balanced_from s 0.

(** ** The loop as a relation

    [iterations ... cur count w new w'] holds when the loop, entered with
    the occurrence [cur], [count] instances so far and the world [w], adds
    the instances [new] and leaves the world [w']. *)

Inductive iterations (uuid4 : nat -> string) (master_event : event) (recurrence : string)
    (start_time_str : pyval) (event_duration : DT.timedelta) (recurrence_end : DT.datetime)
  : DT.datetime -> nat -> world -> list event -> world -> Prop :=
| iterations_stop cur count w :
    DT.le cur recurrence_end && (count <? MAX_INSTANCES)%nat = false ->
    iterations uuid4 master_event recurrence start_time_str event_duration recurrence_end
      cur count w [] w
| iterations_break cur count w inst w1 w2 :
    DT.le cur recurrence_end && (count <? MAX_INSTANCES)%nat = true ->
    make_instance uuid4 master_event start_time_str event_duration cur w = Some (Ok inst, w1) ->
    advance recurrence cur w1 = Some (Ok None, w2) ->
    iterations uuid4 master_event recurrence start_time_str event_duration recurrence_end
      cur count w [inst] w2
| iterations_next cur count w inst w1 next w2 rest w3 :
    DT.le cur recurrence_end && (count <? MAX_INSTANCES)%nat = true ->
    make_instance uuid4 master_event start_time_str event_duration cur w = Some (Ok inst, w1) ->
    advance recurrence cur w1 = Some (Ok (Some next), w2) ->
    iterations uuid4 master_event recurrence start_time_str event_duration recurrence_end
      next (S count) w2 rest w3 ->
    iterations uuid4 master_event recurrence start_time_str event_duration recurrence_end
      cur count w (inst :: rest) w3.

(** The number of UUIDs one iteration draws. *)
Definition draws_per_instance (master : event) : nat :=
  if truthy (get master "iCalUld" VNone) then 1%nat else 2%nat.

(** The master is expanded: it is recurring and the [try] block ran to
    its end, returning [instances]. *)
Definition expanded (uuid4 : nat -> string) (master_event : event) (w : world)
    (instances : list event) (w' : world) : Prop :=
  exists recurrence,
    str_lower (get master_event "recurrence" (VStr EmptyString)) = Ok recurrence
    /\ String.eqb recurrence "none" = false
    /\ String.eqb recurrence EmptyString = false
    /\ expand_body uuid4 master_event recurrence
         (get master_event "startTime" (VStr EmptyString))
         (get master_event "endTime" (VStr EmptyString))
         (get master_event "recurrenceEndDate" (VStr EmptyString)) w
       = Some (Ok instances, w').

(** A time with its fraction of a second dropped, as the serialised form
    carries it. *)
Definition whole_second (d : DT.datetime) : DT.datetime :=
  DT.mk_datetime (DT.year d) (DT.month d) (DT.day d) (DT.hour d) (DT.minute d) (DT.second d) 0.

(** The instant a field of a record denotes, when it parses. *)
Definition instant_of (e : event) (k : string) : option DT.datetime :=
  match parse_datetime (get e k (VStr EmptyString)) with
  | Ok (Some d) => Some d
  | _ => None
  end.

(** ** Sample inputs *)

Module Samples.

Definition no_entropy (_ : nat) : string := EmptyString.

(** The [k]-th UUID starts with the eight digits of [k]. *)
Definition counting (k : nat) : string := DT.pad 8 (Z.of_nat k).

Definition fresh : world := mk_world 0 [].

Definition record (recurrence start_time end_time recurrence_end : string) : event :=
  <["recurrence" := VStr recurrence]>
    (<["startTime" := VStr start_time]>
      (<["endTime" := VStr end_time]>
        {["recurrenceEndDate" := VStr recurrence_end]})).

(** The weekly event of the worked example. *)
Definition weekly_july : event :=
  record "weekly" "2025-07-01T09:00:00+00:00" "2025-07-01T10:00:00+00:00" "2025-07-22".

(** A weekly event whose recurrence ends on the day it starts. *)
Definition weekly_one_day : event :=
  record "weekly" "2025-07-01T09:00:00+00:00" "2025-07-01T10:00:00+00:00" "2025-07-01".

(** A record whose recurrence is JSON null, between two ordinary ones. *)
Definition plain (title : string) : event := {["title" := VStr title]}.
Definition null_recurrence : event :=
  <["title" := VStr "Review"]> {["recurrence" := VNone]}.
Definition batch_with_null : list item :=
  [IRecord (plain "Lunch"); IRecord null_recurrence; IRecord weekly_july].

(** A daily event that starts on a half second. *)
Definition daily_half_second : event :=
  record "daily" "2025-07-01T09:00:00.500000" "2025-07-01T10:00:00" "2025-07-02".

(** An event with a pattern the expander does not know. *)
Definition fortnightly : event :=
  <["iCalUld" := VStr "abc"]>
    (record "Fortnightly" "2025-07-01T09:00:00Z" "2025-07-01T10:00:00Z" "2025-07-22").

(** The same without identifier and with a number for title. *)
Definition fortnightly_numbered : event :=
  <["title" := VInt 5]>
    (record "fortnightly" "2025-07-01T09:00:00Z" "2025-07-01T10:00:00Z" "2025-07-22").

Definition titled (n : string) : string :=
  String.append TITLE_KEY (String.append QUOTE (String.append n (String.append QUOTE "}"))).

(** An array of one entry and an array of two, as text. *)
Definition one_entry : string := String.append "[" (String.append (titled "A") "]").
Definition two_entries_body : string :=
  String.append (titled "A") (String.append "," (titled "B")).
Definition two_entries : string := String "[" (String.append two_entries_body "]").

Definition in_markup (array_text : string) : string :=
  String.append "<html><pre>" (String.append array_text "</pre>[1]</html>").

(** Two entries that hold arrays of their own, and the array of them
    inside markup. *)
Definition with_lists (n : string) : string :=
  String.append TITLE_KEY
    (String.append QUOTE (String.append n (String.append QUOTE
      (String.append "," (String.append QUOTE (String.append "k" (String.append QUOTE
        ":[1,[2],[]]}"))))))).

Definition nested_body : string :=
  String.append (with_lists "A") (String.append "," (with_lists "B")).

Definition nested_in_markup : string :=
  String.append "<html><pre>"
    (String "[" (String.append nested_body (String "]" "</pre>[1]</html>"))).

(** The array of two entries with a blank after its opening bracket. *)
Definition spaced_in_markup : string :=
  String.append "<pre>[ " (String.append two_entries_body "]</pre>").

(** A JSON parser that accepts everything and returns the text. *)
Definition as_text (s : string) : result string := Ok s.

(** The instances and the world a run ends with. *)
Definition instances_of (r : option (result (list event) * world)) : list event :=
  match r with
  | Some (Ok l, _) => l
  | _ => []
  end.

Definition world_of (r : option (result (list event) * world)) : world :=
  match r with
  | Some (_, w) => w
  | None => fresh
  end.

(** The list a run returns, if it returns one. *)
Definition returned (r : option (result (list event) * world)) : option (list event) :=
  match r with
  | Some (Ok l, _) => Some l
  | _ => None
  end.

Definition times (e : event) : option pyval * option pyval :=
  (e !! "startTime", e !! "endTime").

Definition master_id (e : event) : option pyval := e !! "recurringMasterId".

Definition weekly_july_run : option (result (list event) * world) :=
  generate_recurring_instances counting weekly_july fresh.

Definition second_instance : event :=
  default ∅ (instances_of weekly_july_run !! 1%nat).

(** A weekly event without an end of recurrence. *)
Definition weekly_open_ended : event :=
  <["recurrence" := VStr "weekly"]>
    (<["startTime" := VStr "2025-07-01T09:00:00+00:00"]>
      {["endTime" := VStr "2025-07-01T10:00:00+00:00"]}).

(** A weekly event whose start carries an offset west of Greenwich. *)
Definition weekly_minus_offset : event :=
  record "weekly" "2025-07-01T09:00:00-05:00" "2025-07-01T10:00:00-05:00" "2025-07-22".

(** Entries the batch processor skips, among records that do not recur. *)
Definition plain_batch : list item :=
  [IRecord (plain "Lunch"); IOther VNone; IRecord ∅;
   IRecord (<["recurrence" := VStr "None"]> (plain "Dentist")); IOther (VInt 7)].

(** A batch with entries that are skipped, a record that does not recur
    and two that do, one of them without a uid; its run, and its run in
    the world the first run leaves. *)
Definition mixed_batch : list item :=
  [IRecord (plain "Lunch"); IOther VNone; IRecord weekly_july; IRecord fortnightly].

Definition mixed_run : option (result (list event) * world) :=
  expand_calendar_events counting mixed_batch fresh.

Definition mixed_rerun : option (result (list event) * world) :=
  expand_calendar_events counting mixed_batch (world_of mixed_run).

(** A title that is one surrogate code point, U+D800, and a weekly event
    without an end of recurrence that carries it. *)
Definition SURROGATE : string :=
  String (ascii_of_nat 237) (String (ascii_of_nat 160) (String (ascii_of_nat 128) EmptyString)).

Definition weekly_unprintable : event := <["title" := VStr SURROGATE]> weekly_open_ended.

(** A yearly event that starts on the 29th of February. *)
Definition yearly_leap_day : event :=
  record "yearly" "2024-02-29T09:00:00Z" "2024-02-29T10:00:00Z" "2030-12-31".

(** A monthly event that starts on the 31st of January. *)
Definition monthly_jan31 : event :=
  record "monthly" "2025-01-31T09:00:00Z" "2025-01-31T10:00:00Z" "2025-04-30".

Definition daily_half_second_run : option (result (list event) * world) :=
  generate_recurring_instances counting daily_half_second fresh.

Definition half_second_instance : event :=
  default ∅ (instances_of daily_half_second_run !! 0%nat).

End Samples.

(** ** Shapes of input the batch processor tells apart *)

(** The record can be read by the batch processor: it is skipped, or its
    recurrence is absent or text. *)
Definition recurrence_is_text (it : item) : bool :=
  match it with
  | IOther _ => true
  | IRecord ev =>
      bool_decide (ev = ∅)
      || match get ev "recurrence" (VStr EmptyString) with
         | VStr _ => true
         | _ => false
         end
  end.

(** The value is not text, or is ASCII text: the parser reads it as the
    library does. *)
Definition plain_value (v : pyval) : bool :=
  match v with
  | VStr s => PyStr.is_ascii s
  | _ => true
  end.

(** The expander can print about the entry. *)
Definition item_printable (it : item) : bool :=
  match it with
  | IOther _ => true
  | IRecord ev => printable ev
  end.

(** The record an entry contributes when it is not skipped. *)
Definition record_of (it : item) : option event :=
  match it with
  | IOther _ => None
  | IRecord ev => if bool_decide (ev = ∅) then None else Some ev
  end.

(** The entry is skipped, or is a record with no recurrence, an empty one
    or "none". *)
Definition not_recurring (it : item) : bool :=
  match it with
  | IOther _ => true
  | IRecord ev =>
      bool_decide (ev = ∅)
      || match get ev "recurrence" (VStr EmptyString) with
         | VStr s => String.eqb (PyStr.lower s) "none" || String.eqb (PyStr.lower s) EmptyString
         | _ => false
         end
  end.

(** ** What a computation does with the output

    [log_blind m]: what [m] returns and draws depends on the world only
    through the number of UUIDs drawn so far, and [m] only appends to the
    output. *)

Definition append_log {A : Type} (o : list line) (x : result A * nat * list line)
  : result A * world :=
  let '(r, d, added) := x in (r, mk_world d (o ++ added)).

Definition log_blind {A : Type} (m : M A) : Prop :=
  forall d, exists res, forall o, m (mk_world d o) = append_log o <$> res.

(** The world once the batch processor has printed its two opening lines
    for an input of [n] entries, and once it has printed its two closing
    lines. *)
Definition entered (w : world) (n : nat) : world :=
  mk_world (draws w) ((out w ++ [LProcessing]) ++ [LInput n]).

Definition left_batch (w : world) (recurring produced : nat) : world :=
  mk_world (draws w) ((out w ++ [LProcessed recurring]) ++ [LOutput produced]).

(** ** The identifier of an instance *)

(** What stands before the date in the identifier: the master's uid, or
    the title in lower case with blanks replaced. *)
Definition uid_prefix (master_event : event) : result string :=
  if truthy (get master_event "iCalUld" VNone)
  then Ok (py_str (get master_event "iCalUld" VNone))
  else rbind (str_lower (get master_event "title" (VStr "event")))
         (fun title => Ok (PyStr.replace " " "_" title)).

(** What stands after the date: nothing for a master with a uid, else the
    start of the UUID drawn as number [d]. *)
Definition uid_suffix (uuid4 : nat -> string) (master_event : event) (d : nat) : string :=
  if truthy (get master_event "iCalUld" VNone) then EmptyString
  else String "_" (PyStr.take 8 (uuid4 d)).

(** The five keys an instance has of its own. *)
Definition OVERRIDDEN : list string :=
  ["startTime"; "endTime"; "iCalUld"; "isRecurringInstance"; "recurringMasterId"].

(** [next] is the occurrence the loop goes to after [cur]. *)
Definition advances (recurrence : string) (cur next : DT.datetime) : Prop :=
  exists w w', advance recurrence cur w = Some (Ok (Some next), w').

(** [inst] is the instance the loop makes at the occurrence [cur]. *)
Definition made_at (uuid4 : nat -> string) (master_event : event) (start_time_str : pyval)
    (event_duration : DT.timedelta) (cur : DT.datetime) (inst : event) : Prop :=
  exists w w', make_instance uuid4 master_event start_time_str event_duration cur w
               = Some (Ok inst, w').

(** ** Texts and dates *)

(** [r] is the end of [s]. *)
Definition is_suffix (r s : string) : Prop := exists p, s = String.append p r.

(** The character [c], in either letter case, occurs in [s]. *)
Fixpoint holds (c : ascii) (s : string) : bool :=
  match s with
  | EmptyString => false
  | String a s' => PyStr.ascii_eqb (PyStr.lower_char a) (PyStr.lower_char c) || holds c s'
  end.

(** The start of the day of [t]. *)
Definition midnight (t : DT.datetime) : DT.datetime :=
  DT.mk_datetime (DT.year t) (DT.month t) (DT.day t) 0 0 0 0.


(** * Properties *)

Module CalendarFacts.
Import Calendar.

Lemma all_below_spec n : forall lo f,
  all_below n lo f = true ->
  forall x, lo <= x < lo + Z.of_nat n -> f x = true.
Proof.
  induction n as [|k IH]; intros lo f H x Hx.
  - lia.
  - cbn [all_below] in H. apply andb_true_iff in H as [H0 H1].
    destruct (Z.eq_dec x lo) as [->|Hne]; [exact H0|].
    apply (IH (lo + 1) f H1). lia.
Qed.

Lemma month_day_spec (leap : bool) (n : Z) :
  0 <= n < 365 + (if leap then 1 else 0) ->
  month_day_ok leap n = true.
Proof.
  intros Hn.
  destruct leap.
  - apply (all_below_spec 366 0 (month_day_ok true)); [vm_compute; reflexivity | lia].
  - apply (all_below_spec 365 0 (month_day_ok false)); [vm_compute; reflexivity | lia].
Qed.

Lemma is_leap_true_iff y : is_leap y = true <-> (y mod 4 = 0 /\ (y mod 100 <> 0 \/ y mod 400 = 0)).
Proof.
  unfold is_leap. rewrite andb_true_iff, orb_true_iff, negb_true_iff, !Z.eqb_eq, Z.eqb_neq. tauto.
Qed.

Lemma ord2ymd_spec n :
  1 <= n <= MAXORDINAL ->
  let '(y, m, d) := ord2ymd n in
  valid_date y m d = true /\ ymd2ord y m d = n.
Proof.
  intros Hn. unfold MAXORDINAL in Hn. unfold ord2ymd, DI400Y, DI100Y, DI4Y.
  set (n0 := n - 1).
  set (n400 := n0 / 146097). set (r400 := n0 mod 146097).
  set (n100 := r400 / 36524). set (r100 := r400 mod 36524).
  set (n4 := r100 / 1461). set (r4 := r100 mod 1461).
  set (n1 := r4 / 365). set (r1 := r4 mod 365).
  assert (E400 : n0 = 146097 * n400 + r400 /\ 0 <= r400 < 146097)
    by (subst n400 r400; pose proof (Z.div_mod n0 146097); pose proof (Z.mod_pos_bound n0 146097); lia).
  assert (E100 : r400 = 36524 * n100 + r100 /\ 0 <= r100 < 36524)
    by (subst n100 r100; pose proof (Z.div_mod r400 36524); pose proof (Z.mod_pos_bound r400 36524); lia).
  assert (E4 : r100 = 1461 * n4 + r4 /\ 0 <= r4 < 1461)
    by (subst n4 r4; pose proof (Z.div_mod r100 1461); pose proof (Z.mod_pos_bound r100 1461); lia).
  assert (E1 : r4 = 365 * n1 + r1 /\ 0 <= r1 < 365)
    by (subst n1 r1; pose proof (Z.div_mod r4 365); pose proof (Z.mod_pos_bound r4 365); lia).
  clearbody n400 r400 n100 r100 n4 r4 n1 r1.
  assert (B400 : 0 <= n400 <= 24) by lia.
  assert (B100 : 0 <= n100 <= 4) by lia.
  assert (B4 : 0 <= n4 <= 24) by lia.
  assert (B1 : 0 <= n1 <= 4) by lia.
  destruct ((n1 =? 4) || (n100 =? 4)) eqn:Hend.
  - (* last day of a leap cycle *)
    unfold valid_date, ymd2ord, days_before_year, days_before_month, days_in_month,
      days_in_month_of, days_before_month_of, MINYEAR, MAXYEAR.
    cbn [DAYS_IN_MONTH DAYS_BEFORE_MONTH].
    apply orb_true_iff in Hend. rewrite !Z.eqb_eq in Hend.
    assert (Hleap : is_leap (n400 * 400 + 1 + n100 * 100 + n4 * 4 + n1 - 1) = true).
    { apply is_leap_true_iff. Z.div_mod_to_equations. lia. }
    rewrite Hleap. cbn. split.
    + repeat (apply andb_true_iff; split); first [reflexivity | apply Z.leb_le; lia].
    + Z.div_mod_to_equations. lia.
  - apply orb_false_iff in Hend. rewrite !Z.eqb_neq in Hend.
    set (leap := (n1 =? 3) && (negb (n4 =? 24) || (n100 =? 3))).
    set (year := n400 * 400 + 1 + n100 * 100 + n4 * 4 + n1).
    assert (Hleap : is_leap year = leap).
    { subst leap year. apply eq_true_iff_eq. rewrite is_leap_true_iff.
      rewrite andb_true_iff, orb_true_iff, negb_true_iff, !Z.eqb_eq, Z.eqb_neq.
      Z.div_mod_to_equations. lia. }
    assert (Hr : 0 <= r1 < 365 + (if leap then 1 else 0)) by (destruct leap; lia).
    pose proof (month_day_spec leap r1 Hr) as Hmd.
    unfold month_day_ok in Hmd. destruct (month_day leap r1) as [m d].
    repeat (apply andb_true_iff in Hmd as [Hmd ?]).
    unfold valid_date, ymd2ord, days_before_month, days_in_month, MINYEAR, MAXYEAR.
    rewrite Hleap. split.
    + repeat (apply andb_true_iff; split); try assumption; apply Z.leb_le; subst year; lia.
    + apply Z.eqb_eq in H. unfold days_before_year. subst year.
      Z.div_mod_to_equations. lia.
Qed.

Lemma valid_date_inv y m d :
  valid_date y m d = true ->
  1 <= y <= 9999 /\ 1 <= m <= 12 /\ 1 <= d <= days_in_month y m.
Proof.
  unfold valid_date, MINYEAR, MAXYEAR. rewrite !andb_true_iff, !Z.leb_le. lia.
Qed.

Lemma days_in_month_le_31 leap m : days_in_month_of leap m <= 31.
Proof.
  unfold days_in_month_of, leap_day, DAYS_IN_MONTH.
  destruct (Z.eq_dec m 2) as [->|Hm].
  - destruct leap; cbn; lia.
  - replace (m =? 2) with false by (symmetry; apply Z.eqb_neq; exact Hm). cbn [andb].
    repeat (match goal with |- context [match ?x with _ => _ end] => destruct x end); lia.
Qed.

(** Within a year: a valid month and day are recovered from their day of
    the year, which stays inside the year. *)
Lemma month_day_inverse (leap : bool) (m d : Z) :
  1 <= m <= 12 -> 1 <= d <= days_in_month_of leap m ->
  month_day leap (days_before_month_of leap m + d - 1) = (m, d)
  /\ days_before_month_of leap m + d <= 365 + (if leap then 1 else 0).
Proof.
  intros Hm Hd.
  assert (Hall : all_below 12 1 (month_day_inverse_ok leap) = true)
    by (destruct leap; vm_compute; reflexivity).
  pose proof (all_below_spec 12 1 _ Hall m ltac:(lia)) as Hok.
  unfold month_day_inverse_ok in Hok.
  pose proof (days_in_month_le_31 leap m) as H31.
  pose proof (all_below_spec 31 1 _ Hok d ltac:(lia)) as Hd'. cbv beta in Hd'.
  replace (d <=? days_in_month_of leap m) with true in Hd'
    by (symmetry; apply Z.leb_le; lia).
  apply andb_true_iff in Hd' as [H1 H2]. apply Z.leb_le in H2.
  destruct (month_day leap (days_before_month_of leap m + d - 1)) as [m' d'].
  apply andb_true_iff in H1 as [->%Z.eqb_eq ->%Z.eqb_eq]. split; [reflexivity | exact H2].
Qed.

Lemma days_before_year_succ y :
  days_before_year (y + 1) = days_before_year y + 365 + (if is_leap y then 1 else 0).
Proof.
  unfold days_before_year.
  destruct (is_leap y) eqn:Hl.
  - apply is_leap_true_iff in Hl. Z.div_mod_to_equations. lia.
  - assert (Hn : ~ (y mod 4 = 0 /\ (y mod 100 <> 0 \/ y mod 400 = 0))).
    { rewrite <- is_leap_true_iff. rewrite Hl. discriminate. }
    Z.div_mod_to_equations. lia.
Qed.

Lemma days_before_year_mono y y' : y <= y' -> days_before_year y <= days_before_year y'.
Proof. unfold days_before_year. intros H. Z.div_mod_to_equations. lia. Qed.

Lemma days_before_month_nonneg leap m : 0 <= days_before_month_of leap m.
Proof.
  unfold days_before_month_of, leap_day, DAYS_BEFORE_MONTH.
  destruct ((2 <? m) && leap);
    repeat (match goal with |- context [match ?x with _ => _ end] => destruct x end); lia.
Qed.

Lemma ymd2ord_range y m d :
  valid_date y m d = true -> 1 <= ymd2ord y m d <= MAXORDINAL.
Proof.
  intros (Hy & Hm & Hd)%valid_date_inv. unfold ymd2ord, days_before_month, MAXORDINAL.
  destruct (month_day_inverse (is_leap y) m d Hm Hd) as [_ Hin].
  pose proof (days_before_month_nonneg (is_leap y) m).
  pose proof (days_before_year_succ y).
  pose proof (days_before_year_mono 1 y ltac:(lia)).
  pose proof (days_before_year_mono (y + 1) 10000 ltac:(lia)).
  change (days_before_year 1) with 0 in *.
  change (days_before_year 10000) with 3652059 in *. lia.
Qed.

(** The ordinal determines the date. *)
Lemma ord2ymd_ymd2ord y m d :
  valid_date y m d = true -> ord2ymd (ymd2ord y m d) = (y, m, d).
Proof.
  intros Hv. pose proof (ymd2ord_range y m d Hv) as Hr.
  pose proof (ord2ymd_spec (ymd2ord y m d) Hr) as Hs.
  destruct (ord2ymd (ymd2ord y m d)) as [[y' m'] d']. destruct Hs as [Hv' He].
  apply valid_date_inv in Hv as (Hy & Hm & Hd).
  apply valid_date_inv in Hv' as (Hy' & Hm' & Hd').
  unfold days_in_month in Hd, Hd'.
  destruct (month_day_inverse (is_leap y) m d Hm Hd) as [Hi Hin].
  destruct (month_day_inverse (is_leap y') m' d' Hm' Hd') as [Hi' Hin'].
  pose proof (days_before_month_nonneg (is_leap y) m).
  pose proof (days_before_month_nonneg (is_leap y') m').
  unfold ymd2ord, days_before_month in He.
  assert (y' = y) as ->.
  { destruct (Z.lt_trichotomy y' y) as [Hlt | [Heq | Hgt]]; [| exact Heq |].
    - pose proof (days_before_year_succ y').
      pose proof (days_before_year_mono (y' + 1) y ltac:(lia)). lia.
    - pose proof (days_before_year_succ y).
      pose proof (days_before_year_mono (y + 1) y' ltac:(lia)). lia. }
  assert (Hk : days_before_month_of (is_leap y) m' + d' - 1
               = days_before_month_of (is_leap y) m + d - 1) by lia.
  rewrite Hk, Hi in Hi'. injection Hi' as -> ->. reflexivity.
Qed.

End CalendarFacts.

(** ** The monad of computations *)

Module MonadFacts.

Lemma total_ret {A : Type} (a : A) : total (ret a).
Proof. intros w. eexists. reflexivity. Qed.

Lemma total_lift {A : Type} (r : result A) : total (lift r).
Proof. intros w. eexists. reflexivity. Qed.

Lemma total_print_with (more : list string) (l : line) : total (print_with more l).
Proof. intros w. unfold print_with. destruct (forallb _ _); eexists; reflexivity. Qed.

Lemma total_print (l : line) : total (print l).
Proof. apply total_print_with. Qed.

(** A line is printed when its texts can be encoded, and only then. *)
Lemma print_with_run (more : list string) (l : line) w :
  print_with more l w
  = if forallb PyStr.encodable (interpolated l ++ more)
    then Some (Ok tt, mk_world (draws w) (out w ++ [l]))
    else Some (Raise UnicodeEncodeError, w).
Proof. reflexivity. Qed.

Lemma print_with_Ok (more : list string) (l : line) w x w' :
  print_with more l w = Some (Ok x, w') ->
  forallb PyStr.encodable (interpolated l ++ more) = true
  /\ w' = mk_world (draws w) (out w ++ [l]).
Proof.
  rewrite print_with_run. destruct (forallb _ _); intros H; [|discriminate].
  injection H as _ <-. split; reflexivity.
Qed.

Lemma print_with_encodable (more : list string) (l : line) w :
  forallb PyStr.encodable (interpolated l ++ more) = true ->
  print_with more l w = Some (Ok tt, mk_world (draws w) (out w ++ [l])).
Proof. intros H. rewrite print_with_run, H. reflexivity. Qed.


Lemma print_with_raise (more : list string) (l : line) w :
  forallb PyStr.encodable (interpolated l ++ more) = false ->
  print_with more l w = Some (Raise UnicodeEncodeError, w).
Proof. intros H. rewrite print_with_run, H. reflexivity. Qed.

Lemma total_uuid4_prefix u : total (uuid4_prefix u).
Proof. intros w. eexists. reflexivity. Qed.

Lemma total_bind {A B : Type} (m : M A) (k : A -> M B) :
  total m -> (forall a, total (k a)) -> total (bind m k).
Proof.
  intros Hm Hk w. unfold bind. destruct (Hm w) as [[r w1] ->].
  destruct r as [a|e]; [apply Hk | eexists; reflexivity].
Qed.

Lemma total_catch {A : Type} (m : M A) (h : exn -> M A) :
  total m -> (forall e, total (h e)) -> total (catch m h).
Proof.
  intros Hm Hh w. unfold catch. destruct (Hm w) as [[r w1] ->].
  destruct r as [a|e]; [eexists; reflexivity | apply Hh].
Qed.

Lemma bind_Ok {A B : Type} (m : M A) (k : A -> M B) w b w' :
  bind m k w = Some (Ok b, w') ->
  exists a w1, m w = Some (Ok a, w1) /\ k a w1 = Some (Ok b, w').
Proof.
  unfold bind. destruct (m w) as [[[a|e] w1]|]; intros H; try discriminate.
  exists a, w1. split; [reflexivity | exact H].
Qed.

Lemma lift_Ok {A : Type} (r : result A) w a w' :
  lift r w = Some (Ok a, w') -> r = Ok a /\ w' = w.
Proof. unfold lift. intros H. injection H as -> ->. split; reflexivity. Qed.

Lemma ret_Ok {A : Type} (x : A) w a w' :
  ret x w = Some (Ok a, w') -> a = x /\ w' = w.
Proof. unfold ret. intros H. injection H as -> ->. split; reflexivity. Qed.

Lemma rbind_Ok {A B : Type} (r : result A) (k : A -> result B) b :
  rbind r k = Ok b -> exists a, r = Ok a /\ k a = Ok b.
Proof. destruct r as [a|e]; cbn; intros H; [eauto | discriminate]. Qed.

Lemma print_with_then_ret {A : Type} (more : list string) (ln : line) (x : A) w a w' :
  (print_with more ln ;;; ret x) w = Some (Ok a, w') ->
  a = x /\ w' = mk_world (draws w) (out w ++ [ln]).
Proof.
  intros H. apply bind_Ok in H as ([] & w1 & [_ ->]%print_with_Ok & H).
  apply ret_Ok in H as [-> ->]. split; reflexivity.
Qed.

Lemma print_then_ret {A : Type} (ln : line) (x : A) w a w' :
  (print ln ;;; ret x) w = Some (Ok a, w') ->
  a = x /\ w' = mk_world (draws w) (out w ++ [ln]).
Proof. apply print_with_then_ret. Qed.

End MonadFacts.

(** ** Termination and the cap on the number of instances *)

Module LoopFacts.
Import MonadFacts.

Ltac solve_total :=
  repeat first
    [ apply total_ret | apply total_lift | apply total_print | apply total_print_with
    | apply total_uuid4_prefix
    | apply total_bind; [| intros ?]
    | apply total_catch; [| intros ?]
    | match goal with |- total (if ?c then _ else _) => destruct c end
    | match goal with |- total (match ?c with _ => _ end) => destruct c end ].

Lemma make_instance_total u master sts dur cur : total (make_instance u master sts dur cur).
Proof. unfold make_instance. solve_total. Qed.

Lemma advance_total recurrence cur : total (advance recurrence cur).
Proof. unfold advance. solve_total. Qed.

(** With as much fuel as there are instances left under the cap, the loop
    ends. *)
Lemma expansion_loop_total u master recurrence sts dur rend :
  forall fuel cur count instances,
    (MAX_INSTANCES - count <= fuel)%nat ->
    total (expansion_loop u fuel master recurrence sts dur rend cur count instances).
Proof.
  induction fuel as [|fuel IH]; intros cur count instances Hfuel w.
  - cbn [expansion_loop].
    destruct (count <? MAX_INSTANCES)%nat eqn:Hc.
    + apply Nat.ltb_lt in Hc. lia.
    + rewrite andb_false_r. eexists. reflexivity.
  - cbn [expansion_loop].
    destruct (DT.le cur rend && (count <? MAX_INSTANCES)%nat) eqn:Hc.
    + apply andb_true_iff in Hc as [_ Hc]. apply Nat.ltb_lt in Hc.
      revert w. apply total_bind; [apply make_instance_total | intros inst].
      apply total_bind; [apply advance_total | intros [nxt|]].
      * apply IH. lia.
      * apply total_ret.
    + eexists. reflexivity.
Qed.

(** The loop adds at most the instances left under the cap. *)
Lemma expansion_loop_length u master recurrence sts dur rend :
  forall fuel cur count instances w l w',
    expansion_loop u fuel master recurrence sts dur rend cur count instances w
      = Some (Ok l, w') ->
    (length l <= length instances + (MAX_INSTANCES - count))%nat.
Proof.
  induction fuel as [|fuel IH]; intros cur count instances w l w' H;
    cbn [expansion_loop] in H;
    destruct (DT.le cur rend && (count <? MAX_INSTANCES)%nat) eqn:Hc;
    try discriminate;
    try (apply ret_Ok in H as [-> _]; lia).
  apply andb_true_iff in Hc as [_ Hc]. apply Nat.ltb_lt in Hc.
  apply bind_Ok in H as (inst & w1 & _ & H).
  apply bind_Ok in H as (nxt & w2 & _ & H).
  destruct nxt as [nxt|].
  - apply IH in H. rewrite length_app in H. cbn [length] in H. lia.
  - apply ret_Ok in H as [-> _]. rewrite length_app. cbn [length]. lia.
Qed.

Lemma expand_body_total u master recurrence s e r :
  total (expand_body u master recurrence s e r).
Proof.
  unfold expand_body.
  repeat (apply total_bind; [first [apply total_lift | apply total_print] | intros ?]).
  apply total_bind; [apply expansion_loop_total; lia | intros ?].
  solve_total.
Qed.

Lemma generate_total u master : total (generate_recurring_instances u master).
Proof.
  unfold generate_recurring_instances.
  apply total_bind; [apply total_lift | intros recurrence].
  destruct (_ || _); [apply total_ret|].
  destruct (negb _); [solve_total|].
  apply total_catch; [apply expand_body_total | intros ?; solve_total].
Qed.

Lemma expand_body_length u master recurrence s e r w l w' :
  expand_body u master recurrence s e r w = Some (Ok l, w') ->
  (length l <= MAX_INSTANCES)%nat.
Proof.
  unfold expand_body. intros H.
  do 6 (apply bind_Ok in H as (? & ? & _ & H)).
  apply bind_Ok in H as (l0 & w0 & Hloop & H).
  apply expansion_loop_length in Hloop. cbn [length] in Hloop.
  apply bind_Ok in H as (? & ? & _ & H).
  apply ret_Ok in H as [-> _]. lia.
Qed.

End LoopFacts.

Module GenerateFacts.
Import MonadFacts LoopFacts.

Lemma catch_Ok {A : Type} (m : M A) (h : exn -> M A) w a w' :
  catch m h w = Some (Ok a, w') ->
  m w = Some (Ok a, w')
  \/ exists e w1, m w = Some (Raise e, w1) /\ h e w1 = Some (Ok a, w').
Proof.
  unfold catch. destruct (m w) as [[[x|e] w1]|]; intros H; try discriminate.
  - left. exact H.
  - right. eauto.
Qed.

Lemma generate_length u master w l w' :
  generate_recurring_instances u master w = Some (Ok l, w') ->
  (length l <= MAX_INSTANCES)%nat.
Proof.
  unfold generate_recurring_instances. intros H.
  apply bind_Ok in H as (recurrence & w1 & _ & H).
  destruct (_ || _).
  { apply ret_Ok in H as [-> _]. cbn. unfold MAX_INSTANCES. lia. }
  destruct (negb _).
  { apply print_then_ret in H as [-> _]. cbn. unfold MAX_INSTANCES. lia. }
  apply catch_Ok in H as [H | (e & w2 & _ & H)].
  - eapply expand_body_length. exact H.
  - apply print_with_then_ret in H as [-> _]. cbn. unfold MAX_INSTANCES. lia.
Qed.

End GenerateFacts.

(** ** The loop and its relational reading *)

Module IterationFacts.
Import MonadFacts LoopFacts GenerateFacts.

Lemma expansion_loop_iterations u master recurrence sts dur rend :
  forall fuel cur count instances w l w',
    expansion_loop u fuel master recurrence sts dur rend cur count instances w
      = Some (Ok l, w') ->
    exists new, l = instances ++ new
                /\ iterations u master recurrence sts dur rend cur count w new w'.
Proof.
  induction fuel as [|fuel IH]; intros cur count instances w l w' H;
    cbn [expansion_loop] in H;
    destruct (DT.le cur rend && (count <? MAX_INSTANCES)%nat) eqn:Hc;
    try discriminate.
  - apply ret_Ok in H as [-> ->]. exists []. rewrite app_nil_r.
    split; [reflexivity | constructor; exact Hc].
  - apply bind_Ok in H as (inst & w1 & Hmk & H).
    apply bind_Ok in H as (nxt & w2 & Hadv & H).
    destruct nxt as [nxt|].
    + apply IH in H as (new & -> & Hit).
      exists (inst :: new). rewrite <- app_assoc. split; [reflexivity|].
      eapply iterations_next; eauto.
    + apply ret_Ok in H as [-> ->]. exists [inst]. split; [reflexivity|].
      eapply iterations_break; eauto.
  - apply ret_Ok in H as [-> ->]. exists []. rewrite app_nil_r.
    split; [reflexivity | constructor; exact Hc].
Qed.

Lemma parse_datetime_Some v d : parse_datetime v = Ok (Some d) -> truthy v = true.
Proof.
  unfold parse_datetime. destruct (truthy v); [reflexivity | discriminate].
Qed.

Lemma parse_datetime_text v d : parse_datetime v = Ok (Some d) -> exists s, v = VStr s.
Proof.
  unfold parse_datetime. destruct (negb (truthy v)); [discriminate|].
  destruct v; try discriminate; [eauto | destruct (_ || _); discriminate].
Qed.

Lemma need_Ok o d : need o = Ok d -> o = Some d.
Proof. destruct o; cbn; congruence. Qed.

(** What a completed [try] block did. *)
Lemma expand_body_inv u master recurrence sts ets rets w l w' :
  expand_body u master recurrence sts ets rets w = Some (Ok l, w') ->
  exists start_dt end_dt rend w1,
    parse_datetime sts = Ok (Some start_dt)
    /\ parse_datetime ets = Ok (Some end_dt)
    /\ parse_datetime rets = Ok (Some rend)
    /\ iterations u master recurrence sts (DT.sub end_dt start_dt) rend start_dt 0 w l w1
    /\ w' = mk_world (draws w1)
              (out w1 ++ [LGenerated (length l) (get master "title" (VStr "Unknown"))]).
Proof.
  unfold expand_body. intros H.
  apply bind_Ok in H as (os & ? & [Hs ->]%lift_Ok & H).
  apply bind_Ok in H as (oe & ? & [He ->]%lift_Ok & H).
  apply bind_Ok in H as (or & ? & [Hr ->]%lift_Ok & H).
  apply bind_Ok in H as (end_dt & ? & [->%need_Ok ->]%lift_Ok & H).
  apply bind_Ok in H as (start_dt & ? & [->%need_Ok ->]%lift_Ok & H).
  apply bind_Ok in H as (rend & ? & [->%need_Ok ->]%lift_Ok & H).
  apply bind_Ok in H as (l0 & w1 & Hloop & H).
  apply print_then_ret in H as [-> ->].
  apply expansion_loop_iterations in Hloop as (new & -> & Hit).
  exists start_dt, end_dt, rend, w1. cbn [app]. repeat split; assumption.
Qed.

Lemma expanded_generate u master w l w' :
  expanded u master w l w' ->
  generate_recurring_instances u master w = Some (Ok l, w').
Proof.
  intros (recurrence & Hrec & Hnone & Hempty & Hbody).
  pose proof Hbody as Hinv.
  apply expand_body_inv in Hinv as (sd & ed & rd & w1 & Hs & He & Hr & _ & _).
  apply parse_datetime_Some in Hs, He, Hr.
  unfold generate_recurring_instances.
  unfold bind at 1. unfold lift at 1. rewrite Hrec.
  cbn [truthy]. rewrite Hnone, Hempty. cbn [negb orb].
  rewrite Hs, He, Hr. cbn [andb negb].
  unfold catch. rewrite Hbody. reflexivity.
Qed.

End IterationFacts.

(** ** One instance *)

Module InstanceFacts.
Import MonadFacts.

Lemma uuid4_prefix_Ok u w s w' :
  uuid4_prefix u w = Some (Ok s, w') ->
  s = PyStr.take 8 (u (draws w)) /\ w' = mk_world (S (draws w)) (out w).
Proof. unfold uuid4_prefix. intros H. injection H as <- <-. split; reflexivity. Qed.

Lemma make_instance_inv u (master : event) sts dur cur w (inst : event) w1 :
  make_instance u master sts dur cur w = Some (Ok inst, w1) ->
  exists instance_end tz,
    DT.add cur dur = Ok instance_end
    /\ tz_suffix sts = Ok tz
    /\ inst !! "startTime"
       = Some (VStr (String.append (DT.strftime DT.FMT_SECONDS cur) tz))
    /\ inst !! "endTime"
       = Some (VStr (String.append (DT.strftime DT.FMT_SECONDS instance_end) tz))
    /\ inst !! "isRecurringInstance" = Some (VBool true)
    /\ inst !! "recurringMasterId"
       = Some (get master "iCalUld"
                 (VStr (String.append "master_"
                          (PyStr.take 8 (u (draws w + draws_per_instance master - 1)%nat)))))
    /\ draws w1 = (draws w + draws_per_instance master)%nat
    /\ out w1 = out w.
Proof.
  unfold make_instance, draws_per_instance. intros H.
  apply bind_Ok in H as (iend & ? & [Hadd ->]%lift_Ok & H).
  apply bind_Ok in H as (tz & ? & [Htz ->]%lift_Ok & H).
  exists iend, tz.
  assert (Hget : get (<["endTime" := VStr (String.append (DT.strftime DT.FMT_SECONDS iend) tz)]>
                       (<["startTime" := VStr (String.append (DT.strftime DT.FMT_SECONDS cur) tz)]>
                          master)) "iCalUld" VNone
                 = get master "iCalUld" VNone).
  { unfold get. rewrite !lookup_insert_ne by discriminate. reflexivity. }
  rewrite Hget in H.
  apply bind_Ok in H as (inst1 & w2 & Hid & H).
  apply bind_Ok in H as (s2 & w3 & [-> ->]%uuid4_prefix_Ok & H).
  apply ret_Ok in H as [-> ->]. cbn [draws out].
  destruct (truthy (get master "iCalUld" VNone)); cbn [negb] in Hid.
  - apply ret_Ok in Hid as [-> ->].
    repeat split; try assumption;
      try (rewrite ?lookup_insert_eq, ?lookup_insert_ne by discriminate;
           rewrite ?lookup_insert_eq, ?lookup_insert_ne by discriminate; reflexivity).
    + rewrite lookup_insert_eq. repeat f_equal. lia.
    + lia.
  - apply bind_Ok in Hid as (title & ? & [_ ->]%lift_Ok & Hid).
    apply bind_Ok in Hid as (s1 & w4 & [-> ->]%uuid4_prefix_Ok & Hid).
    apply ret_Ok in Hid as [-> ->]. cbn [draws out].
    repeat split; try assumption;
      try (rewrite ?lookup_insert_eq, ?lookup_insert_ne by discriminate;
           rewrite ?lookup_insert_eq, ?lookup_insert_ne by discriminate; reflexivity).
    + rewrite lookup_insert_eq. repeat f_equal. lia.
    + lia.
Qed.

End InstanceFacts.

(** ** Text *)

Module TextFacts.

Lemma append_nil (b : string) : String.append EmptyString b = b.
Proof. reflexivity. Qed.

Lemma append_cons (x : ascii) (a b : string) :
  String.append (String x a) b = String x (String.append a b).
Proof. reflexivity. Qed.

Ltac step_append := rewrite ?append_cons, ?append_nil.

Lemma append_assoc (a b c : string) :
  String.append (String.append a b) c = String.append a (String.append b c).
Proof. induction a as [|x a IH]; step_append; [reflexivity | rewrite IH; reflexivity]. Qed.

Lemma append_empty_r (a : string) : String.append a EmptyString = a.
Proof. induction a as [|x a IH]; step_append; [reflexivity | rewrite IH; reflexivity]. Qed.

Lemma contains_append c a b :
  PyStr.contains c (String.append a b) = PyStr.contains c a || PyStr.contains c b.
Proof.
  induction a as [|x a IH]; step_append; cbn [PyStr.contains]; [reflexivity|].
  rewrite IH. apply orb_assoc.
Qed.

Lemma split_no_sep c a : PyStr.contains c a = false -> PyStr.split c a = [a].
Proof.
  induction a as [|x a IH]; cbn [PyStr.contains PyStr.split]; [reflexivity|].
  intros [Hx Ha]%orb_false_iff. rewrite Hx, (IH Ha). reflexivity.
Qed.

Lemma split_at_first c a b :
  PyStr.contains c a = false ->
  PyStr.split c (String.append a (String c b)) = a :: PyStr.split c b.
Proof.
  induction a as [|x a IH]; step_append; cbn [PyStr.contains PyStr.split].
  - intros _. unfold PyStr.ascii_eqb. rewrite Ascii.eqb_refl. reflexivity.
  - intros [Hx Ha]%orb_false_iff. rewrite Hx, (IH Ha). reflexivity.
Qed.

Lemma remove_absent c a : PyStr.contains c a = false -> PyStr.remove c a = a.
Proof.
  induction a as [|x a IH]; cbn [PyStr.contains PyStr.remove]; [reflexivity|].
  intros [Hx Ha]%orb_false_iff. rewrite Hx, (IH Ha). reflexivity.
Qed.

Lemma remove_append c a b :
  PyStr.remove c (String.append a b) = String.append (PyStr.remove c a) (PyStr.remove c b).
Proof.
  induction a as [|x a IH]; step_append; cbn [PyStr.remove]; [reflexivity|].
  destruct (PyStr.ascii_eqb x c); step_append; rewrite IH; reflexivity.
Qed.

(** A text that holds the separator has a second piece. *)
Lemma split_second c a :
  PyStr.contains c a = true -> exists p q rest, PyStr.split c a = p :: q :: rest.
Proof.
  induction a as [|x a IH]; cbn [PyStr.contains PyStr.split]; [discriminate|].
  destruct (PyStr.ascii_eqb x c) eqn:Hx; cbn [orb].
  - intros _. destruct a as [|y a]; cbn [PyStr.split]; [eauto|].
    destruct (PyStr.ascii_eqb y c); [eauto|].
    destruct (PyStr.split c a); eauto.
  - intros Ha. destruct (IH Ha) as (p & q & rest & ->). eauto.
Qed.




Lemma ascii_no_surrogate s : PyStr.is_ascii s = true -> PyStr.holds_surrogate s = false.
Proof.
  induction s as [|a s IH]; [reflexivity|]. cbn [PyStr.is_ascii].
  intros [Ha Hs]%andb_true_iff. cbn [PyStr.holds_surrogate].
  destruct s as [|b s']; [reflexivity|]. rewrite (IH Hs), orb_false_r.
  apply Nat.ltb_lt in Ha.
  replace (nat_of_ascii a =? 237)%nat with false by (symmetry; apply Nat.eqb_neq; lia).
  reflexivity.
Qed.

Lemma ascii_encodable s : PyStr.is_ascii s = true -> PyStr.encodable s = true.
Proof. intros H. unfold PyStr.encodable. rewrite (ascii_no_surrogate s H). reflexivity. Qed.

End TextFacts.

(** ** The timezone literal *)

Module TimezoneFacts.
Import TextFacts.

Lemma tz_suffix_text s : exists tz, tz_suffix (VStr s) = Ok tz.
Proof.
  unfold tz_suffix. destruct (PyStr.contains "+" s) eqn:Hp.
  - destruct (split_second _ _ Hp) as (p & q & rest & ->). cbn. eauto.
  - destruct (PyStr.contains "Z" s); eauto.
Qed.

(** The text between the first sign and the next, or the end, comes back
    with its sign. *)
Lemma tz_suffix_offset pre off more :
  PyStr.contains "+" pre = false ->
  PyStr.contains "+" off = false ->
  more = EmptyString \/ (exists r, more = String "+" r) ->
  tz_suffix (VStr (String.append pre (String "+" (String.append off more))))
  = Ok (String "+" off).
Proof.
  intros Hpre Hoff Hmore. unfold tz_suffix.
  rewrite contains_append. cbn [PyStr.contains]. unfold PyStr.ascii_eqb at 1.
  rewrite Ascii.eqb_refl, orb_true_r.
  rewrite split_at_first by exact Hpre.
  destruct Hmore as [-> | (r & ->)].
  - rewrite append_empty_r, split_no_sep by exact Hoff. reflexivity.
  - rewrite split_at_first by exact Hoff. reflexivity.
Qed.

Lemma tz_suffix_zulu s :
  PyStr.contains "+" s = false -> PyStr.contains "Z" s = true ->
  tz_suffix (VStr s) = Ok "Z".
Proof. intros Hp Hz. unfold tz_suffix. rewrite Hp, Hz. reflexivity. Qed.

Lemma tz_suffix_default s :
  PyStr.contains "+" s = false -> PyStr.contains "Z" s = false ->
  tz_suffix (VStr s) = Ok "+00:00".
Proof. intros Hp Hz. unfold tz_suffix. rewrite Hp, Hz. reflexivity. Qed.

End TimezoneFacts.

(** ** Advancing to the next occurrence *)

Module AdvanceFacts.
Import MonadFacts.

Lemma lift_bind_ret_Some {A : Type} (r : result A) w (x : A) w' :
  (d <- lift r ;; ret (Some d)) w = Some (Ok (Some x), w') -> r = Ok x /\ w' = w.
Proof.
  cbv [bind lift ret]. destruct r as [a|e]; intros H; [|discriminate].
  injection H as -> ->. split; reflexivity.
Qed.

Lemma lift_bind_ret_None {A : Type} (r : result A) w w' :
  (d <- lift r ;; ret (Some d)) w = Some (Ok None, w') -> False.
Proof. cbv [bind lift ret]. destruct r; discriminate. Qed.

(** A next occurrence comes from adding whole days or from replacing the
    year and month; the world is untouched. *)
Lemma advance_next recurrence cur w next w' :
  advance recurrence cur w = Some (Ok (Some next), w') ->
  w' = w
  /\ ((exists k, DT.add cur (DT.timedelta_days k) = Ok next)
      \/ (exists y m, DT.replace_year_month cur y m = Ok next)).
Proof.
  unfold advance.
  destruct (String.eqb recurrence "weekly").
  { intros [H ->]%lift_bind_ret_Some. split; [reflexivity|]. left. exists 7. exact H. }
  destruct (String.eqb recurrence "daily").
  { intros [H ->]%lift_bind_ret_Some. split; [reflexivity|]. left. exists 1. exact H. }
  destruct (String.eqb recurrence "monthly").
  { intros [H ->]%lift_bind_ret_Some. split; [reflexivity|]. right.
    destruct (DT.month cur =? 12); unfold DT.replace_month in H; eauto. }
  destruct (String.eqb recurrence "yearly").
  { intros [H ->]%lift_bind_ret_Some. split; [reflexivity|]. right.
    unfold DT.replace_year in H. eauto. }
  intros H. apply print_then_ret in H as [H _]. discriminate.
Qed.

(** The loop breaks only on a pattern that is none of the four, after one
    warning. *)
Lemma advance_break recurrence cur w w' :
  advance recurrence cur w = Some (Ok None, w') ->
  w' = mk_world (draws w) (out w ++ [LUnknownPattern recurrence])
  /\ String.eqb recurrence "weekly" = false
  /\ String.eqb recurrence "daily" = false
  /\ String.eqb recurrence "monthly" = false
  /\ String.eqb recurrence "yearly" = false.
Proof.
  unfold advance.
  destruct (String.eqb recurrence "weekly"); [intros []%lift_bind_ret_None|].
  destruct (String.eqb recurrence "daily"); [intros []%lift_bind_ret_None|].
  destruct (String.eqb recurrence "monthly"); [intros []%lift_bind_ret_None|].
  destruct (String.eqb recurrence "yearly"); [intros []%lift_bind_ret_None|].
  intros [_ ->]%print_then_ret. repeat split; reflexivity.
Qed.


End AdvanceFacts.

(** ** Properties carried along the iterations *)

Module InvariantFacts.
Import MonadFacts InstanceFacts AdvanceFacts.

(** A property of instances that every iteration establishes, given an
    invariant of the current occurrence that advancing preserves, holds
    of all the instances the loop adds. *)
Lemma iterations_Forall u master recurrence sts dur rend
    (Inv : DT.datetime -> Prop) (P : event -> Prop) :
  (forall cur w inst w1,
      Inv cur -> make_instance u master sts dur cur w = Some (Ok inst, w1) -> P inst) ->
  (forall cur w next w',
      Inv cur -> advance recurrence cur w = Some (Ok (Some next), w') -> Inv next) ->
  forall cur count w new w',
    iterations u master recurrence sts dur rend cur count w new w' ->
    Inv cur -> Forall P new.
Proof.
  intros Hmk Hadv cur count w new w' Hit.
  induction Hit as [| cur count w inst w1 w2 _ Hm _
                     | cur count w inst w1 next w2 rest w3 _ Hm Ha _ IH]; intros Hinv.
  - constructor.
  - constructor; [eapply Hmk; eauto | constructor].
  - constructor; [eapply Hmk; eauto | apply IH; eapply Hadv; eauto].
Qed.

(** The draws made before the [i]-th added instance. *)
Lemma iterations_master_id u master recurrence sts dur rend :
  forall cur count w new w',
    iterations u master recurrence sts dur rend cur count w new w' ->
    forall (i : nat) (inst : event),
      new !! i = Some inst ->
      inst !! "recurringMasterId"
      = Some (get master "iCalUld"
                (VStr (String.append "master_"
                         (PyStr.take 8
                            (u (draws w + S i * draws_per_instance master - 1)%nat))))).
Proof.
  intros cur count w new w' Hit.
  induction Hit as [| cur count w inst w1 w2 _ Hm _
                     | cur count w inst w1 next w2 rest w3 _ Hm Ha _ IH]; intros i x Hx.
  - discriminate.
  - destruct i; [|discriminate]. injection Hx as <-.
    apply make_instance_inv in Hm as (? & ? & _ & _ & _ & _ & _ & Hid & _).
    rewrite Hid. repeat f_equal. lia.
  - apply make_instance_inv in Hm as (? & ? & _ & _ & _ & _ & _ & Hid & Hd & _).
    apply advance_next in Ha as [-> _].
    destruct i as [|i].
    + injection Hx as <-. rewrite Hid. repeat f_equal. lia.
    + cbn in Hx. rewrite (IH i x Hx), Hd.
      replace (draws w + draws_per_instance master + S i * draws_per_instance master - 1)%nat
        with (draws w + S (S i) * draws_per_instance master - 1)%nat
        by (unfold draws_per_instance; destruct (truthy _); lia).
      reflexivity.
Qed.

End InvariantFacts.

(** ** Arithmetic on [datetime] *)

Module DTFacts.
Import Calendar CalendarFacts DT.

Lemma valid_inv d :
  valid d = true ->
  valid_date (year d) (month d) (day d) = true
  /\ 0 <= hour d < 24 /\ 0 <= minute d < 60 /\ 0 <= second d < 60
  /\ 0 <= microsecond d < 1000000.
Proof.
  unfold valid, US_PER_SECOND. rewrite !andb_true_iff, !Z.leb_le, !Z.ltb_lt. tauto.
Qed.

Lemma valid_intro d :
  valid_date (year d) (month d) (day d) = true ->
  0 <= hour d < 24 -> 0 <= minute d < 60 -> 0 <= second d < 60 ->
  0 <= microsecond d < 1000000 ->
  valid d = true.
Proof.
  intros. unfold valid, US_PER_SECOND. rewrite !andb_true_iff, !Z.leb_le, !Z.ltb_lt. tauto.
Qed.

(** The day and the time of day of the microsecond count. *)
Lemma to_micros_split d :
  valid d = true ->
  to_micros d / US_PER_DAY = toordinal d
  /\ to_micros d mod US_PER_DAY = seconds_of_day d * 1000000 + microsecond d
  /\ 0 <= seconds_of_day d < 86400.
Proof.
  intros (_ & Hh & Hm & Hs & Hu)%valid_inv.
  unfold to_micros, seconds_of_day, US_PER_DAY, US_PER_SECOND.
  set (o := toordinal d). clearbody o.
  Z.div_mod_to_equations. lia.
Qed.

Lemma toordinal_range d : valid d = true -> 1 <= toordinal d <= MAXORDINAL.
Proof. intros (Hd & _)%valid_inv. apply ymd2ord_range. exact Hd. Qed.

Lemma of_micros_to_micros d : valid d = true -> of_micros (to_micros d) = d.
Proof.
  intros Hv. destruct (to_micros_split d Hv) as (Hdiv & Hmod & Hsec).
  pose proof Hv as (Hd & Hh & Hm & Hs & Hu)%valid_inv.
  unfold of_micros. rewrite Hdiv, Hmod. unfold toordinal.
  rewrite (ord2ymd_ymd2ord _ _ _ Hd).
  unfold seconds_of_day, US_PER_SECOND in *.
  destruct d as [y m dd hh mi ss us]. cbn [year month day hour minute second microsecond] in *.
  f_equal; Z.div_mod_to_equations; lia.
Qed.

Lemma to_micros_of_micros t :
  1 <= t / US_PER_DAY <= MAXORDINAL ->
  valid (of_micros t) = true /\ to_micros (of_micros t) = t.
Proof.
  intros Hr. pose proof (ord2ymd_spec (t / US_PER_DAY) Hr) as Hs.
  unfold of_micros. destruct (ord2ymd (t / US_PER_DAY)) as [[y m] d].
  destruct Hs as [Hv Ho]. split.
  - apply valid_intro; cbn [year month day hour minute second microsecond];
      [exact Hv | unfold US_PER_DAY, US_PER_SECOND; Z.div_mod_to_equations; lia ..].
  - unfold to_micros, toordinal, seconds_of_day.
    cbn [year month day hour minute second microsecond]. rewrite Ho.
    unfold US_PER_DAY, US_PER_SECOND. Z.div_mod_to_equations. lia.
Qed.

Lemma add_Ok d delta d' :
  add d delta = Ok d' ->
  valid d' = true /\ to_micros d' = to_micros d + delta.
Proof.
  unfold add.
  destruct ((0 <? (to_micros d + delta) / US_PER_DAY)
            && ((to_micros d + delta) / US_PER_DAY <=? MAXORDINAL)) eqn:Hc; [|discriminate].
  intros H. injection H as <-.
  apply andb_true_iff in Hc as [H1%Z.ltb_lt H2%Z.leb_le].
  apply to_micros_of_micros. lia.
Qed.

(** Adding to a time its distance to another gives the other. *)
Lemma add_sub a b : valid a = true -> valid b = true -> add a (sub b a) = Ok b.
Proof.
  intros Ha Hb. unfold add, sub.
  replace (to_micros a + (to_micros b - to_micros a)) with (to_micros b) by lia.
  destruct (to_micros_split b Hb) as (-> & _ & _).
  pose proof (toordinal_range b Hb) as Hr.
  replace (0 <? toordinal b) with true by (symmetry; apply Z.ltb_lt; lia).
  replace (toordinal b <=? MAXORDINAL) with true by (symmetry; apply Z.leb_le; lia).
  cbn [andb]. rewrite (of_micros_to_micros b Hb). reflexivity.
Qed.

Lemma make_Ok y m d hh mm ss us r :
  make y m d hh mm ss us = Ok r ->
  r = mk_datetime y m d hh mm ss us /\ valid r = true.
Proof.
  unfold make. destruct (valid (mk_datetime y m d hh mm ss us)) eqn:Hv; [|discriminate].
  intros H. injection H as <-. split; [reflexivity | exact Hv].
Qed.

Lemma strptime_valid s fmt d : strptime s fmt = Ok d -> valid d = true.
Proof.
  unfold strptime. destruct (matches fmt s DEFAULTS) as [|[t rest] tl]; [discriminate|].
  destruct rest; [|discriminate].
  destruct (valid t) eqn:Hv; [|discriminate]. intros H. injection H as <-. exact Hv.
Qed.

End DTFacts.

Module ParseFacts.
Import DT DTFacts MonadFacts.

Lemma try_formats_valid s fmts d : try_formats s fmts = Ok d -> valid d = true.
Proof.
  induction fmts as [|fmt rest IH]; cbn [try_formats]; [discriminate|].
  destruct (strptime s fmt) as [x|e] eqn:Hp.
  - intros H. injection H as <-. eapply strptime_valid. exact Hp.
  - destruct e; try discriminate. exact IH.
Qed.

Lemma parse_datetime_valid v d : parse_datetime v = Ok (Some d) -> valid d = true.
Proof.
  unfold parse_datetime. destruct (negb (truthy v)); [discriminate|].
  destruct v; try discriminate; [|destruct (_ || _); discriminate].
  intros (s' & _ & (x & Hx & H)%rbind_Ok)%rbind_Ok.
  injection H as <-. eapply try_formats_valid. exact Hx.
Qed.

End ParseFacts.

(** ** Running one iteration forward *)

Module ForwardFacts.
Import MonadFacts InstanceFacts AdvanceFacts IterationFacts.

Lemma instant_of_Some (e : event) k d :
  instant_of e k = Some d -> parse_datetime (get e k (VStr EmptyString)) = Ok (Some d).
Proof.
  unfold instant_of. destruct (parse_datetime _) as [[x|]|]; try discriminate.
  intros H. injection H as ->. reflexivity.
Qed.

Lemma bind_lift_Ok {A B : Type} (a : A) (k : A -> M B) w :
  (x <- lift (Ok a) ;; k x) w = k a w.
Proof. reflexivity. Qed.

Lemma bind_run {A B : Type} (m : M A) (k : A -> M B) w a w1 :
  m w = Some (Ok a, w1) -> (x <- m ;; k x) w = k a w1.
Proof. intros H. unfold bind. rewrite H. reflexivity. Qed.

(** An iteration produces its instance when the end of the occurrence is
    in range and the identifier can be made: the master has a uid, or its
    title is text. *)
Lemma make_instance_runs u (master : event) s dur cur w instance_end :
  DT.add cur dur = Ok instance_end ->
  truthy (get master "iCalUld" VNone) = true
  \/ (exists t, get master "title" (VStr "event") = VStr t) ->
  exists inst w1, make_instance u master (VStr s) dur cur w = Some (Ok inst, w1).
Proof.
  intros Hadd Hid. destruct (TimezoneFacts.tz_suffix_text s) as (tz & Htz).
  unfold make_instance. rewrite Hadd, Htz. rewrite !bind_lift_Ok.
  assert (Hget : forall a b : pyval,
             get (<["endTime" := a]> (<["startTime" := b]> master)) "iCalUld" VNone
             = get master "iCalUld" VNone).
  { intros a b. unfold get. rewrite !lookup_insert_ne by discriminate. reflexivity. }
  rewrite Hget.
  destruct (truthy (get master "iCalUld" VNone)) eqn:Ht; cbn [negb].
  - eexists _, _. reflexivity.
  - destruct Hid as [Hid | (t & Hid)]; [discriminate|].
    rewrite Hid. eexists _, _. reflexivity.
Qed.

End ForwardFacts.
(** ** Formatting and parsing back *)

Module FormatFacts.
Import Calendar CalendarFacts DT DTFacts TextFacts.

Lemma hd_error_app {A : Type} (l1 l2 : list A) x :
  hd_error l1 = Some x -> hd_error (l1 ++ l2) = Some x.
Proof. destruct l1; cbn; [discriminate | trivial]. Qed.

(** The first match of a format goes through the first candidate of its
    first directive when the rest of the format matches after it. *)
Lemma matches_head d fmt s t v r x :
  hd_error (candidates d s) = Some (v, r) ->
  hd_error (matches fmt r (store d v t)) = Some x ->
  hd_error (matches (d :: fmt) s t) = Some x.
Proof.
  cbn [matches]. destruct (candidates d s) as [|[v' r'] tl]; cbn [hd_error]; [discriminate|].
  intros H. injection H as -> ->. cbn [flat_map]. apply hd_error_app.
Qed.

Lemma cases_below (n : Z) (hi : nat) (P : Z -> Prop) :
  (forall k : nat, (k < hi)%nat -> P (Z.of_nat k)) ->
  (forall m, ~ (0 <= m < Z.of_nat hi) -> P m) ->
  P n.
Proof.
  intros Hin Hout. destruct (Z_lt_dec n 0) as [Hneg|Hpos]; [apply Hout; lia|].
  destruct (Z_lt_dec n (Z.of_nat hi)) as [Hlt|Hge]; [|apply Hout; lia].
  rewrite <- (Z2Nat.id n) by lia. apply Hin. lia.
Qed.

Ltac each_case k count :=
  lazymatch count with
  | O => idtac
  | S ?c => destruct k as [|k]; [intros; first [reflexivity | exfalso; lia] | each_case k c]
  end.

(** Proves a goal about [n], whose range the hypothesis [H] gives, by
    trying each value below [hi]. *)
Ltac by_cases_below n H hi :=
  let k := fresh "k" in
  let Hk := fresh "Hk" in
  let count := eval cbv in hi in
  revert H; pattern n; apply (cases_below n hi);
  [ intros k Hk; each_case k count; exfalso; lia
  | intros; exfalso; lia ].

Lemma digit_val_char k : 0 <= k <= 9 -> digit_val (digit_char k) = Some k.
Proof. intros H. by_cases_below k H 10%nat. Qed.

Lemma digit_char_other c k :
  digit_val c = None -> 0 <= k <= 9 -> PyStr.ascii_eqb (digit_char k) c = false.
Proof.
  intros Hc Hk. unfold PyStr.ascii_eqb. apply Ascii.eqb_neq. intros <-.
  rewrite digit_val_char in Hc by exact Hk. discriminate.
Qed.

(** Padded numbers hold digits only. *)
Lemma pad_clean c w : digit_val c = None -> forall n, PyStr.contains c (pad w n) = false.
Proof.
  intros Hc. induction w as [|w IH]; intros n; cbn [pad]; [reflexivity|].
  rewrite contains_append, IH. cbn [PyStr.contains orb].
  rewrite digit_char_other; [reflexivity | exact Hc |].
  pose proof (Z.mod_pos_bound n 10). lia.
Qed.

Lemma padded_seconds_clean c t :
  digit_val c = None ->
  PyStr.ascii_eqb "-" c = false -> PyStr.ascii_eqb "T" c = false ->
  PyStr.ascii_eqb ":" c = false ->
  PyStr.contains c (padded FMT_SECONDS t) = false.
Proof.
  intros Hc H1 H2 H3. unfold FMT_SECONDS. cbn [padded render_padded].
  rewrite !contains_append, !(pad_clean c) by exact Hc.
  cbn [PyStr.contains]. rewrite H1, H2, H3. reflexivity.
Qed.

Lemma padded_seconds_nonempty t tz :
  String.eqb (String.append (padded FMT_SECONDS t) tz) EmptyString = false.
Proof.
  unfold FMT_SECONDS. cbn [padded render_padded pad].
  destruct (pad 3 (year t / 10)); step_append; reflexivity.
Qed.

Lemma head_literal c rest :
  hd_error (candidates (Lit c) (String.append (String c EmptyString) rest)) = Some (0, rest).
Proof.
  step_append. cbn [candidates]. unfold PyStr.ascii_eqb. rewrite Ascii.eqb_refl. reflexivity.
Qed.

Lemma head_year y rest :
  0 <= y <= 9999 ->
  hd_error (candidates DY (String.append (pad 4 y) rest)) = Some (y, rest).
Proof.
  intros Hy. cbn [pad]. rewrite !append_assoc. step_append.
  cbn [candidates]. unfold alt2, alt1.
  do 4 (rewrite digit_val_char by (Z.div_mod_to_equations; lia); cbn).
  do 2 f_equal. Z.div_mod_to_equations. lia.
Qed.

Lemma head_month n rest :
  1 <= n <= 12 ->
  hd_error (candidates Dm (String.append (pad 2 n) rest)) = Some (n, rest).
Proof. intros H. by_cases_below n H 13%nat. Qed.

Lemma head_day n rest :
  1 <= n <= 31 ->
  hd_error (candidates Dd (String.append (pad 2 n) rest)) = Some (n, rest).
Proof. intros H. by_cases_below n H 32%nat. Qed.

Lemma head_hour n rest :
  0 <= n < 24 ->
  hd_error (candidates DH (String.append (pad 2 n) rest)) = Some (n, rest).
Proof. intros H. by_cases_below n H 24%nat. Qed.

Lemma head_minute n rest :
  0 <= n < 60 ->
  hd_error (candidates DM (String.append (pad 2 n) rest)) = Some (n, rest).
Proof. intros H. by_cases_below n H 60%nat. Qed.

Lemma head_second n rest :
  0 <= n < 60 ->
  hd_error (candidates DS (String.append (pad 2 n) rest)) = Some (n, rest).
Proof. intros H. by_cases_below n H 60%nat. Qed.

Lemma valid_whole_second t : valid t = true -> valid (whole_second t) = true.
Proof.
  intros (Hd & Hh & Hm & Hs & Hu)%valid_inv.
  apply valid_intro; cbn [whole_second year month day hour minute second microsecond];
    first [assumption | lia].
Qed.

Ltac head_step :=
  eapply matches_head;
  [ first [ apply head_literal
          | apply head_year; lia | apply head_month; lia | apply head_day; lia
          | apply head_hour; lia | apply head_minute; lia | apply head_second; lia ]
  | cbn [store year month day hour minute second microsecond] ].

(** Parsing what the seconds format wrote gives the time back, to the
    second. *)
Lemma strptime_padded t :
  valid t = true ->
  strptime (padded FMT_SECONDS t) FMT_SECONDS = Ok (whole_second t).
Proof.
  intros Hv. pose proof Hv as (Hd & Hh & Hm & Hs & Hu)%valid_inv.
  apply valid_date_inv in Hd as (Hy & Hmo & Hday).
  pose proof (days_in_month_le_31 (is_leap (year t)) (month t)) as H31.
  unfold days_in_month in Hday.
  assert (Hhead : hd_error (matches FMT_SECONDS (padded FMT_SECONDS t) DEFAULTS)
                  = Some (whole_second t, EmptyString)).
  { unfold FMT_SECONDS. cbn [padded render_padded]. do 11 head_step. reflexivity. }
  unfold strptime.
  destruct (matches FMT_SECONDS (padded FMT_SECONDS t) DEFAULTS) as [|[x r] tl];
    cbn [hd_error] in Hhead; [discriminate|].
  injection Hhead as -> ->. rewrite (valid_whole_second t Hv). reflexivity.
Qed.

Lemma digit_val_plus : digit_val "+" = None.
Proof. reflexivity. Qed.

Lemma digit_val_zulu : digit_val "Z" = None.
Proof. reflexivity. Qed.

(** The two shapes of a timezone literal. *)
Lemma tz_suffix_shape s tz :
  tz_suffix (VStr s) = Ok tz -> (exists p, tz = String "+" p) \/ tz = "Z".
Proof.
  unfold tz_suffix. destruct (PyStr.contains "+" s).
  - destruct (index (PyStr.split "+" s) 1) as [p|e]; cbn [rbind]; [|discriminate].
    intros H. injection H as <-. left. eauto.
  - destruct (PyStr.contains "Z" s); intros H; injection H as <-; [right | left]; eauto.
Qed.

Lemma strip_timezone_padded t s tz :
  tz_suffix (VStr s) = Ok tz ->
  strip_timezone (String.append (padded FMT_SECONDS t) tz) = Ok (padded FMT_SECONDS t).
Proof.
  intros Htz.
  assert (Hplus : PyStr.contains "+" (padded FMT_SECONDS t) = false)
    by (apply padded_seconds_clean; reflexivity).
  assert (Hz : PyStr.contains "Z" (padded FMT_SECONDS t) = false)
    by (apply padded_seconds_clean; reflexivity).
  unfold strip_timezone. rewrite contains_append, Hplus.
  destruct (tz_suffix_shape s tz Htz) as [(p & ->) | ->].
  - cbn [PyStr.contains orb]. unfold PyStr.ascii_eqb at 1. rewrite Ascii.eqb_refl. cbn [orb].
    rewrite split_at_first by exact Hplus. reflexivity.
  - cbn [PyStr.contains orb]. unfold PyStr.ascii_eqb at 1. cbn [Ascii.eqb Bool.eqb orb].
    rewrite contains_append, Hz. cbn [PyStr.contains orb]. unfold PyStr.ascii_eqb at 1.
    rewrite Ascii.eqb_refl. cbn [orb].
    rewrite remove_append, (remove_absent _ _ Hz). cbn [PyStr.remove].
    unfold PyStr.ascii_eqb. rewrite Ascii.eqb_refl, append_empty_r. reflexivity.
Qed.

(** The instant a serialised time denotes. *)
Lemma parse_padded t s tz :
  valid t = true ->
  tz_suffix (VStr s) = Ok tz ->
  parse_datetime (VStr (String.append (padded FMT_SECONDS t) tz))
  = Ok (Some (whole_second t)).
Proof.
  intros Hv Htz. unfold parse_datetime. cbn [truthy].
  rewrite padded_seconds_nonempty. cbn [negb].
  rewrite (strip_timezone_padded t s tz Htz). cbn [rbind try_formats].
  rewrite (strptime_padded t Hv). reflexivity.
Qed.

End FormatFacts.

(** ** The year as the library writes it *)

Module YearFacts.
Import Calendar CalendarFacts DT DTFacts TextFacts FormatFacts.

Lemma decimal_pad y : 1 <= y <= 9999 -> decimal y = pad (year_width y) y.
Proof.
  intros Hy.
  assert (Hall : all_below (Z.to_nat 9999) 1
                   (fun y => String.eqb (decimal y) (pad (year_width y) y)) = true)
    by (vm_compute; reflexivity).
  pose proof (all_below_spec (Z.to_nat 9999) 1 _ Hall y) as H. cbv beta in H.
  rewrite Z2Nat.id in H by lia. specialize (H ltac:(lia)).
  apply String.eqb_eq in H. exact H.
Qed.

Lemma year_width_four y : 1000 <= y -> year_width y = 4%nat.
Proof.
  intros Hy. unfold year_width.
  replace (y <? 10) with false by (symmetry; apply Z.ltb_ge; lia).
  replace (y <? 100) with false by (symmetry; apply Z.ltb_ge; lia).
  replace (y <? 1000) with false by (symmetry; apply Z.ltb_ge; lia). reflexivity.
Qed.

Lemma render_padded_eq d t :
  1000 <= year t <= 9999 -> render d t = render_padded d t.
Proof.
  intros Hy. destruct d; try reflexivity. cbn [render render_padded].
  rewrite decimal_pad by lia. rewrite year_width_four by lia. reflexivity.
Qed.

(** From the year 1000 on the library writes what [strptime] reads. *)
Lemma strftime_padded fmt t :
  1000 <= year t <= 9999 -> strftime fmt t = padded fmt t.
Proof.
  intros Hy. induction fmt as [|d fmt IH]; cbn [strftime padded]; [reflexivity|].
  rewrite IH, (render_padded_eq d t Hy). reflexivity.
Qed.

Lemma valid_year t : valid t = true -> 1 <= year t <= 9999.
Proof. intros (Hd & _)%valid_inv. apply valid_date_inv in Hd. lia. Qed.

(** The instant a serialised time denotes. *)
Lemma parse_serialised t s tz :
  valid t = true -> 1000 <= year t ->
  tz_suffix (VStr s) = Ok tz ->
  parse_datetime (VStr (String.append (strftime FMT_SECONDS t) tz))
  = Ok (Some (whole_second t)).
Proof.
  intros Hv Hy Htz. pose proof (valid_year t Hv).
  rewrite strftime_padded by lia. apply (parse_padded t s tz Hv Htz).
Qed.

(** A later day is not in an earlier year. *)
Lemma year_mono a b :
  valid a = true -> valid b = true -> toordinal a <= toordinal b -> year a <= year b.
Proof.
  intros (Ha & _)%valid_inv (Hb & _)%valid_inv. unfold toordinal, ymd2ord, days_before_month.
  apply valid_date_inv in Ha as (Hya & Hma & Hda).
  apply valid_date_inv in Hb as (Hyb & Hmb & Hdb).
  unfold days_in_month in Hda, Hdb.
  destruct (month_day_inverse (is_leap (year a)) _ _ Hma Hda) as [_ Hia].
  destruct (month_day_inverse (is_leap (year b)) _ _ Hmb Hdb) as [_ Hib].
  pose proof (days_before_month_nonneg (is_leap (year a)) (month a)).
  pose proof (days_before_month_nonneg (is_leap (year b)) (month b)).
  intros Hle. destruct (Z_le_gt_dec (year a) (year b)) as [|Hgt]; [assumption|].
  pose proof (days_before_year_succ (year b)).
  pose proof (days_before_year_mono (year b + 1) (year a) ltac:(lia)). lia.
Qed.

Lemma occurrence_year a b :
  valid a = true -> valid b = true -> toordinal a <= toordinal b ->
  1000 <= year a -> 1000 <= year b.
Proof. intros Ha Hb Hle Hy. pose proof (year_mono a b Ha Hb Hle). lia. Qed.

Lemma year_mono_micros a b :
  valid a = true -> valid b = true -> to_micros a <= to_micros b -> year a <= year b.
Proof.
  intros Ha Hb Hle. apply (year_mono a b Ha Hb).
  destruct (to_micros_split a Ha) as (<- & _ & _).
  destruct (to_micros_split b Hb) as (<- & _ & _).
  apply Z.div_le_mono; [unfold US_PER_DAY, US_PER_SECOND; lia | exact Hle].
Qed.

End YearFacts.

(** ** Durations *)

Module DurationFacts.
Import Calendar DT DTFacts.

Lemma to_micros_whole_second d :
  to_micros (whole_second d) = to_micros d - microsecond d.
Proof.
  unfold to_micros, whole_second, toordinal, seconds_of_day.
  cbn [year month day hour minute second microsecond]. lia.
Qed.

Lemma microsecond_mod d : valid d = true -> to_micros d mod 1000000 = microsecond d.
Proof.
  intros (_ & _ & _ & _ & Hu)%valid_inv. unfold to_micros, US_PER_SECOND.
  rewrite Z.add_comm, Z.mod_add by lia. apply Z.mod_small. exact Hu.
Qed.

(** The serialised span of an occurrence that starts on the master's
    fraction of a second. *)
Lemma serialised_span cur start_dt end_dt instance_end :
  valid cur = true -> valid start_dt = true -> valid end_dt = true ->
  microsecond cur = microsecond start_dt ->
  add cur (sub end_dt start_dt) = Ok instance_end ->
  valid instance_end = true
  /\ sub (whole_second instance_end) (whole_second cur)
     = sub (whole_second end_dt) (whole_second start_dt).
Proof.
  intros Hc Hs He Hus [Hv Ht]%add_Ok. split; [exact Hv|].
  unfold sub in *. rewrite !to_micros_whole_second.
  pose proof (microsecond_mod _ Hc) as Mc. pose proof (microsecond_mod _ Hs) as Ms.
  pose proof (microsecond_mod _ He) as Me. pose proof (microsecond_mod _ Hv) as Mi.
  apply valid_inv in He as (_ & _ & _ & _ & Hue).
  apply valid_inv in Hv as (_ & _ & _ & _ & Hui).
  rewrite Ht in Mi.
  set (tc := to_micros cur) in *. set (ts := to_micros start_dt) in *.
  set (te := to_micros end_dt) in *. set (ti := to_micros instance_end) in *.
  clearbody tc ts te ti.
  Z.div_mod_to_equations. lia.
Qed.

(** Advancing keeps the occurrence valid and on the same fraction. *)
Lemma advance_keeps recurrence cur w next w' :
  valid cur = true ->
  advance recurrence cur w = Some (Ok (Some next), w') ->
  valid next = true /\ microsecond next = microsecond cur.
Proof.
  intros Hc [_ [(k & Hadd) | (y & m & Hrep)]]%AdvanceFacts.advance_next.
  - apply add_Ok in Hadd as [Hv Ht]. split; [exact Hv|].
    rewrite <- (microsecond_mod _ Hv), <- (microsecond_mod _ Hc), Ht.
    unfold timedelta_days, US_PER_DAY, US_PER_SECOND.
    replace (k * (86400 * 1000000)) with ((k * 86400) * 1000000) by lia.
    apply Z.mod_add. lia.
  - unfold replace_year_month in Hrep. apply make_Ok in Hrep as [-> Hv].
    split; [exact Hv | reflexivity].
Qed.

End DurationFacts.

(** ** Searching the raw text *)

Module SourceFacts.
Import TextFacts.

Lemma length_append (a b : string) :
  String.length (String.append a b) = (String.length a + String.length b)%nat.
Proof. induction a as [|x a IH]; step_append; cbn [String.length]; [reflexivity | rewrite IH; lia]. Qed.

Lemma drop_append_length (a b : string) :
  forall n, PyStr.drop (String.length a + n) (String.append a b) = PyStr.drop n b.
Proof. induction a as [|x a IH]; intros n; step_append; cbn; [reflexivity | apply IH]. Qed.

Lemma take_append_length (a b : string) :
  PyStr.take (String.length a) (String.append a b) = a.
Proof. induction a as [|x a IH]; step_append; cbn; [destruct b; reflexivity | rewrite IH; reflexivity]. Qed.

Lemma startswith_append p a b :
  PyStr.startswith p a = true -> PyStr.startswith p (String.append a b) = true.
Proof.
  revert a. induction p as [|x p IH]; intros a; [reflexivity|].
  destruct a as [|y a]; step_append; cbn [PyStr.startswith]; [discriminate|].
  intros [H1 H2]%andb_true_iff. rewrite H1. cbn [andb]. apply IH. exact H2.
Qed.

(** A pattern without the character [c] cannot reach over an occurrence
    of [c]. *)
Lemma startswith_across p a c s :
  PyStr.contains c p = false ->
  PyStr.startswith p (String.append a (String c s)) = PyStr.startswith p a.
Proof.
  revert a. induction p as [|x p IH]; intros a Hc; [destruct a; reflexivity|].
  cbn [PyStr.contains] in Hc. apply orb_false_iff in Hc as [Hx Hp].
  destruct a as [|y a]; step_append; cbn [PyStr.startswith].
  - rewrite Hx. reflexivity.
  - rewrite (IH a Hp). reflexivity.
Qed.

Lemma find_across p a c s :
  PyStr.contains c p = false -> p <> EmptyString ->
  find p (String.append a (String c s))
  = match find p a with
    | Some q => Some q
    | None => (fun n => (String.length a + 1 + n)%nat) <$> find p s
    end.
Proof.
  intros Hc Hp. induction a as [|y a IH].
  - step_append. cbn [find].
    destruct p as [|x p]; [congruence|].
    cbn [PyStr.contains] in Hc. apply orb_false_iff in Hc as [Hx _].
    cbn [PyStr.startswith]. rewrite Hx. cbn [andb String.length].
    destruct (find (String x p) s); reflexivity.
  - step_append. cbn [find].
    rewrite <- append_cons, (startswith_across p (String y a) c s Hc).
    destruct (PyStr.startswith p (String y a)); [reflexivity|].
    rewrite IH. destruct (find p a); [reflexivity|].
    cbn [String.length]. destruct (find p s); reflexivity.
Qed.

Lemma startswith_length p s :
  PyStr.startswith p s = true -> (String.length p <= String.length s)%nat.
Proof.
  revert s. induction p as [|x p IH]; intros s; cbn [String.length]; [lia|].
  destruct s as [|y s]; cbn [PyStr.startswith String.length]; [discriminate|].
  intros [_ H]%andb_true_iff. apply IH in H. lia.
Qed.

Lemma find_Some_length p s q :
  find p s = Some q -> (q + String.length p <= String.length s)%nat.
Proof.
  revert q. induction s as [|y s IH]; intros q; cbn [find].
  - destruct (PyStr.startswith p EmptyString) eqn:Hs; [|discriminate].
    intros H. injection H as <-. apply startswith_length in Hs. lia.
  - destruct (PyStr.startswith p (String y s)) eqn:Hs.
    + intros H. injection H as <-. apply startswith_length in Hs. lia.
    + destruct (find p s) as [n|]; [|discriminate].
      intros H. injection H as <-. specialize (IH n eq_refl). cbn [String.length]. lia.
Qed.

(** Inside a text without [c], nothing that begins with [c] starts. *)
Lemma startswith_inside c p body rest :
  PyStr.contains c body = false ->
  forall j, (j < String.length body)%nat ->
  PyStr.startswith (String c p) (String.append (PyStr.drop j body) rest) = false.
Proof.
  induction body as [|y body IH]; intros Hc j Hj; cbn [String.length] in Hj; [lia|].
  cbn [PyStr.contains] in Hc. apply orb_false_iff in Hc as [Hy Hb].
  destruct j as [|j]; cbn [PyStr.drop].
  - step_append. cbn [PyStr.startswith]. unfold PyStr.ascii_eqb in *.
    rewrite Ascii.eqb_sym, Hy. reflexivity.
  - apply IH; [exact Hb | lia].
Qed.

Lemma drop_append_inside (a b : string) :
  forall j, (j <= String.length a)%nat ->
  PyStr.drop j (String.append a b) = String.append (PyStr.drop j a) b.
Proof.
  induction a as [|x a IH]; intros j Hj; cbn [String.length] in Hj.
  - replace j with O by lia. reflexivity.
  - destruct j as [|j]; [reflexivity|]. step_append. cbn [PyStr.drop]. apply IH. lia.
Qed.

(** Searching backwards from [lo + k] stops at [lo] when nothing matches
    in between. *)
Lemma rfind_from_stop sub s lo :
  PyStr.startswith sub (PyStr.drop lo s) = true ->
  forall k,
    (forall j, (j < k)%nat -> PyStr.startswith sub (PyStr.drop (lo + 1 + j) s) = false) ->
    rfind_from sub s (lo + k) = Z.of_nat lo.
Proof.
  intros Hlo. induction k as [|k IH]; intros Hno.
  - rewrite Nat.add_0_r. destruct lo; cbn [rfind_from]; rewrite Hlo; reflexivity.
  - replace (lo + S k)%nat with (S (lo + k)) by lia. cbn [rfind_from].
    replace (S (lo + k)) with (lo + 1 + k)%nat by lia.
    rewrite (Hno k) by lia. apply IH. intros j Hj. apply Hno. lia.
Qed.

(** The bracket count returns to zero at the first closing bracket after
    a text without brackets. *)
Lemma scan_brackets_flat body post :
  PyStr.contains "[" body = false -> PyStr.contains "]" body = false ->
  forall i,
    scan_brackets (String.append body (String "]" post)) 1 i
    = (i + String.length body + 1)%nat.
Proof.
  induction body as [|y body IH]; intros Ho Hc i.
  - step_append. change (scan_brackets (String "]" post) 1 i) with (S i).
    cbn [String.length]. lia.
  - cbn [PyStr.contains] in Ho, Hc.
    apply orb_false_iff in Ho as [Hy1 Ho]. apply orb_false_iff in Hc as [Hy2 Hc].
    step_append. cbn [scan_brackets]. rewrite Hy1, Hy2.
    rewrite (IH Ho Hc). cbn [String.length]. lia.
Qed.

Lemma boundary_facts :
  PyStr.contains "[" BOUNDARY = false /\ PyStr.contains "]" BOUNDARY = false
  /\ BOUNDARY <> EmptyString /\ String.length BOUNDARY = 11%nat
  /\ ARRAY_START = String "[" TITLE_KEY /\ String.length ARRAY_START = 10%nat.
Proof. repeat split; try reflexivity. discriminate. Qed.

(** The text cut out of markup around an array of title-led entries. *)
Lemma extract_text_embedded (pre body post : string) (q : nat) :
  PyStr.contains "[" body = false ->
  PyStr.contains "]" body = false ->
  PyStr.startswith TITLE_KEY body = true ->
  find BOUNDARY body = Some q ->
  find BOUNDARY pre = None ->
  PyStr.startswith "["
    (PyStr.strip (String.append pre (String "[" (String.append body (String "]" post)))))
  = false ->
  extract_text (String.append pre (String "[" (String.append body (String "]" post))))
  = Ok (String "[" (String.append body "]")).
Proof.
  intros Ho Hc Htitle Hq Hpre Hstrip.
  destruct boundary_facts as (Bo & Bc & Bne & Blen & Astart & Alen).
  set (rest := String "]" post) in *.
  set (content := String.append pre (String "[" (String.append body rest))) in *.
  pose proof (find_Some_length _ _ _ Hq) as Hqlen. rewrite Blen in Hqlen.
  assert (Hfind : find BOUNDARY content = Some (String.length pre + 1 + q)%nat).
  { unfold content. rewrite (find_across BOUNDARY pre "[" _ Bo Bne), Hpre.
    unfold rest. rewrite (find_across BOUNDARY body "]" post Bc Bne), Hq. reflexivity. }
  assert (Hlen : String.length content
                 = (String.length pre + S (String.length body + S (String.length post)))%nat).
  { unfold content, rest. rewrite length_append. cbn [String.length].
    rewrite length_append. reflexivity. }
  assert (Hdrop : forall n, PyStr.drop (String.length pre + n) content
                            = PyStr.drop n (String "[" (String.append body rest))).
  { intros n. unfold content. apply drop_append_length. }
  assert (Hrfind : rfind ARRAY_START content (String.length pre + 1 + q + 10)
                   = Z.of_nat (String.length pre)).
  { unfold rfind. rewrite Nat.min_l by lia. rewrite Alen.
    replace (10 <=? String.length pre + 1 + q + 10)%nat with true
      by (symmetry; apply Nat.leb_le; lia).
    replace (String.length pre + 1 + q + 10 - 10)%nat with (String.length pre + (1 + q))%nat
      by lia.
    apply rfind_from_stop.
    - rewrite <- (Nat.add_0_r (String.length pre)), Hdrop. cbn [PyStr.drop].
      rewrite Astart. cbn [PyStr.startswith]. unfold PyStr.ascii_eqb at 1.
      rewrite Ascii.eqb_refl. cbn [andb]. apply startswith_append. exact Htitle.
    - intros j Hj.
      replace (String.length pre + 1 + j)%nat with (String.length pre + S j)%nat by lia.
      rewrite Hdrop. cbn [PyStr.drop]. rewrite drop_append_inside by lia.
      rewrite Astart. apply startswith_inside; [exact Ho | lia]. }
  unfold extract_text. fold content. rewrite Hstrip, Hfind, Hrfind.
  replace (Z.of_nat (String.length pre) =? -1) with false by (symmetry; apply Z.eqb_neq; lia).
  unfold slice_from.
  replace (Z.of_nat (String.length pre) <? 0) with false by (symmetry; apply Z.ltb_ge; lia).
  rewrite Nat2Z.id, <- (Nat.add_0_r (String.length pre)), Hdrop. cbn [PyStr.drop].
  cbn [scan_brackets]. unfold PyStr.ascii_eqb at 1. rewrite Ascii.eqb_refl.
  unfold rest. rewrite (scan_brackets_flat body post Ho Hc). cbn [Z.add Pos.add].
  replace (1 + String.length body + 1)%nat with (S (String.length body + 1)) by lia.
  cbn [PyStr.take]. do 2 f_equal.
  change (String "]" post) with (String.append "]" post).
  rewrite <- append_assoc.
  replace (String.length body + 1)%nat with (String.length (String.append body "]"))
    by (rewrite length_append; reflexivity).
  apply take_append_length.
Qed.

End SourceFacts.

(** ** When nothing is returned *)

(** ** Arrays that hold arrays *)

Module NestedFacts.
Import TextFacts SourceFacts.

Lemma scan_brackets_balanced b : forall k d i rest,
  balanced_from b k = true -> Z.of_nat k < d ->
  scan_brackets (String.append b rest) d i
  = scan_brackets rest (d - Z.of_nat k) (i + String.length b).
Proof.
  induction b as [|c b IH]; intros k d i rest Hb Hd.
  - cbn [balanced_from] in Hb. apply Nat.eqb_eq in Hb as ->.
    step_append. cbn [String.length]. rewrite Z.sub_0_r, Nat.add_0_r. reflexivity.
  - step_append. cbn [balanced_from] in Hb. cbn [scan_brackets String.length].
    destruct (PyStr.ascii_eqb c "[").
    + rewrite (IH (S k) (d + 1) (S i) rest Hb) by lia. f_equal; lia.
    + destruct (PyStr.ascii_eqb c "]").
      * destruct k as [|k]; [discriminate|].
        replace (d - 1 =? 0) with false by (symmetry; apply Z.eqb_neq; lia).
        rewrite (IH k (d - 1) (S i) rest Hb) by lia. f_equal; lia.
      * rewrite (IH k d (S i) rest Hb) by lia. f_equal; lia.
Qed.

Lemma startswith_append_long p : forall a b,
  (String.length p <= String.length a)%nat ->
  PyStr.startswith p (String.append a b) = PyStr.startswith p a.
Proof.
  induction p as [|x p IH]; intros a b Hl; [destruct a; reflexivity|].
  destruct a as [|y a]; cbn [String.length] in Hl; [lia|].
  step_append. cbn [PyStr.startswith]. rewrite IH by lia. reflexivity.
Qed.

Lemma find_append_found p a b : forall q,
  find p a = Some q -> find p (String.append a b) = Some q.
Proof.
  induction a as [|y a IH]; intros q Hq.
  - cbn [find] in Hq. destruct (PyStr.startswith p EmptyString) eqn:Hs; [|discriminate].
    injection Hq as <-. destruct p; [|discriminate]. step_append. destruct b; reflexivity.
  - pose proof (find_Some_length _ _ _ Hq) as Hlen.
    cbn [find] in Hq. step_append. cbn [find]. rewrite <- append_cons.
    destruct (PyStr.startswith p (String y a)) eqn:Hs.
    + injection Hq as <-. rewrite (startswith_append _ _ b Hs). reflexivity.
    + rewrite startswith_append_long, Hs by lia.
      destruct (find p a) as [n|] eqn:Hn; [|discriminate]. injection Hq as <-.
      rewrite (IH n eq_refl). reflexivity.
Qed.

Lemma find_None_drop p s :
  find p s = None -> forall j, PyStr.startswith p (PyStr.drop j s) = false.
Proof.
  induction s as [|y s IH]; intros Hn j; cbn [find] in Hn.
  - destruct (PyStr.startswith p EmptyString) eqn:Hs; [discriminate|].
    destruct j; exact Hs.
  - destruct (PyStr.startswith p (String y s)) eqn:Hs; [discriminate|].
    destruct (find p s) eqn:Hf; [discriminate|].
    destruct j as [|j]; cbn [PyStr.drop]; [exact Hs | apply IH; reflexivity].
Qed.

Lemma length_drop s : forall j, String.length (PyStr.drop j s) = (String.length s - j)%nat.
Proof.
  induction s as [|y s IH]; intros [|j]; cbn [PyStr.drop String.length]; try reflexivity.
  apply IH.
Qed.

Lemma take_drop s : forall n j,
  PyStr.drop j (PyStr.take (j + n) s) = PyStr.take n (PyStr.drop j s).
Proof.
  induction s as [|y s IH]; intros n [|j]; cbn [PyStr.take PyStr.drop Nat.add]; try reflexivity.
  - destruct n; reflexivity.
  - apply IH.
Qed.

Lemma startswith_take p : forall s n,
  (String.length p <= n)%nat ->
  PyStr.startswith p (PyStr.take n s) = PyStr.startswith p s.
Proof.
  induction p as [|x p IH]; intros s n Hn; [reflexivity|].
  cbn [String.length] in Hn. destruct n as [|n]; [lia|].
  destruct s as [|y s]; [reflexivity|]. cbn [PyStr.take PyStr.startswith].
  rewrite IH by lia. reflexivity.
Qed.

(** A pattern absent from the first [n] characters starts nowhere that
    would end within them. *)
Lemma find_None_window p s n :
  find p (PyStr.take n s) = None ->
  forall j, (j + String.length p <= n)%nat -> PyStr.startswith p (PyStr.drop j s) = false.
Proof.
  intros Hn j Hj. pose proof (find_None_drop _ _ Hn j) as H.
  replace n with (j + (n - j))%nat in H by lia.
  rewrite take_drop, startswith_take in H by lia. exact H.
Qed.

Lemma entry_start_facts :
  ENTRY_START = String "," TITLE_KEY /\ String.length ENTRY_START = 10%nat.
Proof. split; reflexivity. Qed.

(** The text cut out of markup around an array whose entries hold arrays
    of their own. *)
Lemma extract_text_nested (pre body post : string) (q : nat) :
  balanced body = true ->
  PyStr.startswith TITLE_KEY body = true ->
  find BOUNDARY body = Some q ->
  find ARRAY_START (PyStr.take (q + 10) body) = None ->
  find BOUNDARY pre = None ->
  PyStr.startswith "["
    (PyStr.strip (String.append pre (String "[" (String.append body (String "]" post)))))
  = false ->
  extract_text (String.append pre (String "[" (String.append body (String "]" post))))
  = Ok (String "[" (String.append body "]")).
Proof.
  intros Hbal Htitle Hq Hno Hpre Hstrip.
  destruct boundary_facts as (Bo & Bc & Bne & Blen & Astart & Alen).
  set (rest := String "]" post) in *.
  set (content := String.append pre (String "[" (String.append body rest))) in *.
  pose proof (find_Some_length _ _ _ Hq) as Hqlen. rewrite Blen in Hqlen.
  assert (Hfind : find BOUNDARY content = Some (String.length pre + 1 + q)%nat).
  { unfold content. rewrite (find_across BOUNDARY pre "[" _ Bo Bne), Hpre.
    rewrite (find_append_found BOUNDARY body rest q Hq). reflexivity. }
  assert (Hlen : String.length content
                 = (String.length pre + S (String.length body + S (String.length post)))%nat).
  { unfold content, rest. rewrite length_append. cbn [String.length].
    rewrite length_append. reflexivity. }
  assert (Hdrop : forall n, PyStr.drop (String.length pre + n) content
                            = PyStr.drop n (String "[" (String.append body rest))).
  { intros n. unfold content. apply drop_append_length. }
  assert (Hrfind : rfind ARRAY_START content (String.length pre + 1 + q + 10)
                   = Z.of_nat (String.length pre)).
  { unfold rfind. rewrite Nat.min_l by lia. rewrite Alen.
    replace (10 <=? String.length pre + 1 + q + 10)%nat with true
      by (symmetry; apply Nat.leb_le; lia).
    replace (String.length pre + 1 + q + 10 - 10)%nat with (String.length pre + (1 + q))%nat
      by lia.
    apply rfind_from_stop.
    - rewrite <- (Nat.add_0_r (String.length pre)), Hdrop. cbn [PyStr.drop].
      rewrite Astart. cbn [PyStr.startswith]. unfold PyStr.ascii_eqb at 1.
      rewrite Ascii.eqb_refl. cbn [andb]. apply startswith_append. exact Htitle.
    - intros j Hj.
      replace (String.length pre + 1 + j)%nat with (String.length pre + S j)%nat by lia.
      rewrite Hdrop. cbn [PyStr.drop]. rewrite drop_append_inside by lia.
      rewrite startswith_append_long by (rewrite length_drop, Alen; lia).
      apply (find_None_window _ _ _ Hno). rewrite Alen. lia. }
  unfold extract_text. fold content. rewrite Hstrip, Hfind, Hrfind.
  replace (Z.of_nat (String.length pre) =? -1) with false by (symmetry; apply Z.eqb_neq; lia).
  unfold slice_from.
  replace (Z.of_nat (String.length pre) <? 0) with false by (symmetry; apply Z.ltb_ge; lia).
  rewrite Nat2Z.id, <- (Nat.add_0_r (String.length pre)), Hdrop. cbn [PyStr.drop].
  cbn [scan_brackets]. unfold PyStr.ascii_eqb at 1. rewrite Ascii.eqb_refl.
  rewrite (scan_brackets_balanced body 0 (0 + 1) 1 rest Hbal) by lia.
  unfold rest. change (0 + 1 - Z.of_nat 0) with 1.
  change (scan_brackets (String "]" post) 1 (1 + String.length body))
    with (S (1 + String.length body)).
  replace (S (1 + String.length body))%nat with (S (String.length body + 1)) by lia.
  cbn [PyStr.take]. do 2 f_equal.
  change (String "]" post) with (String.append "]" post).
  rewrite <- append_assoc.
  replace (String.length body + 1)%nat with (String.length (String.append body "]"))
    by (rewrite length_append; reflexivity).
  apply take_append_length.
Qed.

Lemma scan_brackets_short s :
  (String.length s <= 1)%nat -> scan_brackets s 0 0 = O.
Proof.
  destruct s as [|c [|c' s]]; cbn [String.length]; intros H; [reflexivity | | lia].
  cbn [scan_brackets]. destruct (PyStr.ascii_eqb c "["); [reflexivity|].
  destruct (PyStr.ascii_eqb c "]"); reflexivity.
Qed.

(** With the pattern between two entries in the text and no start of an
    array or of an entry before it, the text cut out is empty. *)
Lemma extract_text_no_start content p :
  PyStr.startswith "[" (PyStr.strip content) = false ->
  find BOUNDARY content = Some p ->
  rfind ARRAY_START content (p + 10) = -1 ->
  rfind ENTRY_START content (p + 10) = -1 ->
  extract_text content = Ok EmptyString.
Proof.
  intros Hstrip Hfind Ha He. unfold extract_text. rewrite Hstrip, Hfind, Ha, He.
  cbn [Z.eqb negb Pos.eqb]. unfold slice_from. cbn [Z.ltb Z.compare].
  rewrite scan_brackets_short; [destruct (PyStr.drop _ _); reflexivity|].
  rewrite length_drop. lia.
Qed.

End NestedFacts.

Module EmptyFacts.
Import MonadFacts GenerateFacts IterationFacts.

(** The expander returns the empty sequence only from the loop, when the
    parsed start is after the parsed end of the recurrence. *)
Lemma empty_only_when_start_after_end u (master : event) w w' :
  generate_recurring_instances u master w = Some (Ok [], w') ->
  exists start_dt recurrence_end,
    instant_of master "startTime" = Some start_dt
    /\ instant_of master "recurrenceEndDate" = Some recurrence_end
    /\ DT.le start_dt recurrence_end = false.
Proof.
  unfold generate_recurring_instances. intros H.
  apply bind_Ok in H as (recurrence & w1 & _ & H).
  destruct (_ || _); [apply ret_Ok in H as [? _]; discriminate|].
  destruct (negb _); [apply print_then_ret in H as [? _]; discriminate|].
  apply catch_Ok in H as [H | (e & w2 & _ & H)];
    [|apply print_with_then_ret in H as [? _]; discriminate].
  apply expand_body_inv in H as (sd & ed & rd & w2 & Hs & _ & Hr & Hit & _).
  exists sd, rd. unfold instant_of. rewrite Hs, Hr.
  split; [reflexivity|]. split; [reflexivity|].
  inversion Hit as [cur count w0 Hc | |]; subst.
  change (0 <? MAX_INSTANCES)%nat with true in Hc. rewrite andb_true_r in Hc. exact Hc.
Qed.

End EmptyFacts.

(** ** Outcomes of the expander and of the batch processor *)
Module OutcomeFacts.
Import MonadFacts LoopFacts GenerateFacts IterationFacts ForwardFacts.

Lemma print_with_ret_yes {A : Type} (more : list string) (l : line) (x : A) w :
  forallb PyStr.encodable (interpolated l ++ more) = true ->
  (print_with more l ;;; ret x) w = Some (Ok x, mk_world (draws w) (out w ++ [l])).
Proof. intros H. unfold bind. rewrite print_with_encodable by exact H. reflexivity. Qed.

Lemma print_with_ret_no {A : Type} (more : list string) (l : line) (x : A) w :
  forallb PyStr.encodable (interpolated l ++ more) = false ->
  (print_with more l ;;; ret x) w = Some (Raise UnicodeEncodeError, w).
Proof. intros H. unfold bind. rewrite print_with_raise by exact H. reflexivity. Qed.

(** What [str(e)] quotes is one of the date texts that are not read. *)
Lemma quoted_unread e dates :
  forallb PyStr.encodable (omap unread dates) = true ->
  forallb PyStr.encodable (quoted e dates) = true.
Proof.
  unfold quoted. destruct e; try reflexivity.
  destruct (omap unread dates) as [|s' rest]; [reflexivity|].
  cbn [forallb]. intros [H _]%andb_true_iff. rewrite H. reflexivity.
Qed.

Lemma printable_title (master : event) :
  printable master = true ->
  PyStr.encodable (py_str (get master "title" (VStr "Unknown"))) = true.
Proof. unfold printable. intros [H _]%andb_true_iff. exact H. Qed.

Lemma printable_error (master : event) e :
  printable master = true ->
  forallb PyStr.encodable
    (interpolated (LError (get master "title" (VStr "Unknown")))
     ++ quoted e [get master "startTime" (VStr EmptyString);
                  get master "endTime" (VStr EmptyString);
                  get master "recurrenceEndDate" (VStr EmptyString)]) = true.
Proof.
  unfold printable. intros [Ht Hd]%andb_true_iff.
  cbn [interpolated app forallb]. rewrite Ht. cbn [andb]. apply quoted_unread. exact Hd.
Qed.

(** The expander lets out two exceptions only: AttributeError, when the
    recurrence is there and is not text, before it has touched anything;
    and UnicodeEncodeError, when it cannot print about the record. *)
Lemma generate_outcome u (master : event) w :
  match get master "recurrence" (VStr EmptyString) with
  | VStr _ =>
      (exists l w', generate_recurring_instances u master w = Some (Ok l, w'))
      \/ (printable master = false
          /\ exists w', generate_recurring_instances u master w
                        = Some (Raise UnicodeEncodeError, w'))
  | _ => generate_recurring_instances u master w = Some (Raise AttributeError, w)
  end.
Proof.
  destruct (get master "recurrence" (VStr EmptyString)) as [| | |s| |] eqn:Hrec;
    try (unfold generate_recurring_instances; rewrite Hrec; reflexivity).
  unfold generate_recurring_instances. rewrite Hrec. cbn [str_lower].
  rewrite ForwardFacts.bind_lift_Ok.
  destruct (_ || _); [left; eexists _, _; reflexivity|].
  destruct (truthy (get master "startTime" _) && _ && _); cbn [negb].
  - unfold catch.
    destruct (expand_body_total u master (PyStr.lower s)
                (get master "startTime" (VStr EmptyString))
                (get master "endTime" (VStr EmptyString))
                (get master "recurrenceEndDate" (VStr EmptyString)) w) as [[[l|e] w1] ->];
      [left; eauto|].
    destruct (forallb PyStr.encodable
                (interpolated (LError (get master "title" (VStr "Unknown")))
                 ++ quoted e [get master "startTime" (VStr EmptyString);
                              get master "endTime" (VStr EmptyString);
                              get master "recurrenceEndDate" (VStr EmptyString)])) eqn:Hp.
    + rewrite (print_with_ret_yes _ _ _ _ Hp). left. eauto.
    + rewrite (print_with_ret_no _ _ _ _ Hp). right. split; [|eauto].
      destruct (printable master) eqn:Hpr; [|reflexivity].
      rewrite (printable_error master e Hpr) in Hp. discriminate.
  - destruct (forallb PyStr.encodable
                (interpolated (LSkipping (get master "title" (VStr "Unknown"))) ++ [])) eqn:Hp.
    + unfold print. rewrite (print_with_ret_yes _ _ _ _ Hp). left. eauto.
    + unfold print. rewrite (print_with_ret_no _ _ _ _ Hp). right. split; [|eauto].
      destruct (printable master) eqn:Hpr; [|reflexivity].
      apply printable_title in Hpr. cbn [interpolated app forallb] in Hp.
      rewrite Hpr in Hp. discriminate.
Qed.

(** A record the expander can print about is returned or expanded. *)
Lemma generate_returns u (master : event) w s :
  get master "recurrence" (VStr EmptyString) = VStr s ->
  printable master = true ->
  exists l w', generate_recurring_instances u master w = Some (Ok l, w').
Proof.
  intros Hrec Hp. pose proof (generate_outcome u master w) as H. rewrite Hrec in H.
  destruct H as [H | [Hn _]]; [exact H | congruence].
Qed.

(** What is returned is the master alone or the instances of a completed
    expansion. *)
Lemma generate_master_or_expanded u (master : event) w l w' :
  generate_recurring_instances u master w = Some (Ok l, w') ->
  l = [master] \/ expanded u master w l w'.
Proof.
  unfold generate_recurring_instances. intros H.
  apply bind_Ok in H as (recurrence & w1 & [Hrec ->]%lift_Ok & H).
  destruct (String.eqb recurrence "none" || negb (truthy (VStr recurrence))) eqn:Hc.
  { apply ret_Ok in H as [-> _]. left. reflexivity. }
  destruct (truthy (get master "startTime" _) && _ && _); cbn [negb] in H;
    [|apply print_then_ret in H as [-> _]; left; reflexivity].
  apply catch_Ok in H as [H | (e & w2 & _ & H)].
  - right. exists recurrence. apply orb_false_iff in Hc as [Hn He].
    cbn [truthy] in He. apply negb_false_iff in He. apply negb_true_iff in He.
    repeat split; assumption.
  - apply print_with_then_ret in H as [-> _]. left. reflexivity.
Qed.

End OutcomeFacts.

(** ** What can be printed *)

Module PrintFacts.
Import MonadFacts TextFacts OutcomeFacts.

Lemma unread_parsed v d : parse_datetime v = Ok d -> unread v = None.
Proof.
  unfold parse_datetime, unread. destruct v; try reflexivity.
  destruct (negb (truthy (VStr s))); [reflexivity|].
  destruct (strip_timezone s) as [s'|]; cbn [rbind]; [|discriminate].
  destruct (try_formats s' _); cbn [rbind]; [reflexivity | discriminate].
Qed.

(** When the three dates parse, no message quotes them. *)
Lemma quoted_parsed e a b c da db dc :
  parse_datetime a = Ok da -> parse_datetime b = Ok db -> parse_datetime c = Ok dc ->
  quoted e [a; b; c] = [].
Proof.
  intros Ha Hb Hc. unfold quoted. destruct e; try reflexivity.
  cbn [omap list_omap]. rewrite (unread_parsed a da Ha), (unread_parsed b db Hb),
    (unread_parsed c dc Hc). reflexivity.
Qed.

Lemma split_head_ascii c s : forall p ps,
  PyStr.is_ascii s = true -> PyStr.split c s = p :: ps -> PyStr.is_ascii p = true.
Proof.
  induction s as [|a s IH]; intros p ps Hs; cbn [PyStr.split].
  - intros H. injection H as <- _. reflexivity.
  - cbn [PyStr.is_ascii] in Hs. apply andb_true_iff in Hs as [Ha Hs].
    destruct (PyStr.ascii_eqb a c); [intros H; injection H as <- _; reflexivity|].
    destruct (PyStr.split c s) as [|q qs] eqn:Hq.
    + intros H. injection H as <- _. cbn [PyStr.is_ascii]. rewrite Ha. reflexivity.
    + intros H. injection H as <- _. cbn [PyStr.is_ascii]. rewrite Ha.
      apply (IH q qs Hs eq_refl).
Qed.

Lemma remove_ascii c s : PyStr.is_ascii s = true -> PyStr.is_ascii (PyStr.remove c s) = true.
Proof.
  induction s as [|a s IH]; cbn [PyStr.is_ascii PyStr.remove]; [trivial|].
  intros [Ha Hs]%andb_true_iff. destruct (PyStr.ascii_eqb a c); [exact (IH Hs)|].
  cbn [PyStr.is_ascii]. rewrite Ha. exact (IH Hs).
Qed.

Lemma strip_timezone_ascii s s' :
  PyStr.is_ascii s = true -> strip_timezone s = Ok s' -> PyStr.is_ascii s' = true.
Proof.
  intros Hs. unfold strip_timezone. destruct (PyStr.contains "+" s).
  - unfold index. destruct (PyStr.split "+" s) as [|p ps] eqn:Hsp; cbn; [discriminate|].
    intros H. injection H as <-. exact (split_head_ascii _ _ _ _ Hs Hsp).
  - destruct (PyStr.contains "Z" s); intros H; injection H as <-;
      [apply remove_ascii|]; exact Hs.
Qed.

Lemma unread_plain v s' :
  plain_value v = true -> unread v = Some s' -> PyStr.encodable s' = true.
Proof.
  unfold unread. destruct v; try discriminate. cbn [plain_value]. intros Hs.
  destruct (negb _); [discriminate|].
  destruct (strip_timezone s) as [t|] eqn:Ht; [|discriminate].
  destruct (try_formats t _) as [|[]]; try discriminate.
  intros H. injection H as <-. apply ascii_encodable. exact (strip_timezone_ascii s t Hs Ht).
Qed.

(** A record with a title that can be encoded and dates that are ASCII
    text, or not text, can be printed about. *)
Lemma printable_plain (master : event) :
  PyStr.encodable (py_str (get master "title" (VStr "Unknown"))) = true ->
  plain_value (get master "startTime" (VStr EmptyString)) = true ->
  plain_value (get master "endTime" (VStr EmptyString)) = true ->
  plain_value (get master "recurrenceEndDate" (VStr EmptyString)) = true ->
  printable master = true.
Proof.
  intros Ht Ha Hb Hc. unfold printable. rewrite Ht. cbn [andb omap list_omap].
  pose proof (fun s' => unread_plain _ s' Ha) as Pa.
  pose proof (fun s' => unread_plain _ s' Hb) as Pb.
  pose proof (fun s' => unread_plain _ s' Hc) as Pc.
  destruct (unread (get master "startTime" _)) as [x|];
    destruct (unread (get master "endTime" _)) as [y|];
    destruct (unread (get master "recurrenceEndDate" _)) as [z|]; cbn [forallb];
    rewrite ?(Pa _ eq_refl), ?(Pb _ eq_refl), ?(Pc _ eq_refl); reflexivity.
Qed.

(** A record whose dates parse can be printed about when its title can. *)
Lemma printable_parsed (master : event) da db dc :
  PyStr.encodable (py_str (get master "title" (VStr "Unknown"))) = true ->
  parse_datetime (get master "startTime" (VStr EmptyString)) = Ok da ->
  parse_datetime (get master "endTime" (VStr EmptyString)) = Ok db ->
  parse_datetime (get master "recurrenceEndDate" (VStr EmptyString)) = Ok dc ->
  printable master = true.
Proof.
  intros Ht Ha Hb Hc. unfold printable. rewrite Ht. cbn [andb omap list_omap].
  rewrite (unread_parsed _ _ Ha), (unread_parsed _ _ Hb), (unread_parsed _ _ Hc). reflexivity.
Qed.

End PrintFacts.

Module BatchFacts.
Import MonadFacts LoopFacts GenerateFacts IterationFacts ForwardFacts.
Import OutcomeFacts.

Lemma generate_skips_missing u (master : event) w recurrence :
  str_lower (get master "recurrence" (VStr EmptyString)) = Ok recurrence ->
  String.eqb recurrence "none" = false ->
  String.eqb recurrence EmptyString = false ->
  truthy (get master "startTime" (VStr EmptyString))
  && truthy (get master "endTime" (VStr EmptyString))
  && truthy (get master "recurrenceEndDate" (VStr EmptyString)) = false ->
  PyStr.encodable (py_str (get master "title" (VStr "Unknown"))) = true ->
  generate_recurring_instances u master w
  = Some (Ok [master],
          mk_world (draws w) (out w ++ [LSkipping (get master "title" (VStr "Unknown"))])).
Proof.
  intros Hrec Hn He Hf Ht. unfold generate_recurring_instances.
  rewrite Hrec, ForwardFacts.bind_lift_Ok. cbn [truthy]. rewrite Hn, He, Hf. cbn [orb negb].
  unfold print. apply print_with_ret_yes. cbn [interpolated app forallb]. rewrite Ht. reflexivity.
Qed.

(** With a missing field and a title that cannot be encoded the warning
    cannot be printed, and the exception leaves the expander. *)
Lemma generate_skip_unprintable u (master : event) w recurrence :
  str_lower (get master "recurrence" (VStr EmptyString)) = Ok recurrence ->
  String.eqb recurrence "none" = false ->
  String.eqb recurrence EmptyString = false ->
  truthy (get master "startTime" (VStr EmptyString))
  && truthy (get master "endTime" (VStr EmptyString))
  && truthy (get master "recurrenceEndDate" (VStr EmptyString)) = false ->
  PyStr.encodable (py_str (get master "title" (VStr "Unknown"))) = false ->
  generate_recurring_instances u master w = Some (Raise UnicodeEncodeError, w).
Proof.
  intros Hrec Hn He Hf Ht. unfold generate_recurring_instances.
  rewrite Hrec, ForwardFacts.bind_lift_Ok. cbn [truthy]. rewrite Hn, He, Hf. cbn [orb negb].
  unfold print. apply print_with_ret_no. cbn [interpolated app forallb]. rewrite Ht. reflexivity.
Qed.

Lemma expand_body_parse_error u (master : event) recurrence s e r w :
  (exists x, parse_datetime s = Raise x) \/ (exists x, parse_datetime e = Raise x)
  \/ (exists x, parse_datetime r = Raise x) ->
  exists x, expand_body u master recurrence s e r w = Some (Raise x, w).
Proof.
  intros H. unfold expand_body, bind, lift.
  destruct (parse_datetime s) as [os|xs]; [|eauto].
  destruct (parse_datetime e) as [oe|xe]; [|eauto].
  destruct (parse_datetime r) as [or|xr]; [|eauto].
  destruct H as [(x & H) | [(x & H) | (x & H)]]; discriminate.
Qed.

Lemma generate_passes_unparseable u (master : event) w recurrence :
  str_lower (get master "recurrence" (VStr EmptyString)) = Ok recurrence ->
  String.eqb recurrence "none" = false ->
  String.eqb recurrence EmptyString = false ->
  truthy (get master "startTime" (VStr EmptyString))
  && truthy (get master "endTime" (VStr EmptyString))
  && truthy (get master "recurrenceEndDate" (VStr EmptyString)) = true ->
  (exists x, parse_datetime (get master "startTime" (VStr EmptyString)) = Raise x)
  \/ (exists x, parse_datetime (get master "endTime" (VStr EmptyString)) = Raise x)
  \/ (exists x, parse_datetime (get master "recurrenceEndDate" (VStr EmptyString)) = Raise x) ->
  printable master = true ->
  generate_recurring_instances u master w
  = Some (Ok [master],
          mk_world (draws w) (out w ++ [LError (get master "title" (VStr "Unknown"))])).
Proof.
  intros Hrec Hn He Hf Hp Hpr. unfold generate_recurring_instances.
  rewrite Hrec, ForwardFacts.bind_lift_Ok. cbn [truthy]. rewrite Hn, He, Hf. cbn [orb negb].
  destruct (expand_body_parse_error u master recurrence _ _ _ w Hp) as (x & Hx).
  unfold catch. rewrite Hx. apply print_with_ret_yes. apply printable_error. exact Hpr.
Qed.

(** The loop over a concatenated input is the loop over the first part
    followed by the loop over the second. *)
Lemma process_events_app u xs ys :
  forall n acc w,
    process_events u (xs ++ ys) n acc w
    = match process_events u xs n acc w with
      | Some (Ok (n', acc'), w1) => process_events u ys n' acc' w1
      | Some (Raise e, w1) => Some (Raise e, w1)
      | None => None
      end.
Proof.
  induction xs as [|[ev|v] xs IH]; intros n acc w; cbn [app process_events].
  - reflexivity.
  - destruct (bool_decide (ev = ∅)); [apply IH|].
    unfold bind, lift.
    destruct (str_lower (get ev "recurrence" (VStr EmptyString))) as [recurrence|e];
      [|reflexivity].
    destruct (truthy (VStr recurrence) && negb (String.eqb recurrence "none")); [|apply IH].
    destruct (generate_recurring_instances u ev w) as [[[l|e] w2]|];
      try reflexivity. apply IH.
  - apply IH.
Qed.

(** What the loop adds does not depend on what was gathered before. *)
Lemma process_events_shift u xs :
  forall n acc w n' acc' w',
    process_events u xs n acc w = Some (Ok (n', acc'), w') ->
    exists k added,
      n' = (n + k)%nat /\ acc' = acc ++ added
      /\ forall n0 acc0,
           process_events u xs n0 acc0 w = Some (Ok ((n0 + k)%nat, acc0 ++ added), w').
Proof.
  induction xs as [|[ev|v] xs IH]; intros n acc w n' acc' w' H; cbn [process_events] in *.
  - apply ret_Ok in H as [H ->]. injection H as -> ->. exists O, [].
    rewrite Nat.add_0_r, app_nil_r. repeat split.
    intros n0 acc0. rewrite Nat.add_0_r, app_nil_r. reflexivity.
  - destruct (bool_decide (ev = ∅)); [exact (IH _ _ _ _ _ _ H)|].
    apply bind_Ok in H as (recurrence & w1 & [Hrec ->]%lift_Ok & H).
    destruct (truthy (VStr recurrence) && negb (String.eqb recurrence "none")) eqn:Hc.
    + apply bind_Ok in H as (l & w2 & Hgen & H).
      destruct (IH _ _ _ _ _ _ H) as (k & added & -> & -> & Hall).
      exists (S k), (l ++ added). split; [lia|]. split; [rewrite app_assoc; reflexivity|].
      intros n0 acc0. unfold bind, lift. rewrite Hrec, Hc, Hgen.
      rewrite (Hall (S n0) (acc0 ++ l)). rewrite <- app_assoc.
      replace (S n0 + k)%nat with (n0 + S k)%nat by lia. reflexivity.
    + destruct (IH _ _ _ _ _ _ H) as (k & added & -> & -> & Hall).
      exists k, (ev :: added). split; [reflexivity|].
      split; [rewrite <- app_assoc; reflexivity|].
      intros n0 acc0. unfold bind, lift. rewrite Hrec, Hc.
      rewrite (Hall n0 (acc0 ++ [ev])). rewrite <- app_assoc. reflexivity.
  - exact (IH _ _ _ _ _ _ H).
Qed.

End BatchFacts.

Module BatchOutcomeFacts.
Import MonadFacts LoopFacts GenerateFacts IterationFacts ForwardFacts.
Import OutcomeFacts BatchFacts.

Lemma process_events_ok u xs :
  forallb recurrence_is_text xs = true ->
  forallb item_printable xs = true ->
  forall n acc w, exists r w', process_events u xs n acc w = Some (Ok r, w').
Proof.
  induction xs as [|[ev|v] xs IH];
    cbn [forallb recurrence_is_text item_printable process_events]; intros Hall Hpr n acc w.
  - eexists _, _. reflexivity.
  - apply andb_true_iff in Hall as [Hev Hall]. apply andb_true_iff in Hpr as [Hp Hpr].
    destruct (bool_decide (ev = ∅)); [apply IH; assumption|]. cbn [orb] in Hev.
    destruct (get ev "recurrence" (VStr EmptyString)) as [| | |s| |] eqn:Hrec;
      try discriminate.
    destruct (generate_returns u ev w s Hrec Hp) as (l & w1 & Hgen).
    cbn [str_lower]. rewrite ForwardFacts.bind_lift_Ok.
    destruct (truthy (VStr (PyStr.lower s)) && negb (String.eqb (PyStr.lower s) "none")).
    + unfold bind. rewrite Hgen. apply IH; assumption.
    + apply IH; assumption.
  - apply IH; assumption.
Qed.

Lemma process_events_raise u xs :
  forallb recurrence_is_text xs = false ->
  forallb item_printable xs = true ->
  forall n acc w, exists w', process_events u xs n acc w = Some (Raise AttributeError, w').
Proof.
  induction xs as [|[ev|v] xs IH];
    cbn [forallb recurrence_is_text item_printable process_events]; intros Hall Hpr n acc w.
  - discriminate.
  - apply andb_true_iff in Hpr as [Hp Hpr].
    destruct (bool_decide (ev = ∅)); [apply IH; assumption|]. cbn [orb] in Hall.
    destruct (get ev "recurrence" (VStr EmptyString)) as [| | |s| |] eqn:Hrec;
      try (eexists; reflexivity).
    destruct (generate_returns u ev w s Hrec Hp) as (l & w1 & Hgen).
    cbn [andb] in Hall. cbn [str_lower]. rewrite ForwardFacts.bind_lift_Ok.
    destruct (truthy (VStr (PyStr.lower s)) && negb (String.eqb (PyStr.lower s) "none")).
    + unfold bind. rewrite Hgen. apply IH; assumption.
    + apply IH; assumption.
  - apply IH; assumption.
Qed.

(** The two exceptions of the expander are the two of the loop. *)
Lemma process_events_raises_only u xs :
  forall n acc w e w',
    process_events u xs n acc w = Some (Raise e, w') ->
    e = AttributeError \/ e = UnicodeEncodeError.
Proof.
  induction xs as [|[ev|v] xs IH]; cbn [process_events]; intros n acc w e w' H.
  - discriminate.
  - destruct (bool_decide (ev = ∅)); [eapply IH; exact H|].
    pose proof (generate_outcome u ev w) as Hgen.
    destruct (get ev "recurrence" (VStr EmptyString)) as [| | |s| |];
      try (injection H as <- _; left; reflexivity).
    cbn [str_lower] in H. rewrite ForwardFacts.bind_lift_Ok in H.
    destruct (truthy (VStr (PyStr.lower s)) && negb (String.eqb (PyStr.lower s) "none"));
      [|eapply IH; exact H].
    unfold bind in H. destruct Hgen as [(l & w1 & Hgen) | (_ & w1 & Hgen)]; rewrite Hgen in H.
    + eapply IH. exact H.
    + injection H as <- _. right. reflexivity.
  - eapply IH. exact H.
Qed.

Lemma process_events_length u xs :
  forall n acc w n' acc' w',
    process_events u xs n acc w = Some (Ok (n', acc'), w') ->
    (length acc' <= length acc + MAX_INSTANCES * length xs)%nat
    /\ (n' <= n + length xs)%nat.
Proof.
  induction xs as [|[ev|v] xs IH]; intros n acc w n' acc' w' H; cbn [process_events] in H;
    cbn [length].
  - apply ret_Ok in H as [H _]. injection H as -> ->. lia.
  - destruct (bool_decide (ev = ∅)); [apply IH in H; lia|].
    apply bind_Ok in H as (recurrence & w1 & _ & H).
    destruct (truthy (VStr recurrence) && negb (String.eqb recurrence "none")).
    + apply bind_Ok in H as (l & w2 & Hgen%generate_length & H).
      apply IH in H. rewrite length_app in H. lia.
    + apply IH in H. rewrite length_app in H. cbn [length] in H. unfold MAX_INSTANCES in *. lia.
  - apply IH in H. lia.
Qed.

Lemma process_events_identity u xs :
  forallb not_recurring xs = true ->
  forall n acc w,
    process_events u xs n acc w = Some (Ok (n, acc ++ omap record_of xs), w).
Proof.
  induction xs as [|[ev|v] xs IH];
    cbn [forallb not_recurring process_events omap list_omap record_of]; intros Hall n acc w.
  - rewrite app_nil_r. reflexivity.
  - apply andb_true_iff in Hall as [Hev Hall].
    destruct (bool_decide (ev = ∅)); [apply IH; exact Hall|]. cbn [orb] in Hev.
    destruct (get ev "recurrence" (VStr EmptyString)) as [| | |s| |]; try discriminate.
    cbn [str_lower]. rewrite ForwardFacts.bind_lift_Ok. cbn [truthy].
    apply orb_true_iff in Hev as [Hev | Hev]; rewrite Hev; cbn [negb andb];
      rewrite ?andb_false_r; rewrite IH by exact Hall; rewrite <- app_assoc; reflexivity.
  - apply IH. exact Hall.
Qed.

End BatchOutcomeFacts.

(** ** The output is written, never read *)

Module BlindFacts.
Import MonadFacts.

Lemma blind_ret {A : Type} (a : A) : log_blind (ret a).
Proof.
  intros d. exists (Some (Ok a, d, [])). intros o. cbn. rewrite app_nil_r. reflexivity.
Qed.

Lemma blind_lift {A : Type} (r : result A) : log_blind (lift r).
Proof.
  intros d. exists (Some (r, d, [])). intros o. cbn. rewrite app_nil_r. reflexivity.
Qed.

Lemma blind_print_with (more : list string) (l : line) : log_blind (print_with more l).
Proof.
  intros d. unfold print_with. destruct (forallb _ _).
  - exists (Some (Ok tt, d, [l])). intros o. reflexivity.
  - exists (Some (Raise UnicodeEncodeError, d, [])). intros o. cbn. rewrite app_nil_r. reflexivity.
Qed.

Lemma blind_print (l : line) : log_blind (print l).
Proof. apply blind_print_with. Qed.

Lemma blind_uuid4_prefix u : log_blind (uuid4_prefix u).
Proof.
  intros d. exists (Some (Ok (PyStr.take 8 (u d)), S d, [])). intros o.
  cbn. rewrite app_nil_r. reflexivity.
Qed.

Lemma blind_out_of_fuel {A : Type} : log_blind (@out_of_fuel A).
Proof. intros d. exists None. intros o. reflexivity. Qed.

Lemma blind_bind {A B : Type} (m : M A) (k : A -> M B) :
  log_blind m -> (forall a, log_blind (k a)) -> log_blind (bind m k).
Proof.
  intros Hm Hk d. destruct (Hm d) as [[[[[a|e] d1] add1]|] Hres].
  - destruct (Hk a d1) as [[[[r d2] add2]|] Hres2].
    + exists (Some (r, d2, add1 ++ add2)). intros o. unfold bind.
      rewrite Hres. cbn. rewrite Hres2. cbn. rewrite app_assoc. reflexivity.
    + exists None. intros o. unfold bind. rewrite Hres. cbn. rewrite Hres2. reflexivity.
  - exists (Some (Raise e, d1, add1)). intros o. unfold bind. rewrite Hres. reflexivity.
  - exists None. intros o. unfold bind. rewrite Hres. reflexivity.
Qed.

Lemma blind_catch {A : Type} (m : M A) (h : exn -> M A) :
  log_blind m -> (forall e, log_blind (h e)) -> log_blind (catch m h).
Proof.
  intros Hm Hh d. destruct (Hm d) as [[[[[a|e] d1] add1]|] Hres].
  - exists (Some (Ok a, d1, add1)). intros o. unfold catch. rewrite Hres. reflexivity.
  - destruct (Hh e d1) as [[[[r d2] add2]|] Hres2].
    + exists (Some (r, d2, add1 ++ add2)). intros o. unfold catch.
      rewrite Hres. cbn. rewrite Hres2. cbn. rewrite app_assoc. reflexivity.
    + exists None. intros o. unfold catch. rewrite Hres. cbn. rewrite Hres2. reflexivity.
  - exists None. intros o. unfold catch. rewrite Hres. reflexivity.
Qed.

Ltac solve_blind :=
  repeat first
    [ apply blind_ret | apply blind_lift | apply blind_print | apply blind_print_with
    | apply blind_uuid4_prefix
    | apply blind_out_of_fuel
    | apply blind_bind; [| intros ?]
    | apply blind_catch; [| intros ?]
    | match goal with |- log_blind (if ?c then _ else _) => destruct c end
    | match goal with |- log_blind (match ?c with _ => _ end) => destruct c end ].

Lemma blind_make_instance u master sts dur cur : log_blind (make_instance u master sts dur cur).
Proof. unfold make_instance. solve_blind. Qed.

Lemma blind_advance recurrence cur : log_blind (advance recurrence cur).
Proof. unfold advance. solve_blind. Qed.

Lemma blind_expansion_loop u master recurrence sts dur rend :
  forall fuel cur count instances,
    log_blind (expansion_loop u fuel master recurrence sts dur rend cur count instances).
Proof.
  induction fuel as [|fuel IH]; intros cur count instances; cbn [expansion_loop].
  - destruct (_ && _); solve_blind.
  - destruct (_ && _); [|solve_blind].
    apply blind_bind; [apply blind_make_instance | intros inst].
    apply blind_bind; [apply blind_advance | intros [next|]]; [apply IH | apply blind_ret].
Qed.

Lemma blind_expand_body u master recurrence s e r :
  log_blind (expand_body u master recurrence s e r).
Proof.
  unfold expand_body.
  do 6 (apply blind_bind; [apply blind_lift | intros ?]).
  apply blind_bind; [apply blind_expansion_loop | intros ?]. solve_blind.
Qed.

Lemma blind_generate u master : log_blind (generate_recurring_instances u master).
Proof.
  unfold generate_recurring_instances.
  apply blind_bind; [apply blind_lift | intros recurrence].
  destruct (_ || _); [apply blind_ret|].
  destruct (negb _); [solve_blind|].
  apply blind_catch; [apply blind_expand_body | intros ?; solve_blind].
Qed.

Lemma blind_process_events u xs :
  forall n acc, log_blind (process_events u xs n acc).
Proof.
  induction xs as [|[ev|v] xs IH]; intros n acc; cbn [process_events].
  - apply blind_ret.
  - destruct (bool_decide (ev = ∅)); [apply IH|].
    apply blind_bind; [apply blind_lift | intros recurrence].
    destruct (_ && _); [|apply IH].
    apply blind_bind; [apply blind_generate | intros l]. apply IH.
  - apply IH.
Qed.

Lemma blind_expand_calendar_events u xs : log_blind (expand_calendar_events u xs).
Proof.
  unfold expand_calendar_events.
  do 2 (apply blind_bind; [apply blind_print | intros ?]).
  apply blind_bind; [apply blind_process_events | intros ?]. solve_blind.
Qed.

(** Two runs that start from the same number of draws return the same
    and end on the same number of draws. *)
Lemma blind_same_draws {A : Type} (m : M A) w1 w2 r w1' :
  log_blind m -> draws w1 = draws w2 -> m w1 = Some (r, w1') ->
  exists w2', m w2 = Some (r, w2') /\ draws w2' = draws w1'.
Proof.
  intros Hm Hd H. destruct (Hm (draws w1)) as [res Hres].
  destruct w1 as [d1 o1], w2 as [d2 o2]. cbn [draws] in *. subst d2.
  rewrite Hres in H. rewrite Hres.
  destruct res as [[[r0 d0] add]|]; cbn in *; [|discriminate].
  injection H as <- <-. eexists. split; reflexivity.
Qed.

End BlindFacts.

Module BatchTopFacts.
Import MonadFacts BatchFacts BatchOutcomeFacts BlindFacts.

Lemma expand_calendar_events_unfold u xs w :
  expand_calendar_events u xs w
  = match process_events u xs 0 [] (entered w (length xs)) with
    | Some (Ok (n, l), w') => Some (Ok l, left_batch w' n (length l))
    | Some (Raise e, w') => Some (Raise e, w')
    | None => None
    end.
Proof.
  unfold expand_calendar_events, entered, left_batch.
  cbv [bind print print_with interpolated app forallb ret]. cbn [draws out].
  destruct (process_events u xs 0 [] _) as [[[[n l]|e] w']|]; reflexivity.
Qed.

End BatchTopFacts.

(** ** The occurrences of an expansion *)

Module TraceFacts.
Import MonadFacts LoopFacts GenerateFacts IterationFacts InstanceFacts TextFacts
  TimezoneFacts AdvanceFacts InvariantFacts DTFacts ParseFacts ForwardFacts
  FormatFacts YearFacts DurationFacts SourceFacts.
Import Calendar CalendarFacts DT.

Lemma make_instance_uid u (master : event) sts dur cur w (inst : event) w1 :
  make_instance u master sts dur cur w = Some (Ok inst, w1) ->
  exists prefix,
    uid_prefix master = Ok prefix
    /\ inst !! "iCalUld"
       = Some (VStr (String.append prefix
                       (String.append "_"
                          (String.append (strftime FMT_COMPACT cur)
                             (uid_suffix u master (draws w)))))).
Proof.
  unfold make_instance, uid_prefix, uid_suffix. intros H.
  apply bind_Ok in H as (iend & ? & [Hadd ->]%lift_Ok & H).
  apply bind_Ok in H as (tz & ? & [Htz ->]%lift_Ok & H).
  assert (Hget : forall a b : pyval,
             get (<["endTime" := a]> (<["startTime" := b]> master)) "iCalUld" VNone
             = get master "iCalUld" VNone).
  { intros a b. unfold get. rewrite !lookup_insert_ne by discriminate. reflexivity. }
  rewrite !Hget in H.
  apply bind_Ok in H as (inst1 & w2 & Hid & H).
  apply bind_Ok in H as (s2 & w3 & _ & H).
  apply ret_Ok in H as [-> _].
  destruct (truthy (get master "iCalUld" VNone)); cbn [negb] in Hid.
  - apply ret_Ok in Hid as [-> _]. eexists. split; [reflexivity|].
    rewrite lookup_insert_ne, lookup_insert_ne, lookup_insert_eq by discriminate.
    rewrite append_empty_r. reflexivity.
  - apply bind_Ok in Hid as (title & ? & [Ht ->]%lift_Ok & Hid).
    apply bind_Ok in Hid as (s1 & w4 & [-> ->]%uuid4_prefix_Ok & Hid).
    apply ret_Ok in Hid as [-> _]. rewrite Ht. eexists. split; [reflexivity|].
    rewrite lookup_insert_ne, lookup_insert_ne, lookup_insert_eq by discriminate.
    reflexivity.
Qed.

(** Outside its five keys an instance is the master. *)
Lemma make_instance_others u (master : event) sts dur cur w (inst : event) w1 :
  make_instance u master sts dur cur w = Some (Ok inst, w1) ->
  forall k, k ∉ OVERRIDDEN -> inst !! k = master !! k.
Proof.
  unfold make_instance, OVERRIDDEN. intros H k Hk.
  assert (k <> "startTime" /\ k <> "endTime" /\ k <> "iCalUld"
          /\ k <> "isRecurringInstance" /\ k <> "recurringMasterId") as (K1 & K2 & K3 & K4 & K5).
  { repeat split; intros ->; apply Hk; set_solver. }
  apply bind_Ok in H as (iend & ? & _ & H).
  apply bind_Ok in H as (tz & ? & _ & H).
  apply bind_Ok in H as (inst1 & w2 & Hid & H).
  apply bind_Ok in H as (s2 & w3 & _ & H).
  apply ret_Ok in H as [-> _].
  rewrite !lookup_insert_ne by congruence.
  destruct (negb _).
  - apply bind_Ok in Hid as (title & ? & _ & Hid).
    apply bind_Ok in Hid as (s1 & w4 & _ & Hid).
    apply ret_Ok in Hid as [-> _]. rewrite !lookup_insert_ne by congruence. reflexivity.
  - apply ret_Ok in Hid as [-> _]. rewrite !lookup_insert_ne by congruence. reflexivity.
Qed.

Lemma days_before_month_succ leap m :
  1 <= m <= 11 ->
  days_before_month_of leap (m + 1) = days_before_month_of leap m + days_in_month_of leap m.
Proof.
  intros Hm. revert Hm. pattern m. apply (cases_below m 12).
  - intros k Hk. destruct leap;
      do 12 (destruct k as [|k]; [intros; first [reflexivity | exfalso; lia]|]);
      exfalso; lia.
  - intros; exfalso; lia.
Qed.

Lemma days_before_month_bounds leap m :
  1 <= m <= 12 ->
  DAYS_BEFORE_MONTH m <= days_before_month_of leap m <= DAYS_BEFORE_MONTH m + 1
  /\ 0 <= DAYS_BEFORE_MONTH m <= 334.
Proof.
  intros Hm. revert Hm. pattern m. apply (cases_below m 13).
  - intros k Hk. destruct leap;
      do 13 (destruct k as [|k];
             [intros; first [solve [cbv; repeat split; discriminate] | exfalso; lia]|]);
      exfalso; lia.
  - intros; exfalso; lia.
Qed.

(** Adding whole days moves the ordinal and keeps the time of day. *)
Lemma add_days_ordinal cur k next :
  valid cur = true -> add cur (timedelta_days k) = Ok next ->
  valid next = true /\ toordinal next = toordinal cur + k
  /\ to_micros next = to_micros cur + k * US_PER_DAY.
Proof.
  intros Hc [Hv Ht]%add_Ok. split; [exact Hv|].
  destruct (to_micros_split cur Hc) as (Hd1 & Hm1 & Hs1).
  destruct (to_micros_split next Hv) as (Hd2 & Hm2 & Hs2).
  unfold timedelta_days in Ht. split; [|exact Ht].
  rewrite <- Hd1, <- Hd2, Ht. unfold US_PER_DAY, US_PER_SECOND.
  rewrite Z.div_add by lia. reflexivity.
Qed.

Lemma to_micros_by_ordinal a b :
  seconds_of_day a = seconds_of_day b -> microsecond a = microsecond b ->
  to_micros b = to_micros a + (toordinal b - toordinal a) * US_PER_DAY.
Proof. unfold to_micros, US_PER_DAY, US_PER_SECOND. intros -> ->. lia. Qed.

Lemma replace_ordinal cur y m next :
  replace_year_month cur y m = Ok next ->
  valid next = true
  /\ toordinal next = ymd2ord y m (day cur)
  /\ to_micros next = to_micros cur + (toordinal next - toordinal cur) * US_PER_DAY
  /\ microsecond next = microsecond cur.
Proof.
  unfold replace_year_month. intros [-> Hv]%make_Ok.
  split; [exact Hv|]. split; [reflexivity|].
  split; [apply to_micros_by_ordinal; reflexivity | reflexivity].
Qed.

(** Every step goes to a later day, keeps the time of day and leaves the
    occurrence valid. *)
Lemma advances_later recurrence cur next :
  valid cur = true -> advances recurrence cur next ->
  valid next = true
  /\ microsecond next = microsecond cur
  /\ toordinal cur < toordinal next
  /\ to_micros next = to_micros cur + (toordinal next - toordinal cur) * US_PER_DAY.
Proof.
  intros Hc (w & w' & Hadv). pose proof Hc as (Hd & _)%valid_inv.
  pose proof Hd as (Hy & Hm & Hday)%valid_date_inv.
  destruct (advance_keeps _ _ _ _ _ Hc Hadv) as [Hvn Hus].
  split; [exact Hvn|]. split; [exact Hus|].
  revert Hadv. unfold advance.
  destruct (String.eqb recurrence "weekly").
  { intros [H _]%lift_bind_ret_Some.
    change (timedelta_weeks 1) with (timedelta_days 7) in H.
    apply (add_days_ordinal _ _ _ Hc) in H as (_ & Ho & Ht). rewrite Ho. split; lia. }
  destruct (String.eqb recurrence "daily").
  { intros [H _]%lift_bind_ret_Some.
    apply (add_days_ordinal _ _ _ Hc) in H as (_ & Ho & Ht). rewrite Ho. split; lia. }
  pose proof (days_before_year_succ (year cur)) as Hsucc.
  destruct (String.eqb recurrence "monthly").
  { intros [H _]%lift_bind_ret_Some.
    destruct (month cur =? 12) eqn:H12.
    - apply Z.eqb_eq in H12. apply replace_ordinal in H as (_ & Ho & Ht & _).
      split; [|exact Ht]. rewrite Ho. unfold toordinal, ymd2ord, days_before_month.
      rewrite H12.
      pose proof (days_before_month_bounds (is_leap (year cur)) 12 ltac:(lia)) as [B _].
      change (days_before_month_of (is_leap (year cur + 1)) 1) with 0.
      cbn [DAYS_BEFORE_MONTH] in B. destruct (is_leap (year cur)); lia.
    - apply Z.eqb_neq in H12. unfold replace_month in H.
      apply replace_ordinal in H as (_ & Ho & Ht & _).
      split; [|exact Ht]. rewrite Ho. unfold toordinal, ymd2ord, days_before_month.
      rewrite days_before_month_succ by lia. unfold days_in_month in Hday. lia. }
  destruct (String.eqb recurrence "yearly").
  { intros [H _]%lift_bind_ret_Some. unfold replace_year in H.
    apply replace_ordinal in H as (_ & Ho & Ht & _).
    split; [|exact Ht]. rewrite Ho. unfold toordinal, ymd2ord, days_before_month.
    pose proof (days_before_month_bounds (is_leap (year cur)) (month cur) Hm) as [B1 _].
    pose proof (days_before_month_bounds (is_leap (year cur + 1)) (month cur) Hm) as [B2 _].
    destruct (is_leap (year cur)); lia. }
  intros H. apply print_then_ret in H as [H _]. discriminate.
Qed.

End TraceFacts.

Module ChainFacts.
Import MonadFacts LoopFacts GenerateFacts IterationFacts InstanceFacts TextFacts
  TimezoneFacts AdvanceFacts InvariantFacts DTFacts ParseFacts ForwardFacts
  FormatFacts YearFacts DurationFacts SourceFacts.
Import Calendar CalendarFacts DT TraceFacts.

(** The occurrences the loop goes through: each makes an instance, each
    is followed by the one [advance] gives, none is after the end. *)
Lemma iterations_trace u master recurrence sts dur rend cur count w new w' :
  iterations u master recurrence sts dur rend cur count w new w' ->
  new = []
  \/ exists rest,
       Forall2 (made_at u master sts dur) (cur :: rest) new
       /\ Sorted (advances recurrence) (cur :: rest)
       /\ Forall (fun c => DT.le c rend = true) (cur :: rest).
Proof.
  intros Hit.
  induction Hit as [| cur count w inst w1 w2 Hc Hm _
                     | cur count w inst w1 next w2 rest w3 Hc Hm Ha _ IH].
  - left. reflexivity.
  - right. exists []. apply andb_true_iff in Hc as [Hle _].
    split; [|split]; repeat constructor; [exists w, w1; exact Hm | exact Hle].
  - right. apply andb_true_iff in Hc as [Hle _].
    assert (Hmade : made_at u master sts dur cur inst) by (exists w, w1; exact Hm).
    destruct IH as [-> | (r & Hf & Hs & Hl)].
    + exists []. split; [|split]; repeat constructor; assumption.
    + exists (next :: r). split; [|split].
      * constructor; assumption.
      * constructor; [exact Hs|]. constructor. exists w1, w2. exact Ha.
      * constructor; assumption.
Qed.

(** Along the occurrences the day goes up and the time of day stays. *)
Lemma chain_later recurrence rest :
  forall cur,
    valid cur = true ->
    Sorted (advances recurrence) (cur :: rest) ->
    Forall (fun c => valid c = true
                     /\ microsecond c = microsecond cur
                     /\ toordinal cur <= toordinal c
                     /\ to_micros c = to_micros cur + (toordinal c - toordinal cur) * US_PER_DAY)
           (cur :: rest)
    /\ StronglySorted (fun a b => toordinal a < toordinal b) (cur :: rest).
Proof.
  induction rest as [|next rest IH]; intros cur Hv Hs.
  - split; [|repeat constructor]. constructor; [|constructor].
    repeat split; [exact Hv | lia | lia].
  - inversion Hs as [|? ? Hs' Hhd]; subst. inversion Hhd as [|? ? Hadv]; subst.
    destruct (advances_later _ _ _ Hv Hadv) as (Hvn & Hus & Hord & Hmic).
    destruct (IH next Hvn Hs') as [Hall Hsorted].
    assert (Hall' : Forall (fun c => valid c = true
                     /\ microsecond c = microsecond cur
                     /\ toordinal cur <= toordinal c
                     /\ to_micros c = to_micros cur + (toordinal c - toordinal cur) * US_PER_DAY)
                    (next :: rest)).
    { eapply Forall_impl; [exact Hall|]. cbv beta. intros c (H1 & H2 & H3 & H4).
      repeat split; [exact H1 | congruence | lia | lia]. }
    split.
    + constructor; [|exact Hall']. repeat split; [exact Hv | lia | lia].
    + constructor; [exact Hsorted|].
      eapply Forall_impl; [exact Hall|]. cbv beta. intros c (_ & _ & H3 & _). lia.
Qed.

Lemma length_pad w : forall n, String.length (pad w n) = w.
Proof.
  induction w as [|w IH]; intros n; cbn [pad]; [reflexivity|].
  rewrite length_append, IH. cbn [String.length]. lia.
Qed.

Lemma append_inv_head (a b c : string) :
  String.append a b = String.append a c -> b = c.
Proof.
  induction a as [|x a IH]; step_append; [trivial|].
  intros H. injection H as H. exact (IH H).
Qed.

Lemma append_same_length (a b x y : string) :
  String.length a = String.length b ->
  String.append a x = String.append b y -> a = b.
Proof.
  intros Hl H. rewrite <- (take_append_length a x), H, Hl. apply take_append_length.
Qed.

Lemma digit_char_inj a b : 0 <= a <= 9 -> 0 <= b <= 9 -> digit_char a = digit_char b -> a = b.
Proof.
  intros Ha Hb H. apply (f_equal digit_val) in H.
  rewrite !digit_val_char in H by assumption. congruence.
Qed.

(** A padded number names its value up to the width. *)
Lemma pad_inj w : forall a b, pad w a = pad w b -> a mod 10 ^ Z.of_nat w = b mod 10 ^ Z.of_nat w.
Proof.
  induction w as [|w IH]; intros a b H.
  - change (10 ^ Z.of_nat 0) with 1. rewrite !Z.mod_1_r. reflexivity.
  - cbn [pad] in H. pose proof H as H'.
    apply append_same_length in H; [|rewrite !length_pad; reflexivity].
    rewrite H in H'. apply append_inv_head in H'. injection H' as Hd.
    pose proof (Z.mod_pos_bound a 10 ltac:(lia)) as Ba.
    pose proof (Z.mod_pos_bound b 10 ltac:(lia)) as Bb.
    apply digit_char_inj in Hd; [| lia | lia].
    apply IH in H.
    assert (Hp : 0 < 10 ^ Z.of_nat w) by (apply Z.pow_pos_nonneg; lia).
    rewrite Nat2Z.inj_succ, Z.pow_succ_r by lia.
    rewrite (Z.rem_mul_r a 10 (10 ^ Z.of_nat w)) by lia.
    rewrite (Z.rem_mul_r b 10 (10 ^ Z.of_nat w)) by lia.
    rewrite H, Hd. reflexivity.
Qed.

Lemma pad_inj_below w a b :
  0 <= a < 10 ^ Z.of_nat w -> 0 <= b < 10 ^ Z.of_nat w -> pad w a = pad w b -> a = b.
Proof.
  intros Ha Hb H%pad_inj. rewrite !Z.mod_small in H by assumption. exact H.
Qed.

Lemma year_below_width y : 1 <= y <= 9999 -> 0 <= y < 10 ^ Z.of_nat (year_width y).
Proof.
  intros Hy. unfold year_width.
  destruct (Z.ltb_spec y 10); [cbn; lia|].
  destruct (Z.ltb_spec y 100); [cbn; lia|].
  destruct (Z.ltb_spec y 1000); cbn; lia.
Qed.

Lemma compact_text t :
  valid t = true ->
  strftime FMT_COMPACT t
  = String.append (pad (year_width (year t)) (year t))
      (String.append (pad 2 (month t)) (pad 2 (day t))).
Proof.
  intros Hv. unfold FMT_COMPACT. cbn [strftime render].
  rewrite decimal_pad by (apply valid_year; exact Hv). rewrite append_empty_r. reflexivity.
Qed.

(** The compact date names the day. *)
Lemma compact_inj a b :
  valid a = true -> valid b = true ->
  strftime FMT_COMPACT a = strftime FMT_COMPACT b -> toordinal a = toordinal b.
Proof.
  intros Ha Hb. rewrite (compact_text a Ha), (compact_text b Hb). intros Heq.
  pose proof (valid_year a Ha) as Hya. pose proof (valid_year b Hb) as Hyb.
  pose proof Ha as (Hda & _)%valid_inv. pose proof Hb as (Hdb & _)%valid_inv.
  apply valid_date_inv in Hda as (_ & Hma & Hdda).
  apply valid_date_inv in Hdb as (_ & Hmb & Hddb).
  pose proof (days_in_month_le_31 (is_leap (year a)) (month a)) as H31a.
  pose proof (days_in_month_le_31 (is_leap (year b)) (month b)) as H31b.
  unfold days_in_month in Hdda, Hddb.
  assert (Hw : year_width (year a) = year_width (year b)).
  { apply (f_equal String.length) in Heq.
    rewrite !length_append, !length_pad in Heq. lia. }
  pose proof Heq as Hy.
  apply append_same_length in Hy; [|rewrite !length_pad; exact Hw].
  rewrite Hy in Heq. apply append_inv_head in Heq.
  pose proof Heq as Hm.
  apply append_same_length in Hm; [|rewrite !length_pad; reflexivity].
  rewrite Hm in Heq. apply append_inv_head in Heq.
  rewrite Hw in Hy.
  apply pad_inj_below in Hy;
    [| rewrite <- Hw; apply year_below_width; exact Hya | apply year_below_width; exact Hyb].
  apply pad_inj_below in Hm; [| cbn; lia | cbn; lia].
  apply pad_inj_below in Heq; [| cbn; lia | cbn; lia].
  unfold toordinal. congruence.
Qed.

(** The compact date holds digits only. *)
Lemma compact_clean c t :
  valid t = true -> digit_val c = None -> PyStr.contains c (strftime FMT_COMPACT t) = false.
Proof.
  intros Hv Hc. rewrite (compact_text t Hv).
  rewrite !contains_append, !(pad_clean c) by exact Hc. reflexivity.
Qed.

(** Two texts without [c], each followed by [c], are the same text when
    what they begin is. *)
Lemma split_at_mark c a : forall b x y,
  PyStr.contains c a = false -> PyStr.contains c b = false ->
  String.append a (String c x) = String.append b (String c y) -> a = b.
Proof.
  induction a as [|p a IH]; intros [|q b] x y Ha Hb; step_append; intros H.
  - reflexivity.
  - injection H as <- _. cbn [PyStr.contains] in Hb. unfold PyStr.ascii_eqb in Hb.
    rewrite Ascii.eqb_refl in Hb. discriminate.
  - injection H as -> _. cbn [PyStr.contains] in Ha. unfold PyStr.ascii_eqb in Ha.
    rewrite Ascii.eqb_refl in Ha. discriminate.
  - injection H as -> H. cbn [PyStr.contains] in Ha, Hb.
    apply orb_false_iff in Ha as [_ Ha]. apply orb_false_iff in Hb as [_ Hb].
    f_equal. eapply IH; eassumption.
Qed.

End ChainFacts.

Module OrderFacts.
Import MonadFacts LoopFacts GenerateFacts IterationFacts InstanceFacts TextFacts
  TimezoneFacts AdvanceFacts InvariantFacts DTFacts ParseFacts ForwardFacts
  FormatFacts YearFacts DurationFacts SourceFacts.
Import Calendar CalendarFacts DT TraceFacts ChainFacts.

Lemma Forall2_with_left {A B : Type} (P : A -> B -> Prop) (Q : A -> Prop) la lb :
  Forall2 P la lb -> Forall Q la -> Forall2 (fun a b => P a b /\ Q a) la lb.
Proof.
  induction 1 as [|a b la lb Hab _ IH]; intros HQ; [constructor|].
  inversion HQ; subst. constructor; [split; assumption | apply IH; assumption].
Qed.

Lemma Forall_transfer {A B : Type} (P : A -> B -> Prop) (QA : A -> Prop) (QB : B -> Prop)
    la lb :
  (forall a b, P a b -> QA a -> QB b) ->
  Forall2 P la lb -> Forall QA la -> Forall QB lb.
Proof.
  intros H. induction 1 as [|a b la lb Hab _ IH]; intros HQ; [constructor|].
  inversion HQ; subst. constructor; [eapply H; eassumption | apply IH; assumption].
Qed.

(** An order on the occurrences carries over to the instances made there. *)
Lemma sorted_transfer {A B : Type} (P : A -> B -> Prop) (RA : A -> A -> Prop)
    (RB : B -> B -> Prop) :
  (forall a1 a2 b1 b2, P a1 b1 -> P a2 b2 -> RA a1 a2 -> RB b1 b2) ->
  forall la lb, Forall2 P la lb -> StronglySorted RA la -> StronglySorted RB lb.
Proof.
  intros H la lb HF. induction HF as [|a b la lb Hab HF IH]; intros HS; [constructor|].
  apply StronglySorted_inv in HS as [HS Hall]. constructor; [apply IH; exact HS|].
  eapply (Forall_transfer P (RA a) (RB b)); [|exact HF | exact Hall].
  intros a2 b2 Hab2 Hr. eapply H; eassumption.
Qed.

Lemma sorted_distinct {B C : Type} (f : B -> C) (l : list B) :
  StronglySorted (fun b1 b2 => f b1 <> f b2) l -> NoDup (map f l).
Proof.
  induction l as [|b l IH]; intros HS; cbn [map]; [constructor|].
  apply StronglySorted_inv in HS as [HS Hall]. constructor; [|apply IH; exact HS].
  intros (b' & Heq & Hin)%list_elem_of_In%in_map_iff. rewrite Forall_forall in Hall.
  apply (Hall b'); [apply list_elem_of_In; exact Hin | congruence].
Qed.

(** What an instance made at a valid occurrence carries. *)
Lemma made_at_start u (master : event) s tz dur c (inst : event) :
  tz_suffix (VStr s) = Ok tz -> valid c = true -> 1000 <= year c ->
  made_at u master (VStr s) dur c inst ->
  instant_of inst "startTime" = Some (whole_second c).
Proof.
  intros Htz Hv Hy (w & w1 & Hmk).
  apply make_instance_inv in Hmk as (iend & tz' & _ & Htz' & Hst & _).
  rewrite Htz in Htz'. injection Htz' as <-.
  unfold instant_of, get. rewrite Hst, (parse_serialised c s tz Hv Hy Htz). reflexivity.
Qed.

Lemma made_at_uid u (master : event) sts dur c (inst : event) :
  made_at u master sts dur c inst ->
  exists prefix d,
    uid_prefix master = Ok prefix
    /\ inst !! "iCalUld"
       = Some (VStr (String.append prefix
                       (String.append "_"
                          (String.append (strftime FMT_COMPACT c) (uid_suffix u master d))))).
Proof. intros (w & w1 & Hmk). apply make_instance_uid in Hmk as (p & Hp & Hid). eauto. Qed.

(** Instances made on different days have different identifiers. *)
Lemma uid_differs u (master : event) sts dur c1 c2 (i1 i2 : event) :
  valid c1 = true -> valid c2 = true ->
  made_at u master sts dur c1 i1 -> made_at u master sts dur c2 i2 ->
  toordinal c1 < toordinal c2 ->
  i1 !! "iCalUld" <> i2 !! "iCalUld".
Proof.
  intros Hv1 Hv2 (p1 & d1 & Hp1 & Hid1)%made_at_uid (p2 & d2 & Hp2 & Hid2)%made_at_uid Hlt.
  rewrite Hid1, Hid2. rewrite Hp1 in Hp2. injection Hp2 as <-. intros Heq.
  injection Heq as Heq. do 2 apply append_inv_head in Heq.
  assert (Hsame : strftime FMT_COMPACT c1 = strftime FMT_COMPACT c2).
  { unfold uid_suffix in Heq. destruct (truthy (get master "iCalUld" VNone)).
    - rewrite !append_empty_r in Heq. exact Heq.
    - apply (split_at_mark "_") in Heq; [exact Heq | |]; apply compact_clean;
        first [assumption | reflexivity]. }
  apply (compact_inj _ _ Hv1 Hv2) in Hsame. lia.
Qed.

Lemma whole_second_le c rend :
  valid c = true -> DT.le c rend = true -> DT.le (whole_second c) rend = true.
Proof.
  intros (_ & _ & _ & _ & Hu)%valid_inv. unfold DT.le, fields, whole_second.
  cbn [year month day hour minute second microsecond lex_le].
  rewrite !orb_true_iff, !andb_true_iff, !orb_true_iff, !andb_true_iff.
  rewrite !Z.ltb_lt, !Z.eqb_eq. intuition lia.
Qed.

End OrderFacts.

Module ExpansionFacts.
Import MonadFacts LoopFacts GenerateFacts IterationFacts InstanceFacts TextFacts
  TimezoneFacts AdvanceFacts InvariantFacts DTFacts ParseFacts ForwardFacts
  FormatFacts YearFacts DurationFacts SourceFacts TraceFacts ChainFacts OrderFacts.
Import Calendar CalendarFacts DT.

(** An expansion in full: the parsed dates, the literal, and the
    occurrences behind the instances. *)
Lemma expanded_trace u (master : event) w l w' :
  expanded u master w l w' ->
  exists recurrence s tz start_dt end_dt rend w1,
    str_lower (get master "recurrence" (VStr EmptyString)) = Ok recurrence
    /\ get master "startTime" (VStr EmptyString) = VStr s
    /\ tz_suffix (VStr s) = Ok tz
    /\ instant_of master "startTime" = Some start_dt
    /\ instant_of master "endTime" = Some end_dt
    /\ instant_of master "recurrenceEndDate" = Some rend
    /\ valid start_dt = true
    /\ iterations u master recurrence (VStr s) (sub end_dt start_dt) rend start_dt 0 w l w1
    /\ draws w' = draws w1
    /\ (l = []
        \/ exists rest,
             Forall2 (made_at u master (VStr s) (sub end_dt start_dt)) (start_dt :: rest) l
             /\ Sorted (advances recurrence) (start_dt :: rest)
             /\ Forall (fun c => DT.le c rend = true) (start_dt :: rest)).
Proof.
  intros (recurrence & Hrec & _ & _ & Hbody).
  apply expand_body_inv in Hbody as (sd & ed & rd & w1 & Hs & He & Hr & Hit & ->).
  destruct (parse_datetime_text _ _ Hs) as (s & Hstr).
  destruct (tz_suffix_text s) as (tz & Htz).
  exists recurrence, s, tz, sd, ed, rd, w1. rewrite Hstr in Hit.
  unfold instant_of. rewrite Hs, He, Hr.
  repeat split; try assumption; try reflexivity.
  - eapply parse_datetime_valid. exact Hs.
  - eapply iterations_trace. exact Hit.
Qed.

(** The instances with the occurrences they were made at, each valid, on
    the master's fraction of a second and not after the end. *)
Lemma expanded_occurrences u (master : event) w l w' :
  expanded u master w l w' ->
  exists recurrence s tz start_dt end_dt rend curs,
    tz_suffix (VStr s) = Ok tz
    /\ instant_of master "startTime" = Some start_dt
    /\ instant_of master "recurrenceEndDate" = Some rend
    /\ str_lower (get master "recurrence" (VStr EmptyString)) = Ok recurrence
    /\ Forall2 (fun c inst =>
                  made_at u master (VStr s) (sub end_dt start_dt) c inst
                  /\ (valid c = true
                      /\ microsecond c = microsecond start_dt
                      /\ toordinal start_dt <= toordinal c
                      /\ to_micros c
                         = to_micros start_dt
                           + (toordinal c - toordinal start_dt) * US_PER_DAY)
                  /\ DT.le c rend = true)
               curs l
    /\ StronglySorted (fun a b => toordinal a < toordinal b) curs
    /\ (curs = [] \/ (exists rest, curs = start_dt :: rest
                                   /\ Sorted (advances recurrence) curs)).
Proof.
  intros (recurrence & s & tz & sd & ed & rd & w1 & Hrec & _ & Htz & Hs & _ & Hr & Hv & _ & _
          & Htrace)%expanded_trace.
  destruct Htrace as [-> | (rest & HF & Hsorted & Hle)].
  - exists recurrence, s, tz, sd, ed, rd, [].
    do 4 (split; [assumption|]). split; [constructor|]. split; [constructor|].
    left. reflexivity.
  - destruct (chain_later recurrence rest sd Hv Hsorted) as [Hall Hstrong].
    exists recurrence, s, tz, sd, ed, rd, (sd :: rest).
    do 4 (split; [assumption|]). split; [|split; [exact Hstrong|]].
    + apply Forall2_with_left; [exact HF|]. apply Forall_and. split; assumption.
    + right. eauto.
Qed.

(** The instances with the occurrences they were made at and the parsed
    start and end of the master. *)
Lemma expanded_spans u (master : event) w l w' :
  expanded u master w l w' ->
  exists s tz start_dt end_dt curs,
    tz_suffix (VStr s) = Ok tz
    /\ instant_of master "startTime" = Some start_dt
    /\ instant_of master "endTime" = Some end_dt
    /\ valid start_dt = true /\ valid end_dt = true
    /\ Forall2 (fun c inst =>
                  made_at u master (VStr s) (sub end_dt start_dt) c inst
                  /\ valid c = true
                  /\ microsecond c = microsecond start_dt
                  /\ to_micros start_dt <= to_micros c)
               curs l.
Proof.
  intros (recurrence & s & tz & sd & ed & rd & w1 & Hrec & _ & Htz & Hs & He & Hr & Hv & _ & _
          & Htrace)%expanded_trace.
  assert (Hve : valid ed = true).
  { unfold instant_of in He.
    destruct (parse_datetime (get master "endTime" (VStr EmptyString))) as [[d|]|] eqn:Hp;
      try discriminate.
    injection He as ->. eapply parse_datetime_valid. exact Hp. }
  destruct Htrace as [-> | (rest & HF & Hsorted & Hle)].
  - exists s, tz, sd, ed, []. repeat split; try assumption. constructor.
  - destruct (chain_later recurrence rest sd Hv Hsorted) as [Hall _].
    exists s, tz, sd, ed, (sd :: rest). repeat split; try assumption.
    eapply Forall2_impl; [apply (Forall2_with_left _ _ _ _ HF Hall)|].
    cbv beta. intros c inst (Hm & Hvc & Hus & Hord & Hmic).
    repeat split; try assumption. unfold US_PER_DAY, US_PER_SECOND in Hmic. lia.
Qed.

(** The UUIDs an expansion draws. *)
Lemma iterations_draws u master recurrence sts dur rend cur count w new w' :
  iterations u master recurrence sts dur rend cur count w new w' ->
  draws w' = (draws w + length new * draws_per_instance master)%nat.
Proof.
  intros Hit.
  induction Hit as [| cur count w inst w1 w2 _ Hm Ha
                     | cur count w inst w1 next w2 rest w3 _ Hm Ha _ IH]; cbn [length].
  - lia.
  - apply make_instance_inv in Hm as (? & ? & _ & _ & _ & _ & _ & _ & Hd & _).
    apply advance_break in Ha as [-> _]. cbn [draws]. lia.
  - apply make_instance_inv in Hm as (? & ? & _ & _ & _ & _ & _ & _ & Hd & _).
    apply advance_next in Ha as [-> _]. lia.
Qed.

(** With a fixed step of [k] days the [i]-th occurrence is [i * k] days
    after the first. *)
Lemma chain_spacing recurrence (k : Z) rest :
  (String.eqb recurrence "weekly" = true /\ k = 7)
  \/ (String.eqb recurrence "weekly" = false /\ String.eqb recurrence "daily" = true /\ k = 1) ->
  forall cur,
    valid cur = true ->
    Sorted (advances recurrence) (cur :: rest) ->
    forall (i : nat) c,
      (cur :: rest) !! i = Some c -> toordinal c = toordinal cur + Z.of_nat i * k.
Proof.
  intros Hk. induction rest as [|next rest IH]; intros cur Hv Hs i c Hi.
  - destruct i; [|discriminate]. injection Hi as <-. lia.
  - destruct i as [|i]; [injection Hi as <-; lia|].
    inversion Hs as [|? ? Hs' Hhd]; subst. inversion Hhd as [|? ? Hadv]; subst.
    destruct (advances_later _ _ _ Hv Hadv) as (Hvn & _).
    rewrite (IH next Hvn Hs' i c Hi).
    assert (Hstep : toordinal next = toordinal cur + k).
    { destruct Hadv as (w & w' & Hadv). unfold advance in Hadv.
      destruct Hk as [[Hw ->] | (Hw & Hd & ->)]; rewrite Hw in Hadv.
      - apply lift_bind_ret_Some in Hadv as [H _].
        change (timedelta_weeks 1) with (timedelta_days 7) in H.
        apply (add_days_ordinal _ _ _ Hv) in H as (_ & Ho & _). exact Ho.
      - rewrite Hd in Hadv. apply lift_bind_ret_Some in Hadv as [H _].
        apply (add_days_ordinal _ _ _ Hv) in H as (_ & Ho & _). exact Ho. }
    lia.
Qed.

End ExpansionFacts.

Module OverflowFacts.
Import Calendar CalendarFacts DT.

Lemma replace_month_overflow cur :
  month cur <> 12 ->
  days_in_month (year cur) (month cur + 1) < day cur ->
  (if month cur =? 12
   then replace_year_month cur (year cur + 1) 1
   else replace_month cur (month cur + 1)) = Raise ValueError.
Proof.
  intros H12 Hday. replace (month cur =? 12) with false by (symmetry; apply Z.eqb_neq; exact H12).
  unfold replace_month, replace_year_month, make, valid, valid_date.
  cbn [year month day hour minute second microsecond].
  replace (day cur <=? days_in_month (year cur) (month cur + 1)) with false
    by (symmetry; apply Z.leb_gt; exact Hday).
  rewrite !andb_false_r. reflexivity.
Qed.

End OverflowFacts.

(** ** What the parser returns *)

Module ParseOutcomeFacts.
Import MonadFacts LoopFacts GenerateFacts IterationFacts InstanceFacts TextFacts
  TimezoneFacts AdvanceFacts InvariantFacts DTFacts ParseFacts ForwardFacts
  FormatFacts YearFacts DurationFacts SourceFacts EmptyFacts OutcomeFacts BatchFacts
  BatchOutcomeFacts BlindFacts BatchTopFacts TraceFacts ChainFacts OrderFacts
  ExpansionFacts OverflowFacts.
Import Calendar CalendarFacts DT.

Lemma split_head_exists c s : exists p ps, PyStr.split c s = p :: ps.
Proof.
  induction s as [|a s IH]; cbn [PyStr.split]; [eauto|].
  destruct (PyStr.ascii_eqb a c); [eauto|].
  destruct IH as (p & ps & ->). eauto.
Qed.

Lemma strip_timezone_total s : exists s', strip_timezone s = Ok s'.
Proof.
  unfold strip_timezone. destruct (PyStr.contains "+" s).
  - destruct (split_head_exists "+" s) as (p & ps & ->). cbn. eauto.
  - destruct (PyStr.contains "Z" s); eauto.
Qed.

Lemma strptime_raises s fmt e : strptime s fmt = Raise e -> e = ValueError.
Proof.
  unfold strptime. destruct (matches fmt s DEFAULTS) as [|[t rest] tl]; [congruence|].
  destruct rest; [|congruence]. destruct (valid t); congruence.
Qed.

Lemma try_formats_raises s fmts e : try_formats s fmts = Raise e -> e = ValueError.
Proof.
  induction fmts as [|fmt rest IH]; cbn [try_formats]; [congruence|].
  destruct (strptime s fmt) as [d|x] eqn:Hp; [discriminate|].
  apply strptime_raises in Hp as ->. exact IH.
Qed.

(** On text the parser gives nothing for the empty text only, a valid
    time, or a ValueError. *)
Lemma parse_datetime_outcomes s :
  match parse_datetime (VStr s) with
  | Ok None => s = EmptyString
  | Ok (Some d) => valid d = true
  | Raise e => e = ValueError
  end.
Proof.
  destruct (parse_datetime (VStr s)) as [[d|]|e] eqn:Hp.
  - eapply parse_datetime_valid. exact Hp.
  - unfold parse_datetime in Hp. cbn [truthy] in Hp.
    destruct s as [|a s]; [reflexivity|]. cbn [String.eqb negb] in Hp.
    destruct (strip_timezone (String a s)) as [s'|]; cbn [rbind] in Hp; [|discriminate].
    destruct (try_formats s' _); discriminate.
  - unfold parse_datetime in Hp. cbn [truthy] in Hp.
    destruct s as [|a s]; [discriminate|]. cbn [String.eqb negb] in Hp.
    destruct (strip_timezone_total (String a s)) as (s' & Hs). rewrite Hs in Hp.
    cbn [rbind] in Hp.
    destruct (try_formats s' _) as [d|x] eqn:Ht; [discriminate|].
    apply try_formats_raises in Ht as ->. cbn in Hp. congruence.
Qed.

Lemma nonempty_truthy s : s <> EmptyString -> negb (truthy (VStr s)) = false.
Proof. destruct s; [congruence|]. reflexivity. Qed.

Lemma append_nonempty a b : a <> EmptyString -> String.append a b <> EmptyString.
Proof. destruct a; [congruence|]. step_append. discriminate. Qed.

(** An offset or a Z after the time is taken off and nothing else. *)
Lemma parse_datetime_drops_timezone body off :
  body <> EmptyString ->
  PyStr.contains "+" body = false -> PyStr.contains "Z" body = false ->
  parse_datetime (VStr (String.append body (String "+" off))) = parse_datetime (VStr body)
  /\ parse_datetime (VStr (String.append body "Z")) = parse_datetime (VStr body).
Proof.
  intros Hne Hp Hz. unfold parse_datetime.
  rewrite (nonempty_truthy body Hne).
  rewrite !nonempty_truthy by (apply append_nonempty; exact Hne).
  assert (H0 : strip_timezone body = Ok body).
  { unfold strip_timezone. rewrite Hp, Hz. reflexivity. }
  assert (H1 : strip_timezone (String.append body (String "+" off)) = Ok body).
  { unfold strip_timezone. rewrite contains_append, Hp. cbn [PyStr.contains orb].
    unfold PyStr.ascii_eqb at 1. rewrite Ascii.eqb_refl. cbn [orb].
    rewrite split_at_first by exact Hp. reflexivity. }
  assert (H2 : strip_timezone (String.append body "Z") = Ok body).
  { unfold strip_timezone. rewrite !contains_append, Hp, Hz. cbn.
    rewrite remove_append, (remove_absent _ _ Hz). cbn. rewrite append_empty_r. reflexivity. }
  rewrite H0, H1, H2. split; reflexivity.
Qed.

End ParseOutcomeFacts.

(** ** Dates without a time of day *)

Module DateTextFacts.
Import MonadFacts LoopFacts GenerateFacts IterationFacts InstanceFacts TextFacts
  TimezoneFacts AdvanceFacts InvariantFacts DTFacts ParseFacts ForwardFacts
  FormatFacts YearFacts DurationFacts SourceFacts EmptyFacts OutcomeFacts BatchFacts
  BatchOutcomeFacts BlindFacts BatchTopFacts TraceFacts ChainFacts OrderFacts
  ExpansionFacts OverflowFacts.
Import Calendar CalendarFacts DT ParseOutcomeFacts.

Lemma is_suffix_refl s : is_suffix s s.
Proof. exists EmptyString. reflexivity. Qed.

Lemma is_suffix_tail a r s : is_suffix r s -> is_suffix r (String a s).
Proof. intros (p & ->). exists (String a p). reflexivity. Qed.

Lemma is_suffix_trans a b c : is_suffix a b -> is_suffix b c -> is_suffix a c.
Proof. intros (p & ->) (q & ->). exists (String.append q p). rewrite append_assoc. reflexivity. Qed.

Lemma alt1_suffix ok s v r : In (v, r) (alt1 ok s) -> is_suffix r s.
Proof.
  unfold alt1. destruct s as [|c s]; [intros []|].
  destruct (digit_val c); [|intros []]. destruct (ok z); [|intros []].
  intros [H|[]]. injection H as _ <-. apply is_suffix_tail, is_suffix_refl.
Qed.

Lemma alt2_suffix ok1 ok2 s v r : In (v, r) (alt2 ok1 ok2 s) -> is_suffix r s.
Proof.
  unfold alt2. intros ([a r1] & H1 & H2)%in_flat_map.
  apply in_map_iff in H2 as ([b r2] & Heq & H2). injection Heq as _ <-.
  eapply is_suffix_trans; eapply alt1_suffix; eassumption.
Qed.

Lemma fraction_suffix k : forall w acc s v r, In (v, r) (fraction k w acc s) -> is_suffix r s.
Proof.
  induction k as [|k IH]; intros w acc s v r; cbn [fraction].
  - intros [H|[]]. injection H as _ <-. apply is_suffix_refl.
  - destruct s as [|c s]; [intros [H|[]]; injection H as _ <-; apply is_suffix_refl|].
    destruct (digit_val c).
    + intros [H|[H|[]]]%in_app_iff.
      * apply is_suffix_tail. eapply IH. exact H.
      * injection H as _ <-. apply is_suffix_refl.
    + intros [H|[]]. injection H as _ <-. apply is_suffix_refl.
Qed.

Lemma candidates_suffix d s v r : In (v, r) (candidates d s) -> is_suffix r s.
Proof.
  destruct d; cbn [candidates].
  - intros ([a r1] & H1 & H2)%in_flat_map.
    apply in_map_iff in H2 as ([b r2] & Heq & H2). injection Heq as _ <-.
    eapply is_suffix_trans; eapply alt2_suffix; eassumption.
  - rewrite !in_app_iff. intros [H|[H|H]]; eauto using alt1_suffix, alt2_suffix.
  - rewrite !in_app_iff. intros [H|[H|[H|[H|H]]]]; eauto using alt1_suffix, alt2_suffix.
    unfold blank_then in H. destruct s as [|c s]; [destruct H|].
    destruct (Ascii.eqb_spec c " ") as [->|Hc].
    + apply is_suffix_tail. eapply alt1_suffix. exact H.
    + exfalso. revert H. destruct c as [[] [] [] [] [] [] [] []]; try (intros []); congruence.
  - rewrite !in_app_iff. intros [H|[H|H]]; eauto using alt1_suffix, alt2_suffix.
  - rewrite !in_app_iff. intros [H|H]; eauto using alt1_suffix, alt2_suffix.
  - rewrite !in_app_iff. intros [H|[H|H]]; eauto using alt1_suffix, alt2_suffix.
  - destruct s as [|c s]; [intros []|]. destruct (digit_val c); [|intros []].
    intros H. apply is_suffix_tail. eapply fraction_suffix. exact H.
  - destruct s as [|a s]; [intros []|].
    destruct (PyStr.ascii_eqb _ _); [|intros []].
    intros [H|[]]. injection H as _ <-. apply is_suffix_tail, is_suffix_refl.
Qed.

Lemma holds_suffix c r s : is_suffix r s -> holds c r = true -> holds c s = true.
Proof.
  intros (p & ->) Hr. induction p as [|a p IH]; step_append; [exact Hr|].
  cbn [holds]. rewrite IH. apply orb_true_r.
Qed.

(** A format matches only a text that holds each of its literal characters. *)
Lemma matches_needs_literal c fmt : In (Lit c) fmt ->
  forall s t x, In x (matches fmt s t) -> holds c s = true.
Proof.
  induction fmt as [|d fmt IH]; [intros []|].
  intros Hin s t x. cbn [matches]. intros ([v r] & Hc & Hm)%in_flat_map.
  destruct Hin as [-> | Hin].
  - cbn [candidates] in Hc. destruct s as [|a s]; [destruct Hc|].
    cbn [holds]. destruct (PyStr.ascii_eqb _ _); [reflexivity | destruct Hc].
  - eapply holds_suffix; [eapply candidates_suffix; exact Hc|].
    eapply IH; eassumption.
Qed.

Lemma strptime_needs_literal c fmt s :
  In (Lit c) fmt -> holds c s = false -> strptime s fmt = Raise ValueError.
Proof.
  intros Hin Hs. unfold strptime.
  destruct (matches fmt s DEFAULTS) as [|x tl] eqn:Hm; [reflexivity|].
  assert (holds c s = true) by (eapply (matches_needs_literal c fmt Hin s DEFAULTS x); rewrite Hm; left; reflexivity).
  congruence.
Qed.

Lemma holds_append c a b : holds c (String.append a b) = holds c a || holds c b.
Proof.
  induction a as [|x a IH]; step_append; cbn [holds]; [reflexivity|].
  rewrite IH. apply orb_assoc.
Qed.

Lemma lower_digit_char k : 0 <= k <= 9 -> PyStr.lower_char (digit_char k) = digit_char k.
Proof. intros H. by_cases_below k H 10%nat. Qed.

Lemma digit_char_not_letter c k :
  digit_val c = None -> digit_val (PyStr.lower_char c) = None -> 0 <= k <= 9 ->
  PyStr.ascii_eqb (PyStr.lower_char (digit_char k)) (PyStr.lower_char c) = false.
Proof.
  intros Hc Hl Hk. rewrite lower_digit_char by exact Hk.
  unfold PyStr.ascii_eqb. apply Ascii.eqb_neq. intros Heq. rewrite <- Heq in Hl.
  rewrite digit_val_char in Hl by exact Hk. discriminate.
Qed.

Lemma pad_holds c w :
  digit_val c = None -> digit_val (PyStr.lower_char c) = None ->
  forall n, holds c (pad w n) = false.
Proof.
  intros Hc Hl. induction w as [|w IH]; intros n; cbn [pad]; [reflexivity|].
  rewrite holds_append, IH. cbn [holds orb].
  rewrite digit_char_not_letter; [reflexivity | exact Hc | exact Hl |].
  pose proof (Z.mod_pos_bound n 10). lia.
Qed.

Lemma strptime_date t :
  valid_date (year t) (month t) (day t) = true ->
  strptime (padded FMT_DATE t) FMT_DATE = Ok (midnight t).
Proof.
  intros Hd. pose proof Hd as Hd'.
  apply valid_date_inv in Hd as (Hy & Hmo & Hday).
  pose proof (days_in_month_le_31 (is_leap (year t)) (month t)) as H31.
  unfold days_in_month in Hday.
  assert (Hhead : hd_error (matches FMT_DATE (padded FMT_DATE t) DEFAULTS)
                  = Some (midnight t, EmptyString)).
  { unfold FMT_DATE. cbn [padded render_padded].
    rewrite <- (append_empty_r (pad 2 (day t))) at 1.
    do 5 head_step. reflexivity. }
  unfold strptime.
  destruct (matches FMT_DATE (padded FMT_DATE t) DEFAULTS) as [|[x r] tl];
    cbn [hd_error] in Hhead; [discriminate|].
  injection Hhead as -> ->.
  assert (Hv : valid (midnight t) = true).
  { apply valid_intro; cbn [midnight year month day hour minute second microsecond];
      first [assumption | unfold US_PER_SECOND; lia]. }
  rewrite Hv. reflexivity.
Qed.

Lemma padded_date_clean c t :
  digit_val c = None -> PyStr.ascii_eqb "-" c = false ->
  PyStr.contains c (padded FMT_DATE t) = false.
Proof.
  intros Hc H1. unfold FMT_DATE. cbn [padded render_padded].
  rewrite !contains_append, !(pad_clean c) by exact Hc.
  cbn [PyStr.contains]. rewrite H1. reflexivity.
Qed.

(** A date written without a time of day is read as the start of that day. *)
Lemma parse_date_text t :
  valid_date (year t) (month t) (day t) = true ->
  parse_datetime (VStr (padded FMT_DATE t)) = Ok (Some (midnight t)).
Proof.
  intros Hd. unfold parse_datetime. cbn [truthy].
  assert (Hne : String.eqb (padded FMT_DATE t) EmptyString = false).
  { unfold FMT_DATE. cbn [padded render_padded pad]. rewrite !append_assoc. step_append. reflexivity. }
  rewrite Hne. cbn [negb].
  assert (Hs : strip_timezone (padded FMT_DATE t) = Ok (padded FMT_DATE t)).
  { unfold strip_timezone. rewrite !padded_date_clean by reflexivity. reflexivity. }
  rewrite Hs. cbn [rbind try_formats].
  rewrite (strptime_needs_literal "T" FMT_SECONDS).
  - rewrite (strptime_date t Hd). reflexivity.
  - cbn. tauto.
  - unfold FMT_DATE. cbn [padded render_padded]. rewrite !holds_append, !pad_holds by reflexivity.
    reflexivity.
Qed.

End DateTextFacts.

(** ** Times with a fraction of a second *)

Module MicrosFacts.
Import MonadFacts LoopFacts GenerateFacts IterationFacts InstanceFacts TextFacts
  TimezoneFacts AdvanceFacts InvariantFacts DTFacts ParseFacts ForwardFacts
  FormatFacts YearFacts DurationFacts SourceFacts EmptyFacts OutcomeFacts BatchFacts
  BatchOutcomeFacts BlindFacts BatchTopFacts TraceFacts ChainFacts OrderFacts
  ExpansionFacts OverflowFacts.
Import Calendar CalendarFacts DT ParseOutcomeFacts DateTextFacts.

Lemma head_fraction u rest :
  0 <= u < 1000000 ->
  hd_error (candidates Df (String.append (pad 6 u) rest)) = Some (u, rest).
Proof.
  intros Hu. cbn [pad]. rewrite !append_assoc. step_append.
  cbn [candidates].
  rewrite digit_val_char by (Z.div_mod_to_equations; lia).
  do 5 (cbn [fraction]; rewrite digit_val_char by (Z.div_mod_to_equations; lia)).
  cbn [fraction pred app hd_error]. do 2 f_equal. cbn. Z.div_mod_to_equations. lia.
Qed.

Lemma flat_map_comp {A B C} (f : B -> list C) (g : A -> list B) (l : list A) :
  flat_map f (flat_map g l) = flat_map (fun a => flat_map f (g a)) l.
Proof.
  induction l as [|a l IH]; cbn [flat_map]; [reflexivity|].
  rewrite flat_map_app, IH. reflexivity.
Qed.

Lemma matches_app fmt1 : forall fmt2 s t,
  matches (fmt1 ++ fmt2) s t
  = flat_map (fun '(x, r) => matches fmt2 r x) (matches fmt1 s t).
Proof.
  induction fmt1 as [|d fmt1 IH]; intros fmt2 s t; cbn [app matches flat_map].
  - rewrite app_nil_r. reflexivity.
  - rewrite flat_map_comp. apply flat_map_ext. intros [v r]. apply IH.
Qed.

Lemma padded_app fmt1 fmt2 t :
  padded (fmt1 ++ fmt2) t = String.append (padded fmt1 t) (padded fmt2 t).
Proof.
  induction fmt1 as [|d fmt1 IH]; cbn [app padded]; [reflexivity|].
  rewrite IH, append_assoc. reflexivity.
Qed.

(** The seconds format reads the front of any text that starts with what
    it wrote. *)
Lemma matches_seconds_head t rest :
  valid t = true ->
  hd_error (matches FMT_SECONDS (String.append (padded FMT_SECONDS t) rest) DEFAULTS)
  = Some (whole_second t, rest).
Proof.
  intros Hv. pose proof Hv as (Hd & Hh & Hm & Hs & Hu)%valid_inv.
  apply valid_date_inv in Hd as (Hy & Hmo & Hday).
  pose proof (days_in_month_le_31 (is_leap (year t)) (month t)) as H31.
  unfold days_in_month in Hday.
  unfold FMT_SECONDS. cbn [padded render_padded]. rewrite !append_assoc, append_nil.
  do 11 head_step. reflexivity.
Qed.

Lemma matches_date_head t rest :
  valid t = true ->
  hd_error (matches FMT_DATE (String.append (padded FMT_DATE t) rest) DEFAULTS)
  = Some (midnight t, rest).
Proof.
  intros Hv. pose proof Hv as (Hd & Hh & Hm & Hs & Hu)%valid_inv.
  apply valid_date_inv in Hd as (Hy & Hmo & Hday).
  pose proof (days_in_month_le_31 (is_leap (year t)) (month t)) as H31.
  unfold days_in_month in Hday.
  unfold FMT_DATE. cbn [padded render_padded]. rewrite !append_assoc, append_nil.
  do 5 head_step. reflexivity.
Qed.

Lemma strptime_trailing fmt s t a rest :
  hd_error (matches fmt s DEFAULTS) = Some (t, String a rest) ->
  strptime s fmt = Raise ValueError.
Proof.
  unfold strptime. destruct (matches fmt s DEFAULTS) as [|[x r] tl]; cbn [hd_error]; [discriminate|].
  intros H. injection H as -> ->. reflexivity.
Qed.

Lemma strptime_exact fmt s t :
  hd_error (matches fmt s DEFAULTS) = Some (t, EmptyString) -> valid t = true ->
  strptime s fmt = Ok t.
Proof.
  unfold strptime. destruct (matches fmt s DEFAULTS) as [|[x r] tl]; cbn [hd_error]; [discriminate|].
  intros H Hv. injection H as -> ->. rewrite Hv. reflexivity.
Qed.

Lemma hd_error_flat_map {A B} (f : A -> list B) (l : list A) a b :
  hd_error l = Some a -> hd_error (f a) = Some b -> hd_error (flat_map f l) = Some b.
Proof.
  destruct l as [|a' l]; cbn [hd_error]; [discriminate|]. intros H. injection H as ->.
  cbn [flat_map]. apply hd_error_app.
Qed.

Lemma store_micros t :
  store Df (microsecond t) (whole_second t) = t.
Proof. destruct t. reflexivity. Qed.

Lemma strptime_micros t :
  valid t = true ->
  strptime (padded FMT_MICROS t) FMT_MICROS = Ok t.
Proof.
  intros Hv. pose proof Hv as (Hd & Hh & Hm & Hs & Hu)%valid_inv.
  apply strptime_exact; [|exact Hv].
  unfold FMT_MICROS. rewrite padded_app, matches_app.
  eapply hd_error_flat_map; [apply matches_seconds_head; exact Hv|].
  cbn [padded render_padded]. rewrite append_empty_r.
  change (String.append (String "." EmptyString) (pad 6 (microsecond t)))
    with (String.append (String "." EmptyString) (pad 6 (microsecond t))).
  eapply matches_head; [apply head_literal|]. cbn [store].
  rewrite <- (append_empty_r (pad 6 (microsecond t))).
  eapply matches_head; [apply head_fraction; unfold US_PER_SECOND in Hu; lia|].
  rewrite store_micros. reflexivity.
Qed.

Lemma padded_micros_clean c t :
  digit_val c = None ->
  PyStr.ascii_eqb "-" c = false -> PyStr.ascii_eqb "T" c = false ->
  PyStr.ascii_eqb ":" c = false -> PyStr.ascii_eqb "." c = false ->
  PyStr.contains c (padded FMT_MICROS t) = false.
Proof.
  intros Hc H1 H2 H3 H4. unfold FMT_MICROS. rewrite padded_app, contains_append.
  rewrite padded_seconds_clean by assumption.
  cbn [padded render_padded]. rewrite !contains_append, !(pad_clean c) by exact Hc.
  cbn [PyStr.contains]. rewrite H4. reflexivity.
Qed.

Lemma micros_from_date t :
  exists tail, padded FMT_MICROS t = String.append (padded FMT_DATE t) (String "T" tail).
Proof.
  eexists. unfold FMT_MICROS, FMT_SECONDS, FMT_DATE. cbn [app padded render_padded].
  rewrite !append_assoc. reflexivity.
Qed.

(** A time written with its fraction is read back whole. *)
Lemma parse_micros_text t :
  valid t = true ->
  parse_datetime (VStr (padded FMT_MICROS t)) = Ok (Some t).
Proof.
  intros Hv. unfold parse_datetime. cbn [truthy].
  assert (Hne : String.eqb (padded FMT_MICROS t) EmptyString = false).
  { unfold FMT_MICROS. rewrite padded_app. apply padded_seconds_nonempty. }
  rewrite Hne. cbn [negb].
  assert (Hs : strip_timezone (padded FMT_MICROS t) = Ok (padded FMT_MICROS t)).
  { unfold strip_timezone. rewrite !padded_micros_clean by reflexivity. reflexivity. }
  rewrite Hs. cbn [rbind try_formats].
  assert (H1 : strptime (padded FMT_MICROS t) FMT_SECONDS = Raise ValueError).
  { unfold FMT_MICROS at 1. rewrite padded_app. cbn [padded render_padded].
    eapply strptime_trailing. rewrite append_cons. apply matches_seconds_head. exact Hv. }
  assert (H2 : strptime (padded FMT_MICROS t) FMT_DATE = Raise ValueError).
  { destruct (micros_from_date t) as (tail & ->).
    eapply strptime_trailing. apply matches_date_head. exact Hv. }
  rewrite H1, H2, (strptime_micros t Hv). reflexivity.
Qed.

End MicrosFacts.

Module EndDateFacts.
Import MonadFacts LoopFacts GenerateFacts IterationFacts InstanceFacts TextFacts
  TimezoneFacts AdvanceFacts InvariantFacts DTFacts ParseFacts ForwardFacts
  FormatFacts YearFacts DurationFacts SourceFacts EmptyFacts OutcomeFacts BatchFacts
  BatchOutcomeFacts BlindFacts BatchTopFacts TraceFacts ChainFacts OrderFacts
  ExpansionFacts OverflowFacts.
Import Calendar CalendarFacts DT ParseOutcomeFacts DateTextFacts.

Lemma le_midnight c e :
  valid c = true -> DT.le c (midnight e) = true ->
  year c = year e -> month c = month e -> day c = day e ->
  hour c = 0 /\ minute c = 0 /\ second c = 0 /\ microsecond c = 0.
Proof.
  intros (_ & Hh & Hm & Hs & Hu)%valid_inv. unfold DT.le, fields, midnight.
  cbn [year month day hour minute second microsecond lex_le].
  rewrite !orb_true_iff, !andb_true_iff, !orb_true_iff, !andb_true_iff.
  rewrite !Z.ltb_lt, !Z.eqb_eq. intuition lia.
Qed.

End EndDateFacts.


(** * The claims of the specification *)

Module Claims.
Import MonadFacts LoopFacts GenerateFacts IterationFacts InstanceFacts TextFacts
  TimezoneFacts AdvanceFacts InvariantFacts DTFacts ParseFacts ForwardFacts
  FormatFacts YearFacts DurationFacts SourceFacts NestedFacts TraceFacts ChainFacts
  OrderFacts ExpansionFacts.

(** C1 (evaluation): on the weekly event of the worked example the
    expander returns three instances, dated 07-01, 07-08 and 07-15, each
    one hour long; the occurrence of 07-22 at 09:00 is after the parsed
    end, midnight of 07-22, and is left out. *)
Theorem weekly_example_yields_three (uuid4 : nat -> string) (w : world) :
  map Samples.times <$> Samples.returned (generate_recurring_instances uuid4 Samples.weekly_july w)
  = Some [ (Some (VStr "2025-07-01T09:00:00+00:00"), Some (VStr "2025-07-01T10:00:00+00:00"));
           (Some (VStr "2025-07-08T09:00:00+00:00"), Some (VStr "2025-07-08T10:00:00+00:00"));
           (Some (VStr "2025-07-15T09:00:00+00:00"), Some (VStr "2025-07-15T10:00:00+00:00")) ].
Proof. vm_compute. reflexivity. Qed.

(** C2 (evaluation): a weekly event whose recurrence ends on the day it
    starts is expanded to the empty sequence. *)
Theorem one_day_recurrence_yields_nothing (uuid4 : nat -> string) (w : world) :
  generate_recurring_instances uuid4 Samples.weekly_one_day w
  = Some (Ok [], mk_world (draws w) (out w ++ [LGenerated 0 (VStr "Unknown")])).
Proof. vm_compute. reflexivity. Qed.

(** C3 (evaluation): a record whose recurrence is null makes the batch
    processor raise; the records after it are not processed and no list is
    returned. *)
Theorem null_recurrence_aborts_batch (uuid4 : nat -> string) (w : world) :
  expand_calendar_events uuid4 Samples.batch_with_null w
  = Some (Raise AttributeError, mk_world (draws w) ((out w ++ [LProcessing]) ++ [LInput 3])).
Proof. vm_compute. reflexivity. Qed.

(** C4 (counterexample): a daily master from 09:00:00.5 to 10:00:00 lasts
    3599.5 seconds; it is expanded to one instance whose serialised times,
    parsed again, are 09:00:00 and 10:00:00, a span of 3600 seconds. *)
Lemma half_second_changes_duration :
  expanded Samples.counting Samples.daily_half_second Samples.fresh
    [Samples.half_second_instance] (Samples.world_of Samples.daily_half_second_run)
  /\ instant_of Samples.daily_half_second "startTime"
     = Some (DT.mk_datetime 2025 7 1 9 0 0 500000)
  /\ instant_of Samples.daily_half_second "endTime"
     = Some (DT.mk_datetime 2025 7 1 10 0 0 0)
  /\ DT.sub (DT.mk_datetime 2025 7 1 10 0 0 0) (DT.mk_datetime 2025 7 1 9 0 0 500000)
     = 3599500000
  /\ instant_of Samples.half_second_instance "startTime"
     = Some (DT.mk_datetime 2025 7 1 9 0 0 0)
  /\ instant_of Samples.half_second_instance "endTime"
     = Some (DT.mk_datetime 2025 7 1 10 0 0 0)
  /\ DT.sub (DT.mk_datetime 2025 7 1 10 0 0 0) (DT.mk_datetime 2025 7 1 9 0 0 0)
     = 3600000000.
Proof.
  split; [exists "daily"|]; repeat split; vm_compute; reflexivity.
Qed.

(** C4 (amended): for every expanded master whose parsed start and end
    are in the year 1000 or later, the serialised start and end of every
    instance parse, and their difference is the difference of the master's
    parsed end and start each taken to the whole second; it is the
    master's duration itself when the master's start and end carry the
    same fraction of a second.  (Before the year 1000 the library writes
    the year with fewer than four digits, and the parser does not read
    it.) *)
Theorem duration_kept_to_the_second (uuid4 : nat -> string) (master_event : event)
    (w : world) (instances : list event) (w' : world) (start_dt end_dt : DT.datetime) :
  expanded uuid4 master_event w instances w' ->
  instant_of master_event "startTime" = Some start_dt ->
  instant_of master_event "endTime" = Some end_dt ->
  1000 <= DT.year start_dt ->
  1000 <= DT.year end_dt ->
  Forall (fun inst : event =>
            exists a b,
              instant_of inst "startTime" = Some a
              /\ instant_of inst "endTime" = Some b
              /\ DT.sub b a = DT.sub (whole_second end_dt) (whole_second start_dt))
         instances
  /\ (DT.microsecond start_dt = DT.microsecond end_dt ->
      DT.sub (whole_second end_dt) (whole_second start_dt) = DT.sub end_dt start_dt).
Proof.
  intros (s & tz & sd & ed & curs & Htz & Hs & He & Hvs & Hve & HF)%expanded_spans
    Hs' He' Hys Hye.
  rewrite Hs in Hs'. injection Hs' as <-. rewrite He in He'. injection He' as <-.
  split.
  - eapply (Forall_transfer _ (fun _ => True)); [| exact HF | apply Forall_true; trivial].
    cbv beta. intros c inst ((w0 & w2 & Hmk) & Hvc & Hus & Hle) _.
    apply make_instance_inv in Hmk as (iend & tz' & Hadd & Htz' & Hst & Hen & _).
    rewrite Htz in Htz'. injection Htz' as <-.
    destruct (serialised_span c sd ed iend Hvc Hvs Hve Hus Hadd) as [Hvi Hspan].
    assert (Hyc : 1000 <= DT.year c).
    { pose proof (year_mono_micros sd c Hvs Hvc Hle). lia. }
    assert (Hyi : 1000 <= DT.year iend).
    { apply add_Ok in Hadd as [_ Ht]. unfold DT.sub in Ht.
      pose proof (year_mono_micros ed iend Hve Hvi ltac:(lia)). lia. }
    exists (whole_second c), (whole_second iend).
    unfold instant_of, get. rewrite Hst, Hen.
    rewrite (parse_serialised c s tz Hvc Hyc Htz), (parse_serialised iend s tz Hvi Hyi Htz).
    repeat split. exact Hspan.
  - intros Hus. unfold DT.sub. rewrite !to_micros_whole_second. lia.
Qed.

Lemma duration_kept_to_the_second_witness :
  Forall (fun inst : event =>
            exists a b,
              instant_of inst "startTime" = Some a
              /\ instant_of inst "endTime" = Some b
              /\ DT.sub b a
                 = DT.sub (whole_second (DT.mk_datetime 2025 7 1 10 0 0 0))
                     (whole_second (DT.mk_datetime 2025 7 1 9 0 0 0)))
         (Samples.instances_of Samples.weekly_july_run)
  /\ (DT.microsecond (DT.mk_datetime 2025 7 1 9 0 0 0)
      = DT.microsecond (DT.mk_datetime 2025 7 1 10 0 0 0) ->
      DT.sub (whole_second (DT.mk_datetime 2025 7 1 10 0 0 0))
        (whole_second (DT.mk_datetime 2025 7 1 9 0 0 0))
      = DT.sub (DT.mk_datetime 2025 7 1 10 0 0 0) (DT.mk_datetime 2025 7 1 9 0 0 0)).
Proof.
  apply (duration_kept_to_the_second Samples.counting Samples.weekly_july Samples.fresh
           (Samples.instances_of Samples.weekly_july_run)
           (Samples.world_of Samples.weekly_july_run)).
  - exists "weekly". repeat split; vm_compute; reflexivity.
  - vm_compute. reflexivity.
  - vm_compute. reflexivity.
  - vm_compute. discriminate.
  - vm_compute. discriminate.
Defined.

(** C5: for every master event the expansion loop ends (the fuel given to
    it is never exhausted, so the expander returns or raises), and a
    returned sequence has at most 100 elements. *)
Theorem expansion_ends_within_cap (uuid4 : nat -> string) (master_event : event) (w : world) :
  (forall recurrence start_time_str duration recurrence_end start,
      is_Some (expansion_loop uuid4 MAX_INSTANCES master_event recurrence start_time_str
                 duration recurrence_end start 0 [] w))
  /\ exists r w',
       generate_recurring_instances uuid4 master_event w = Some (r, w')
       /\ forall l, r = Ok l -> (length l <= 100)%nat.
Proof.
  split.
  - intros. apply expansion_loop_total. lia.
  - destruct (generate_total uuid4 master_event w) as [[r w'] H].
    exists r, w'. split; [exact H|].
    intros l ->. apply generate_length in H. exact H.
Qed.

(** C6: the start and end of every instance of an expanded master end
    with the timezone literal taken from the master's startTime: the sign
    and the offset after it when the text holds one, else "Z" when it holds
    one, else "+00:00". *)
Theorem timezone_literal_round_trips (uuid4 : nat -> string) (master_event : event)
    (w : world) (instances : list event) (w' : world) :
  expanded uuid4 master_event w instances w' ->
  exists s tz,
    get master_event "startTime" (VStr EmptyString) = VStr s
    /\ tz_suffix (VStr s) = Ok tz
    /\ Forall (fun inst : event =>
                 exists a b,
                   inst !! "startTime" = Some (VStr (String.append a tz))
                   /\ inst !! "endTime" = Some (VStr (String.append b tz)))
              instances
    /\ (forall pre off more,
           s = String.append pre (String "+" (String.append off more)) ->
           PyStr.contains "+" pre = false ->
           PyStr.contains "+" off = false ->
           more = EmptyString \/ (exists r, more = String "+" r) ->
           tz = String "+" off)
    /\ (PyStr.contains "+" s = false -> PyStr.contains "Z" s = true -> tz = "Z")
    /\ (PyStr.contains "+" s = false -> PyStr.contains "Z" s = false -> tz = "+00:00").
Proof.
  intros (recurrence & _ & _ & _ & Hbody).
  apply expand_body_inv in Hbody as (sd & ed & rd & w1 & Hs & _ & _ & Hit & _).
  destruct (parse_datetime_text _ _ Hs) as (s & Hstr).
  destruct (tz_suffix_text s) as (tz & Htz).
  exists s, tz. rewrite Hstr in Hit.
  split; [exact Hstr|]. split; [exact Htz|]. split; [|split; [|split]].
  - eapply (iterations_Forall _ _ _ _ _ _ (fun _ => True)); [| | exact Hit | exact I].
    + intros cur w0 inst w2 _ Hmk.
      apply make_instance_inv in Hmk as (iend & tz' & _ & Htz' & Hst & Hen & _).
      rewrite Htz in Htz'. injection Htz' as <-. eauto.
    + intros; exact I.
  - intros pre off more -> Hpre Hoff Hmore.
    rewrite (tz_suffix_offset pre off more Hpre Hoff Hmore) in Htz. congruence.
  - intros Hp Hz. rewrite (tz_suffix_zulu s Hp Hz) in Htz. congruence.
  - intros Hp Hz. rewrite (tz_suffix_default s Hp Hz) in Htz. congruence.
Qed.

Lemma timezone_literal_round_trips_witness :
  exists s tz,
    get Samples.weekly_july "startTime" (VStr EmptyString) = VStr s
    /\ tz_suffix (VStr s) = Ok tz
    /\ Forall (fun inst : event =>
                 exists a b,
                   inst !! "startTime" = Some (VStr (String.append a tz))
                   /\ inst !! "endTime" = Some (VStr (String.append b tz)))
              (Samples.instances_of Samples.weekly_july_run)
    /\ (forall pre off more,
           s = String.append pre (String "+" (String.append off more)) ->
           PyStr.contains "+" pre = false ->
           PyStr.contains "+" off = false ->
           more = EmptyString \/ (exists r, more = String "+" r) ->
           tz = String "+" off)
    /\ (PyStr.contains "+" s = false -> PyStr.contains "Z" s = true -> tz = "Z")
    /\ (PyStr.contains "+" s = false -> PyStr.contains "Z" s = false -> tz = "+00:00").
Proof.
  apply (timezone_literal_round_trips Samples.counting Samples.weekly_july Samples.fresh
           (Samples.instances_of Samples.weekly_july_run)
           (Samples.world_of Samples.weekly_july_run)).
  exists "weekly". repeat split; vm_compute; reflexivity.
Defined.

(** C7: an event whose recurrence is absent, or is "none" in any letter
    case, expands to the one-element sequence holding the event itself,
    and nothing is printed or drawn. *)
Theorem identity_law (uuid4 : nat -> string) (e : event) (w : world) :
  (e !! "recurrence" = None
   \/ exists s, e !! "recurrence" = Some (VStr s) /\ PyStr.lower s = "none") ->
  generate_recurring_instances uuid4 e w = Some (Ok [e], w).
Proof.
  intros [Habs | (s & Hs & Hnone)]; unfold generate_recurring_instances, get.
  - rewrite Habs. reflexivity.
  - rewrite Hs. cbn [str_lower]. rewrite Hnone. reflexivity.
Qed.

Lemma identity_law_witness :
  generate_recurring_instances (fun _ => EmptyString)
    (<["title" := VStr "Stand-up"]> {["recurrence" := VStr "NoNe"]}) (mk_world 0 [])
  = Some (Ok [<["title" := VStr "Stand-up"]> {["recurrence" := VStr "NoNe"]}], mk_world 0 []).
Proof.
  apply identity_law. right. exists "NoNe". split; reflexivity.
Defined.




(** C9 (counterexample): an array of one entry is parsed when it is the
    whole text, but inside markup the pattern between two entries is not
    found and the extraction raises. *)
Lemma single_entry_in_markup_is_lost :
  extract string Samples.as_text Samples.one_entry = Ok Samples.one_entry
  /\ PyStr.startswith "[" (PyStr.strip (Samples.in_markup Samples.one_entry)) = false
  /\ find BOUNDARY (Samples.in_markup Samples.one_entry) = None
  /\ extract string Samples.as_text (Samples.in_markup Samples.one_entry) = Raise ValueError.
Proof. repeat split; vm_compute; reflexivity. Qed.

(** C9 (amended): a text whose trimmed form begins with the opening
    bracket is handed whole to the JSON parser.  An array text
    [ "[" body "]" ] whose body has its square brackets paired (arrays
    inside the entries are allowed), begins with a title-led entry, holds
    the pattern between two entries and holds no other start of a
    title-led array up to the first such pattern, placed after markup
    that does not hold that pattern and before any text at all, in a
    whole that does not trim to a text beginning with the opening
    bracket, is cut out exactly and parsed. *)
Theorem extract_pure_and_embedded (J : Type) (json_loads : string -> result J) :
  (forall content,
      PyStr.startswith "[" (PyStr.strip content) = true ->
      extract J json_loads content = json_loads content)
  /\ (forall (pre body post : string) (q : nat),
        balanced body = true ->
        PyStr.startswith TITLE_KEY body = true ->
        find BOUNDARY body = Some q ->
        find ARRAY_START (PyStr.take (q + 10) body) = None ->
        find BOUNDARY pre = None ->
        PyStr.startswith "["
          (PyStr.strip (String.append pre (String "[" (String.append body (String "]" post)))))
        = false ->
        extract J json_loads
          (String.append pre (String "[" (String.append body (String "]" post))))
        = json_loads (String "[" (String.append body "]"))).
Proof.
  split.
  - intros content H. unfold extract, extract_text. rewrite H. reflexivity.
  - intros pre body post q Hb Ht Hq Hno Hpre Hstrip. unfold extract.
    rewrite (extract_text_nested pre body post q Hb Ht Hq Hno Hpre Hstrip). reflexivity.
Qed.

Lemma extract_pure_and_embedded_witness :
  extract string Samples.as_text Samples.nested_in_markup
  = Samples.as_text (String "[" (String.append Samples.nested_body "]")).
Proof.
  refine (proj2 (extract_pure_and_embedded string Samples.as_text)
            "<html><pre>" Samples.nested_body "</pre>[1]</html>" 27%nat _ _ _ _ _ _);
    vm_compute; reflexivity.
Defined.

(** C10: the recurringMasterId of an instance is the master's uid when the
    master has one, the same for all its instances; when it has none, the
    value is made from a UUID drawn in that very iteration (the second of
    the two the iteration draws), so that the instances of one master
    differ wherever the draws differ, as they do for the counting source
    on the weekly sample, whose instances get the draws 1, 3 and 5. *)
Theorem master_id_drawn_per_instance :
  (forall (uuid4 : nat -> string) (master_event : event) (w : world)
          (instances : list event) (w' : world),
      expanded uuid4 master_event w instances w' ->
      (master_event !! "iCalUld" = None ->
       forall (i : nat) (inst : event),
         instances !! i = Some inst ->
         inst !! "recurringMasterId"
         = Some (VStr (String.append "master_"
                         (PyStr.take 8 (uuid4 (draws w + 2 * i + 1)%nat)))))
      /\ (forall v, master_event !! "iCalUld" = Some v ->
          Forall (fun inst : event => inst !! "recurringMasterId" = Some v) instances))
  /\ Samples.weekly_july !! "iCalUld" = None
  /\ map Samples.master_id (Samples.instances_of Samples.weekly_july_run)
     = [ Some (VStr "master_00000001"); Some (VStr "master_00000003");
         Some (VStr "master_00000005") ].
Proof.
  split.
  - intros uuid4 master_event w instances w' (recurrence & _ & _ & _ & Hbody).
    apply expand_body_inv in Hbody as (sd & ed & rd & w1 & _ & _ & _ & Hit & _).
    split.
    + intros Hnone i inst Hi.
      rewrite (iterations_master_id _ _ _ _ _ _ _ _ _ _ _ Hit i inst Hi).
      unfold draws_per_instance, get. rewrite Hnone. cbn [truthy].
      repeat f_equal. lia.
    + intros v Hv. apply Forall_lookup. intros i inst Hi.
      rewrite (iterations_master_id _ _ _ _ _ _ _ _ _ _ _ Hit i inst Hi).
      unfold get. rewrite Hv. reflexivity.
  - split; vm_compute; reflexivity.
Qed.

Lemma master_id_drawn_per_instance_witness :
  Samples.second_instance !! "recurringMasterId"
  = Some (VStr (String.append "master_" (PyStr.take 8 (Samples.counting 3)))).
Proof.
  assert (Hexp : expanded Samples.counting Samples.weekly_july Samples.fresh
                   (Samples.instances_of Samples.weekly_july_run)
                   (Samples.world_of Samples.weekly_july_run))
    by (exists "weekly"; repeat split; vm_compute; reflexivity).
  apply (proj1 (proj1 master_id_drawn_per_instance _ _ _ _ _ Hexp)
           ltac:(vm_compute; reflexivity) 1%nat).
  unfold Samples.second_instance.
  assert (Hlen : (1 <? length (Samples.instances_of Samples.weekly_july_run))%nat = true)
    by (vm_compute; reflexivity).
  apply Nat.ltb_lt in Hlen.
  destruct (lookup_lt_is_Some_2 _ _ Hlen) as [x Hx]. rewrite Hx. reflexivity.
Defined.

End Claims.

(** * Further properties of the program *)

Module Extras.
Import MonadFacts LoopFacts GenerateFacts IterationFacts InstanceFacts TextFacts
  TimezoneFacts AdvanceFacts InvariantFacts DTFacts ParseFacts ForwardFacts
  FormatFacts YearFacts DurationFacts SourceFacts EmptyFacts OutcomeFacts BatchFacts
  BatchOutcomeFacts BlindFacts BatchTopFacts TraceFacts ChainFacts OrderFacts
  ExpansionFacts OverflowFacts ParseOutcomeFacts DateTextFacts MicrosFacts
  EndDateFacts PrintFacts NestedFacts.
Import Calendar CalendarFacts DT.

(** X1: the expander lets out two exceptions only.  With a recurrence
    that is absent or text it returns a list whenever it can print about
    the record (its title, and the date text an error message would
    quote, hold no surrogate); with a recurrence that is there and is not
    text it raises AttributeError before it has printed or drawn
    anything; and an exception it lets out is that AttributeError or the
    UnicodeEncodeError of a line that could not be printed. *)
Theorem expander_raises_only_when_untyped_or_unprintable (uuid4 : nat -> string)
    (master_event : event) (w : world) :
  (master_event !! "recurrence" = None
   \/ (exists s, master_event !! "recurrence" = Some (VStr s)) ->
   printable master_event = true ->
   exists l w', generate_recurring_instances uuid4 master_event w = Some (Ok l, w'))
  /\ (forall v, master_event !! "recurrence" = Some v -> (forall s, v <> VStr s) ->
      generate_recurring_instances uuid4 master_event w = Some (Raise AttributeError, w))
  /\ (forall e w', generate_recurring_instances uuid4 master_event w = Some (Raise e, w') ->
      e = AttributeError
      \/ (e = UnicodeEncodeError /\ printable master_event = false)).
Proof.
  pose proof (generate_outcome uuid4 master_event w) as H. unfold get in H.
  split; [|split].
  - intros [Hn | (s & Hs)] Hp; [rewrite Hn in H | rewrite Hs in H];
      (destruct H as [H | [Hno _]]; [exact H | congruence]).
  - intros v Hv Hnot. rewrite Hv in H. destruct v; try exact H.
    exfalso. eapply Hnot. reflexivity.
  - intros e w' Hr.
    destruct (master_event !! "recurrence") as [[| | |s| |]|];
      try (rewrite H in Hr; injection Hr as <- _; left; reflexivity);
      (destruct H as [(l & w1 & H) | (Hno & w1 & H)]; rewrite H in Hr;
       [discriminate | injection Hr as <- _; right; split; [reflexivity | exact Hno]]).
Qed.

Lemma expander_raises_only_when_untyped_or_unprintable_witness :
  (exists l w',
     generate_recurring_instances Samples.counting Samples.fortnightly_numbered Samples.fresh
     = Some (Ok l, w'))
  /\ (UnicodeEncodeError = AttributeError
      \/ (UnicodeEncodeError = UnicodeEncodeError
          /\ printable Samples.weekly_unprintable = false)).
Proof.
  split.
  - apply (proj1 (expander_raises_only_when_untyped_or_unprintable Samples.counting
                    Samples.fortnightly_numbered Samples.fresh)).
    + right. exists "fortnightly". vm_compute. reflexivity.
    + vm_compute. reflexivity.
  - apply (proj2 (proj2 (expander_raises_only_when_untyped_or_unprintable Samples.counting
                           Samples.weekly_unprintable Samples.fresh))
             UnicodeEncodeError Samples.fresh).
    vm_compute. reflexivity.
Defined.

(** X2: whatever the expander returns is either the master alone,
    untouched, or the instances of an expansion that ran to its end. *)
Theorem expander_returns_master_or_instances (uuid4 : nat -> string)
    (master_event : event) (w : world) (l : list event) (w' : world) :
  generate_recurring_instances uuid4 master_event w = Some (Ok l, w') ->
  l = [master_event] \/ expanded uuid4 master_event w l w'.
Proof. apply generate_master_or_expanded. Qed.

Lemma expander_returns_master_or_instances_witness :
  [Samples.fortnightly_numbered] = [Samples.fortnightly_numbered]
  \/ expanded Samples.counting Samples.fortnightly_numbered Samples.fresh
       [Samples.fortnightly_numbered] (mk_world 0 [LError (VInt 5)]).
Proof.
  apply (expander_returns_master_or_instances Samples.counting Samples.fortnightly_numbered
           Samples.fresh [Samples.fortnightly_numbered] (mk_world 0 [LError (VInt 5)])).
  reflexivity.
Defined.

(** X3: a recurring master in which startTime, endTime or
    recurrenceEndDate is absent, empty or null is returned alone and
    unchanged, with one line that says it was skipped, when its title can
    be encoded; when it cannot, the line is not printed and the
    UnicodeEncodeError leaves the expander, which returns nothing.  No
    UUID is drawn either way. *)
Theorem missing_field_passes_master_through (uuid4 : nat -> string)
    (master_event : event) (w : world) (recurrence : string) :
  str_lower (get master_event "recurrence" (VStr EmptyString)) = Ok recurrence ->
  String.eqb recurrence "none" = false ->
  String.eqb recurrence EmptyString = false ->
  truthy (get master_event "startTime" (VStr EmptyString)) = false
  \/ truthy (get master_event "endTime" (VStr EmptyString)) = false
  \/ truthy (get master_event "recurrenceEndDate" (VStr EmptyString)) = false ->
  generate_recurring_instances uuid4 master_event w
  = if PyStr.encodable (py_str (get master_event "title" (VStr "Unknown")))
    then Some (Ok [master_event],
               mk_world (draws w)
                 (out w ++ [LSkipping (get master_event "title" (VStr "Unknown"))]))
    else Some (Raise UnicodeEncodeError, w).
Proof.
  intros Hrec Hn He Hf.
  assert (Hall : truthy (get master_event "startTime" (VStr EmptyString))
                 && truthy (get master_event "endTime" (VStr EmptyString))
                 && truthy (get master_event "recurrenceEndDate" (VStr EmptyString)) = false).
  { destruct Hf as [Hf | [Hf | Hf]]; rewrite Hf; rewrite ?andb_false_r; reflexivity. }
  destruct (PyStr.encodable (py_str (get master_event "title" (VStr "Unknown")))) eqn:Ht.
  - apply (generate_skips_missing _ _ _ recurrence Hrec Hn He Hall Ht).
  - apply (generate_skip_unprintable _ _ _ recurrence Hrec Hn He Hall Ht).
Qed.

Lemma missing_field_passes_master_through_witness :
  generate_recurring_instances Samples.counting Samples.weekly_open_ended Samples.fresh
  = (if PyStr.encodable (py_str (get Samples.weekly_open_ended "title" (VStr "Unknown")))
     then Some (Ok [Samples.weekly_open_ended],
                mk_world (draws Samples.fresh)
                  (out Samples.fresh
                   ++ [LSkipping (get Samples.weekly_open_ended "title" (VStr "Unknown"))]))
     else Some (Raise UnicodeEncodeError, Samples.fresh))
  /\ generate_recurring_instances Samples.counting Samples.weekly_unprintable Samples.fresh
     = (if PyStr.encodable (py_str (get Samples.weekly_unprintable "title" (VStr "Unknown")))
        then Some (Ok [Samples.weekly_unprintable],
                   mk_world (draws Samples.fresh)
                     (out Samples.fresh
                      ++ [LSkipping (get Samples.weekly_unprintable "title" (VStr "Unknown"))]))
        else Some (Raise UnicodeEncodeError, Samples.fresh)).
Proof.
  split.
  - apply (missing_field_passes_master_through Samples.counting Samples.weekly_open_ended
             Samples.fresh "weekly"); try (vm_compute; reflexivity).
    right. right. vm_compute. reflexivity.
  - apply (missing_field_passes_master_through Samples.counting Samples.weekly_unprintable
             Samples.fresh "weekly"); try (vm_compute; reflexivity).
    right. right. vm_compute. reflexivity.
Defined.

(** X4: a recurring master whose three dates are present, each ASCII
    text or no text at all, one of which cannot be parsed, and whose
    title can be encoded, is returned alone and unchanged, with one error
    line; no UUID is drawn. *)
Theorem unparseable_date_passes_master_through (uuid4 : nat -> string)
    (master_event : event) (w : world) (recurrence : string) :
  str_lower (get master_event "recurrence" (VStr EmptyString)) = Ok recurrence ->
  String.eqb recurrence "none" = false ->
  String.eqb recurrence EmptyString = false ->
  truthy (get master_event "startTime" (VStr EmptyString)) = true ->
  truthy (get master_event "endTime" (VStr EmptyString)) = true ->
  truthy (get master_event "recurrenceEndDate" (VStr EmptyString)) = true ->
  plain_value (get master_event "startTime" (VStr EmptyString)) = true ->
  plain_value (get master_event "endTime" (VStr EmptyString)) = true ->
  plain_value (get master_event "recurrenceEndDate" (VStr EmptyString)) = true ->
  PyStr.encodable (py_str (get master_event "title" (VStr "Unknown"))) = true ->
  (exists x, parse_datetime (get master_event "startTime" (VStr EmptyString)) = Raise x)
  \/ (exists x, parse_datetime (get master_event "endTime" (VStr EmptyString)) = Raise x)
  \/ (exists x,
        parse_datetime (get master_event "recurrenceEndDate" (VStr EmptyString)) = Raise x) ->
  generate_recurring_instances uuid4 master_event w
  = Some (Ok [master_event],
          mk_world (draws w) (out w ++ [LError (get master_event "title" (VStr "Unknown"))])).
Proof.
  intros Hrec Hn He Hs Hend Hr Ps Pe Pr Ht Hp.
  apply (generate_passes_unparseable _ _ _ recurrence Hrec Hn He); [|exact Hp|].
  - rewrite Hs, Hend, Hr. reflexivity.
  - apply printable_plain; assumption.
Qed.

Lemma unparseable_date_passes_master_through_witness :
  generate_recurring_instances Samples.counting Samples.weekly_minus_offset Samples.fresh
  = Some (Ok [Samples.weekly_minus_offset],
          mk_world (draws Samples.fresh)
            (out Samples.fresh
             ++ [LError (get Samples.weekly_minus_offset "title" (VStr "Unknown"))])).
Proof.
  apply (unparseable_date_passes_master_through Samples.counting Samples.weekly_minus_offset
           Samples.fresh "weekly"); try (vm_compute; reflexivity).
  left. exists ValueError. vm_compute. reflexivity.
Defined.

(** X5: on an input about whose records the expander can print, the
    batch processor returns a list exactly when every record it does not
    skip has a recurrence that is absent or text, and otherwise raises
    AttributeError and returns nothing; on any input, an exception it
    lets out is AttributeError or UnicodeEncodeError. *)
Theorem batch_returns_iff_recurrences_are_text (uuid4 : nat -> string)
    (input_data : list item) (w : world) :
  (forallb item_printable input_data = true ->
   if forallb recurrence_is_text input_data
   then exists l w', expand_calendar_events uuid4 input_data w = Some (Ok l, w')
   else exists w', expand_calendar_events uuid4 input_data w
                   = Some (Raise AttributeError, w'))
  /\ (forall e w', expand_calendar_events uuid4 input_data w = Some (Raise e, w') ->
      e = AttributeError \/ e = UnicodeEncodeError).
Proof.
  rewrite expand_calendar_events_unfold. split.
  - intros Hpr. destruct (forallb recurrence_is_text input_data) eqn:Hall.
    + destruct (process_events_ok uuid4 input_data Hall Hpr 0%nat []
                  (entered w (length input_data))) as ([n l] & w' & ->). eauto.
    + destruct (process_events_raise uuid4 input_data Hall Hpr 0%nat []
                  (entered w (length input_data))) as (w' & ->). eauto.
  - intros e w'.
    destruct (process_events uuid4 input_data 0 [] _) as [[[[n l]|e0] w0]|] eqn:Hp;
      intros H; try discriminate.
    injection H as <- _. eapply process_events_raises_only. exact Hp.
Qed.

Lemma batch_returns_iff_recurrences_are_text_witness :
  (if forallb recurrence_is_text Samples.mixed_batch
   then exists l w',
          expand_calendar_events Samples.counting Samples.mixed_batch Samples.fresh
          = Some (Ok l, w')
   else exists w',
          expand_calendar_events Samples.counting Samples.mixed_batch Samples.fresh
          = Some (Raise AttributeError, w'))
  /\ (if forallb recurrence_is_text Samples.batch_with_null
      then exists l w',
             expand_calendar_events Samples.counting Samples.batch_with_null Samples.fresh
             = Some (Ok l, w')
      else exists w',
             expand_calendar_events Samples.counting Samples.batch_with_null Samples.fresh
             = Some (Raise AttributeError, w')).
Proof.
  split.
  - apply (proj1 (batch_returns_iff_recurrences_are_text Samples.counting Samples.mixed_batch
                    Samples.fresh)). vm_compute. reflexivity.
  - apply (proj1 (batch_returns_iff_recurrences_are_text Samples.counting
                    Samples.batch_with_null Samples.fresh)). vm_compute. reflexivity.
Defined.

(** X6: when no record of the input is recurring, the batch processor
    returns the records themselves, unchanged and in their order, without
    the entries it skips (null, other values, empty records); it draws no
    UUID and prints its four lines. *)
Theorem batch_keeps_plain_records (uuid4 : nat -> string) (input_data : list item)
    (w : world) :
  forallb not_recurring input_data = true ->
  expand_calendar_events uuid4 input_data w
  = Some (Ok (omap record_of input_data),
          left_batch (entered w (length input_data)) 0
            (length (omap record_of input_data))).
Proof.
  intros Hall. rewrite expand_calendar_events_unfold.
  rewrite (process_events_identity uuid4 input_data Hall). reflexivity.
Qed.

Lemma batch_keeps_plain_records_witness :
  expand_calendar_events Samples.counting Samples.plain_batch Samples.fresh
  = Some (Ok (omap record_of Samples.plain_batch),
          left_batch (entered Samples.fresh (length Samples.plain_batch)) 0
            (length (omap record_of Samples.plain_batch))).
Proof.
  apply (batch_keeps_plain_records Samples.counting Samples.plain_batch Samples.fresh).
  vm_compute. reflexivity.
Defined.

(** X7: the batch processor returns at most 100 records for each entry of
    its input. *)
Theorem batch_output_is_bounded (uuid4 : nat -> string) (input_data : list item)
    (w : world) (l : list event) (w' : world) :
  expand_calendar_events uuid4 input_data w = Some (Ok l, w') ->
  (length l <= 100 * length input_data)%nat.
Proof.
  rewrite expand_calendar_events_unfold.
  destruct (process_events uuid4 input_data 0 [] _) as [[[[n l0]|e] w0]|] eqn:Hp;
    intros H; try discriminate.
  injection H as <- _. apply process_events_length in Hp as [Hp _].
  cbn [length] in Hp. exact Hp.
Qed.

Lemma batch_output_is_bounded_witness :
  (length (Samples.instances_of Samples.mixed_run) <= 100 * length Samples.mixed_batch)%nat.
Proof.
  apply (batch_output_is_bounded Samples.counting Samples.mixed_batch Samples.fresh
           (Samples.instances_of Samples.mixed_run) (Samples.world_of Samples.mixed_run)).
  reflexivity.
Defined.

(** X9: the output for two inputs one after the other is the output for
    the first followed by the output for the second, the second being run
    in the world the first leaves. *)
Theorem batch_of_concatenation (uuid4 : nat -> string) (xs ys : list item)
    (w w1 w2 : world) (a b : list event) :
  expand_calendar_events uuid4 xs w = Some (Ok a, w1) ->
  expand_calendar_events uuid4 ys w1 = Some (Ok b, w2) ->
  exists w3,
    expand_calendar_events uuid4 (xs ++ ys) w = Some (Ok (a ++ b), w3)
    /\ draws w3 = draws w2.
Proof.
  rewrite !expand_calendar_events_unfold.
  destruct (process_events uuid4 xs 0 [] (entered w (length xs)))
    as [[[[n1 a0]|e] wa]|] eqn:Hx; intros H1; try discriminate.
  injection H1 as <- <-.
  destruct (process_events uuid4 ys 0 [] (entered (left_batch wa n1 (length a0)) (length ys)))
    as [[[[n2 b0]|e] wb]|] eqn:Hy; intros H2; try discriminate.
  injection H2 as <- <-.
  destruct (blind_same_draws _ (entered w (length xs)) (entered w (length (xs ++ ys))) _ _
              (blind_process_events uuid4 xs 0%nat []) eq_refl Hx) as (wa' & Hx' & Hda).
  destruct (blind_same_draws _ (entered (left_batch wa n1 (length a0)) (length ys)) wa' _ _
              (blind_process_events uuid4 ys 0%nat []) (eq_sym Hda) Hy) as (wb' & Hy' & Hdb).
  destruct (process_events_shift _ _ _ _ _ _ _ _ Hy') as (k & added & Hk & Hadd & Hall).
  cbn [app] in Hadd. subst added. rewrite Nat.add_0_l in Hk. subst k.
  rewrite process_events_app, Hx', (Hall n1 a0).
  eexists. split; [reflexivity|]. cbn [left_batch draws]. exact Hdb.
Qed.

Lemma batch_of_concatenation_witness :
  exists w3,
    expand_calendar_events Samples.counting (Samples.mixed_batch ++ Samples.mixed_batch)
      Samples.fresh
    = Some (Ok (Samples.instances_of Samples.mixed_run
                ++ Samples.instances_of Samples.mixed_rerun), w3)
    /\ draws w3 = draws (Samples.world_of Samples.mixed_rerun).
Proof.
  apply (batch_of_concatenation Samples.counting Samples.mixed_batch Samples.mixed_batch
           Samples.fresh (Samples.world_of Samples.mixed_run)
           (Samples.world_of Samples.mixed_rerun)
           (Samples.instances_of Samples.mixed_run)
           (Samples.instances_of Samples.mixed_rerun));
    reflexivity.
Defined.

(** X10: every instance of an expanded master is marked as a recurring
    instance, holds all five keys of its own (startTime, endTime, iCalUld,
    isRecurringInstance, recurringMasterId), and agrees with the master on
    every other key, present or absent. *)
Theorem instances_keep_other_fields (uuid4 : nat -> string) (master_event : event)
    (w : world) (instances : list event) (w' : world) :
  expanded uuid4 master_event w instances w' ->
  Forall (fun inst : event =>
            inst !! "isRecurringInstance" = Some (VBool true)
            /\ (forall k, k ∈ OVERRIDDEN -> is_Some (inst !! k))
            /\ (forall k, k ∉ OVERRIDDEN -> inst !! k = master_event !! k))
         instances.
Proof.
  intros (recurrence & s & tz & sd & ed & rd & curs & _ & _ & _ & _ & HF & _)%expanded_occurrences.
  eapply (Forall_transfer _ (fun _ => True)); [| exact HF | apply Forall_true; trivial].
  cbv beta. intros c inst [(w0 & w1 & Hmk) _] _.
  pose proof (make_instance_others _ _ _ _ _ _ _ _ Hmk) as Hothers.
  pose proof (make_instance_uid _ _ _ _ _ _ _ _ Hmk) as (p & _ & Hid).
  apply make_instance_inv in Hmk as (iend & tz' & _ & _ & Hst & Hen & Hflag & Hmid & _).
  split; [exact Hflag|]. split; [|exact Hothers].
  intros k Hk. unfold OVERRIDDEN in Hk.
  apply elem_of_cons in Hk as [-> | Hk]; [rewrite Hst; eexists; reflexivity|].
  apply elem_of_cons in Hk as [-> | Hk]; [rewrite Hen; eexists; reflexivity|].
  apply elem_of_cons in Hk as [-> | Hk]; [rewrite Hid; eexists; reflexivity|].
  apply elem_of_cons in Hk as [-> | Hk]; [rewrite Hflag; eexists; reflexivity|].
  apply elem_of_cons in Hk as [-> | Hk]; [rewrite Hmid; eexists; reflexivity|].
  apply elem_of_nil in Hk. destruct Hk.
Qed.

Lemma instances_keep_other_fields_witness :
  Forall (fun inst : event =>
            inst !! "isRecurringInstance" = Some (VBool true)
            /\ (forall k, k ∈ OVERRIDDEN -> is_Some (inst !! k))
            /\ (forall k, k ∉ OVERRIDDEN -> inst !! k = Samples.weekly_july !! k))
         (Samples.instances_of Samples.weekly_july_run).
Proof.
  apply (instances_keep_other_fields Samples.counting Samples.weekly_july Samples.fresh _
           (Samples.world_of Samples.weekly_july_run)).
  exists "weekly". repeat split; vm_compute; reflexivity.
Defined.

(** X11: the identifiers (iCalUld) of the instances of one expanded master
    are pairwise distinct, whatever the pattern and whatever UUIDs are
    drawn: they differ in the date they hold. *)
Theorem instance_identifiers_are_distinct (uuid4 : nat -> string) (master_event : event)
    (w : world) (instances : list event) (w' : world) :
  expanded uuid4 master_event w instances w' ->
  NoDup (map (fun inst : event => inst !! "iCalUld") instances).
Proof.
  intros (recurrence & s & tz & sd & ed & rd & curs & _ & _ & _ & _ & HF & HS & _)%expanded_occurrences.
  apply sorted_distinct.
  eapply sorted_transfer; [| exact HF | exact HS].
  cbv beta. intros c1 c2 i1 i2 (Hm1 & (Hv1 & _) & _) (Hm2 & (Hv2 & _) & _) Hlt.
  exact (uid_differs uuid4 master_event _ _ c1 c2 i1 i2 Hv1 Hv2 Hm1 Hm2 Hlt).
Qed.

Lemma instance_identifiers_are_distinct_witness :
  NoDup (map (fun inst : event => inst !! "iCalUld")
           (Samples.instances_of Samples.weekly_july_run)).
Proof.
  apply (instance_identifiers_are_distinct Samples.counting Samples.weekly_july Samples.fresh _
           (Samples.world_of Samples.weekly_july_run)).
  exists "weekly". repeat split; vm_compute; reflexivity.
Defined.

(** X12: the instances of an expanded master that starts in the year 1000
    or later come in strictly increasing order of start; the first starts
    at the master's start, to the second, and any later one starts a whole
    number of days after any earlier one.  (Before the year 1000 the
    library writes the year with fewer than four digits and the start of
    an instance does not parse.) *)
Theorem instances_are_in_order (uuid4 : nat -> string) (master_event : event)
    (w : world) (instances : list event) (w' : world) (start_dt : datetime) :
  expanded uuid4 master_event w instances w' ->
  instant_of master_event "startTime" = Some start_dt ->
  1000 <= year start_dt ->
  (forall first, instances !! 0%nat = Some first ->
   instant_of first "startTime" = Some (whole_second start_dt))
  /\ StronglySorted
       (fun i1 i2 : event =>
          exists a1 a2 n,
            instant_of i1 "startTime" = Some a1
            /\ instant_of i2 "startTime" = Some a2
            /\ 0 < n
            /\ to_micros a2 = to_micros a1 + n * US_PER_DAY)
       instances.
Proof.
  intros (recurrence & s & tz & sd & ed & rd & curs & Htz & Hs & _ & _ & HF & HS & Hhd)%expanded_occurrences
    Hs' Hy.
  rewrite Hs in Hs'. injection Hs' as <-.
  pose proof (parse_datetime_valid _ _ (instant_of_Some _ _ _ Hs)) as Hvs.
  split.
  - intros first Hfirst.
    destruct (Forall2_lookup_r _ _ _ _ _ HF Hfirst) as (c & Hc & Hm & (Hv & _) & _).
    destruct Hhd as [-> | (rest & -> & _)]; [discriminate|].
    injection Hc as <-. eapply made_at_start; eassumption.
  - eapply sorted_transfer; [| exact HF | exact HS].
    cbv beta. intros c1 c2 i1 i2 (Hm1 & (Hv1 & Hu1 & Ho1 & Ht1) & _)
      (Hm2 & (Hv2 & Hu2 & Ho2 & Ht2) & _) Hlt.
    pose proof (occurrence_year sd c1 Hvs Hv1 Ho1 Hy) as Hy1.
    pose proof (occurrence_year sd c2 Hvs Hv2 Ho2 Hy) as Hy2.
    exists (whole_second c1), (whole_second c2), (toordinal c2 - toordinal c1).
    split; [eapply made_at_start; eassumption|].
    split; [eapply made_at_start; eassumption|].
    split; [lia|]. rewrite !to_micros_whole_second. lia.
Qed.

Lemma instances_are_in_order_witness :
  (forall first, Samples.instances_of Samples.weekly_july_run !! 0%nat = Some first ->
   instant_of first "startTime" = Some (whole_second (mk_datetime 2025 7 1 9 0 0 0)))
  /\ StronglySorted
       (fun i1 i2 : event =>
          exists a1 a2 n,
            instant_of i1 "startTime" = Some a1
            /\ instant_of i2 "startTime" = Some a2
            /\ 0 < n
            /\ DT.to_micros a2 = DT.to_micros a1 + n * DT.US_PER_DAY)
       (Samples.instances_of Samples.weekly_july_run).
Proof.
  apply (instances_are_in_order Samples.counting Samples.weekly_july Samples.fresh _
           (Samples.world_of Samples.weekly_july_run)).
  - exists "weekly". repeat split; vm_compute; reflexivity.
  - vm_compute. reflexivity.
  - vm_compute. discriminate.
Defined.

(** X13: no instance of an expanded master that starts in the year 1000
    or later starts after the parsed end of the recurrence. *)
Theorem instances_start_within_window (uuid4 : nat -> string) (master_event : event)
    (w : world) (instances : list event) (w' : world) (start_dt : datetime) :
  expanded uuid4 master_event w instances w' ->
  instant_of master_event "startTime" = Some start_dt ->
  1000 <= year start_dt ->
  exists recurrence_end,
    instant_of master_event "recurrenceEndDate" = Some recurrence_end
    /\ Forall (fun inst : event =>
                 exists a, instant_of inst "startTime" = Some a
                           /\ DT.le a recurrence_end = true)
              instances.
Proof.
  intros (recurrence & s & tz & sd & ed & rd & curs & Htz & Hs & Hr & _ & HF & _)%expanded_occurrences
    Hs' Hy.
  rewrite Hs in Hs'. injection Hs' as <-.
  pose proof (parse_datetime_valid _ _ (instant_of_Some _ _ _ Hs)) as Hvs.
  exists rd. split; [exact Hr|].
  eapply (Forall_transfer _ (fun _ => True)); [| exact HF | apply Forall_true; trivial].
  cbv beta. intros c inst (Hm & (Hv & _ & Ho & _) & Hle) _.
  pose proof (occurrence_year sd c Hvs Hv Ho Hy) as Hyc.
  exists (whole_second c). split; [eapply made_at_start; eassumption|].
  apply whole_second_le; assumption.
Qed.

Lemma instances_start_within_window_witness :
  exists recurrence_end,
    instant_of Samples.weekly_july "recurrenceEndDate" = Some recurrence_end
    /\ Forall (fun inst : event =>
                 exists a, instant_of inst "startTime" = Some a
                           /\ DT.le a recurrence_end = true)
              (Samples.instances_of Samples.weekly_july_run).
Proof.
  apply (instances_start_within_window Samples.counting Samples.weekly_july Samples.fresh _
           (Samples.world_of Samples.weekly_july_run) (mk_datetime 2025 7 1 9 0 0 0)).
  - exists "weekly". repeat split; vm_compute; reflexivity.
  - vm_compute. reflexivity.
  - vm_compute. discriminate.
Defined.

(** X14: for a weekly (daily) master that starts in the year 1000 or
    later the instance of index [i] starts exactly [7 * i] ([i]) days
    after the master's start, to the second. *)
Theorem fixed_step_spacing (uuid4 : nat -> string) (master_event : event)
    (w : world) (instances : list event) (w' : world) (recurrence : string) (k : Z)
    (start_dt : datetime) (i : nat) (inst : event) :
  expanded uuid4 master_event w instances w' ->
  str_lower (get master_event "recurrence" (VStr EmptyString)) = Ok recurrence ->
  (recurrence = "weekly" /\ k = 7) \/ (recurrence = "daily" /\ k = 1) ->
  instant_of master_event "startTime" = Some start_dt ->
  1000 <= year start_dt ->
  instances !! i = Some inst ->
  exists a,
    instant_of inst "startTime" = Some a
    /\ to_micros a
       = to_micros (whole_second start_dt) + Z.of_nat i * k * US_PER_DAY.
Proof.
  intros (rec' & s & tz & sd & ed & rd & curs & Htz & Hs & _ & Hrec' & HF & _ & Hhd)%expanded_occurrences
    Hrec Hk Hs' Hy Hi.
  rewrite Hrec in Hrec'. injection Hrec' as <-.
  rewrite Hs in Hs'. injection Hs' as <-.
  destruct (Forall2_lookup_r _ _ _ _ _ HF Hi) as (c & Hc & Hm & (Hv & Hu & Ho & Ht) & _).
  destruct Hhd as [-> | (rest & -> & Hsorted)]; [discriminate|].
  pose proof (parse_datetime_valid _ _ (instant_of_Some _ _ _ Hs)) as Hvs.
  pose proof (occurrence_year sd c Hvs Hv Ho Hy) as Hyc.
  assert (Hk' : (String.eqb recurrence "weekly" = true /\ k = 7)
                \/ (String.eqb recurrence "weekly" = false
                    /\ String.eqb recurrence "daily" = true /\ k = 1)).
  { destruct Hk as [[-> ->] | [-> ->]]; [left | right]; repeat split; reflexivity. }
  pose proof (chain_spacing recurrence k rest Hk' sd Hvs Hsorted i c Hc) as Hord.
  exists (whole_second c). split; [eapply made_at_start; eassumption|].
  rewrite !to_micros_whole_second, Ht, Hord, Hu. lia.
Qed.

Lemma fixed_step_spacing_witness :
  exists a,
    instant_of Samples.second_instance "startTime" = Some a
    /\ DT.to_micros a
       = DT.to_micros (whole_second (mk_datetime 2025 7 1 9 0 0 0))
         + Z.of_nat 1 * 7 * DT.US_PER_DAY.
Proof.
  apply (fixed_step_spacing Samples.counting Samples.weekly_july Samples.fresh
           (Samples.instances_of Samples.weekly_july_run)
           (Samples.world_of Samples.weekly_july_run) "weekly" 7
           (mk_datetime 2025 7 1 9 0 0 0) 1%nat Samples.second_instance).
  - exists "weekly". repeat split; vm_compute; reflexivity.
  - vm_compute. reflexivity.
  - left. split; reflexivity.
  - vm_compute. reflexivity.
  - vm_compute. discriminate.
  - reflexivity.
Defined.

(** X15: an expansion draws one UUID for each instance when the master
    has a uid that counts as true (the one made for recurringMasterId and
    not used), and two for each instance otherwise. *)
Theorem expansion_draws_per_instance (uuid4 : nat -> string) (master_event : event)
    (w : world) (instances : list event) (w' : world) :
  expanded uuid4 master_event w instances w' ->
  draws w' = (draws w + length instances * draws_per_instance master_event)%nat
  /\ (1 <= draws_per_instance master_event <= 2)%nat.
Proof.
  intros (recurrence & s & tz & sd & ed & rd & w1 & _ & _ & _ & _ & _ & _ & _ & Hit & Hd & _)%expanded_trace.
  split.
  - rewrite Hd. eapply iterations_draws. exact Hit.
  - unfold draws_per_instance. destruct (truthy _); lia.
Qed.

Lemma expansion_draws_per_instance_witness :
  draws (Samples.world_of Samples.weekly_july_run)
  = (draws Samples.fresh
     + length (Samples.instances_of Samples.weekly_july_run)
       * draws_per_instance Samples.weekly_july)%nat
  /\ (1 <= draws_per_instance Samples.weekly_july <= 2)%nat.
Proof.
  apply (expansion_draws_per_instance Samples.counting Samples.weekly_july Samples.fresh).
  exists "weekly". repeat split; vm_compute; reflexivity.
Defined.

(** X16: a monthly master that starts on a day the next month does not
    have (the 31st before a 30-day month, the 29th to 31st of January, ...)
    is not expanded, even when its window holds the first occurrence only:
    the first instance is made, stepping to the next month fails, and the
    master is returned alone with one error line (its title being one
    that can be encoded); the UUIDs of the discarded instance have been
    drawn. *)
Theorem monthly_overflow_passes_master_through (uuid4 : nat -> string)
    (master_event : event) (w : world) (start_dt end_dt recurrence_end : datetime) :
  str_lower (get master_event "recurrence" (VStr EmptyString)) = Ok "monthly" ->
  instant_of master_event "startTime" = Some start_dt ->
  instant_of master_event "endTime" = Some end_dt ->
  instant_of master_event "recurrenceEndDate" = Some recurrence_end ->
  DT.le start_dt recurrence_end = true ->
  truthy (get master_event "iCalUld" VNone) = true
  \/ (exists t, get master_event "title" (VStr "event") = VStr t) ->
  month start_dt <> 12 ->
  days_in_month (year start_dt) (month start_dt + 1) < day start_dt ->
  PyStr.encodable (py_str (get master_event "title" (VStr "Unknown"))) = true ->
  generate_recurring_instances uuid4 master_event w
  = Some (Ok [master_event],
          mk_world (draws w + draws_per_instance master_event)
            (out w ++ [LError (get master_event "title" (VStr "Unknown"))])).
Proof.
  intros Hrec Hs%instant_of_Some He%instant_of_Some Hr%instant_of_Some Hle Hid H12 Hday Htitle.
  destruct (parse_datetime_text _ _ Hs) as (s & Hstr).
  pose proof (parse_datetime_valid _ _ Hs) as Hvs.
  pose proof (parse_datetime_valid _ _ He) as Hve.
  pose proof (add_sub start_dt end_dt Hvs Hve) as Hadd.
  destruct (make_instance_runs uuid4 master_event s (sub end_dt start_dt) start_dt w
              end_dt Hadd Hid) as (inst & w1 & Hmk).
  pose proof Hmk as Hinv.
  apply make_instance_inv in Hinv as (_ & _ & _ & _ & _ & _ & _ & _ & Hdr & Hout).
  unfold generate_recurring_instances.
  rewrite Hrec, bind_lift_Ok. cbn [truthy].
  change (String.eqb "monthly" "none") with false.
  change (String.eqb "monthly" EmptyString) with false. cbn [orb negb].
  rewrite (parse_datetime_Some _ _ Hs), (parse_datetime_Some _ _ He),
    (parse_datetime_Some _ _ Hr). cbn [andb negb].
  unfold catch, expand_body.
  rewrite Hs, bind_lift_Ok, He, bind_lift_Ok, Hr, bind_lift_Ok. cbn [need].
  rewrite !bind_lift_Ok.
  unfold MAX_INSTANCES at 1. cbn [expansion_loop]. rewrite Hle.
  change (0 <? MAX_INSTANCES)%nat with true. cbn [andb].
  rewrite Hstr. unfold bind. rewrite Hmk. cbv beta iota.
  unfold advance.
  change (String.eqb "monthly" "weekly") with false.
  change (String.eqb "monthly" "daily") with false.
  change (String.eqb "monthly" "monthly") with true. cbv iota.
  unfold bind, lift. rewrite (replace_month_overflow start_dt H12 Hday).
  cbv beta iota. rewrite Hstr in Hs. rewrite (quoted_parsed _ _ _ _ _ _ _ Hs He Hr).
  rewrite print_with_encodable by (cbn [interpolated app forallb]; rewrite Htitle; reflexivity).
  cbv [ret]. cbn [draws out]. rewrite Hdr, Hout. reflexivity.
Qed.

Lemma monthly_overflow_passes_master_through_witness :
  generate_recurring_instances Samples.counting Samples.monthly_jan31 Samples.fresh
  = Some (Ok [Samples.monthly_jan31],
          mk_world (draws Samples.fresh + draws_per_instance Samples.monthly_jan31)
            (out Samples.fresh
             ++ [LError (get Samples.monthly_jan31 "title" (VStr "Unknown"))])).
Proof.
  apply (monthly_overflow_passes_master_through Samples.counting Samples.monthly_jan31
           Samples.fresh (mk_datetime 2025 1 31 9 0 0 0) (mk_datetime 2025 1 31 10 0 0 0)
           (mk_datetime 2025 4 30 0 0 0 0)); try (vm_compute; reflexivity).
  - right. exists "event". vm_compute. reflexivity.
  - vm_compute. discriminate.
Defined.

(** X17: on a text the parser returns nothing exactly when the text is
    empty, returns only times the calendar has, and raises nothing but
    ValueError. *)
Theorem parser_outcomes_on_text (s : string) :
  (parse_datetime (VStr s) = Ok None <-> s = EmptyString)
  /\ (forall d, parse_datetime (VStr s) = Ok (Some d) -> valid d = true)
  /\ (forall e, parse_datetime (VStr s) = Raise e -> e = ValueError).
Proof.
  pose proof (parse_datetime_outcomes s) as H. repeat split.
  - intros Hp. rewrite Hp in H. exact H.
  - intros ->. reflexivity.
  - intros d Hp. rewrite Hp in H. exact H.
  - intros e Hp. rewrite Hp in H. exact H.
Qed.

(** X18: the parser reads a text that ends in an offset or in a Z as it
    reads the text before it: the timezone takes no part in the result. *)
Theorem timezone_text_is_discarded (body off : string) :
  body <> EmptyString ->
  PyStr.contains "+" body = false -> PyStr.contains "Z" body = false ->
  parse_datetime (VStr (String.append body (String "+" off))) = parse_datetime (VStr body)
  /\ parse_datetime (VStr (String.append body "Z")) = parse_datetime (VStr body).
Proof. apply parse_datetime_drops_timezone. Qed.

Lemma timezone_text_is_discarded_witness :
  parse_datetime (VStr (String.append "2025-07-01T09:00:00" (String "+" "10:00")))
  = parse_datetime (VStr "2025-07-01T09:00:00")
  /\ parse_datetime (VStr (String.append "2025-07-01T09:00:00" "Z"))
     = parse_datetime (VStr "2025-07-01T09:00:00").
Proof.
  apply (timezone_text_is_discarded "2025-07-01T09:00:00" "10:00");
    [discriminate | reflexivity | reflexivity].
Defined.

(** X19: a date written as year-month-day with the year in four digits,
    without a time of day, is read as the start of that day. *)
Theorem date_only_text_is_midnight (t : datetime) :
  valid_date (year t) (month t) (day t) = true ->
  parse_datetime (VStr (padded FMT_DATE t)) = Ok (Some (midnight t)).
Proof. apply parse_date_text. Qed.

Lemma date_only_text_is_midnight_witness :
  parse_datetime (VStr (padded FMT_DATE (mk_datetime 2025 7 22 9 30 0 0)))
  = Ok (Some (midnight (mk_datetime 2025 7 22 9 30 0 0))).
Proof. apply (date_only_text_is_midnight (mk_datetime 2025 7 22 9 30 0 0)). reflexivity. Defined.

(** X20: a time written with six digits of fraction is read back with
    its microseconds: the first two formats fail and the third reads it. *)
Theorem fraction_text_round_trips (t : datetime) :
  valid t = true ->
  parse_datetime (VStr (padded FMT_MICROS t)) = Ok (Some t).
Proof. apply parse_micros_text. Qed.

Lemma fraction_text_round_trips_witness :
  parse_datetime (VStr (padded FMT_MICROS (mk_datetime 2025 7 1 9 0 0 500000)))
  = Ok (Some (mk_datetime 2025 7 1 9 0 0 500000)).
Proof. apply (fraction_text_round_trips (mk_datetime 2025 7 1 9 0 0 500000)). reflexivity. Defined.

(** X21: when the recurrence end is a date without a time of day, an
    instance that starts on that date starts at midnight; an occurrence
    later on that day is not generated.  (For a master that starts in the
    year 1000 or later, so that the start of an instance parses.) *)
Theorem date_only_end_excludes_later_that_day (uuid4 : nat -> string) (master_event : event)
    (w : world) (instances : list event) (w' : world) (start_dt e : datetime) :
  expanded uuid4 master_event w instances w' ->
  instant_of master_event "startTime" = Some start_dt ->
  1000 <= year start_dt ->
  valid_date (year e) (month e) (day e) = true ->
  get master_event "recurrenceEndDate" (VStr EmptyString) = VStr (padded FMT_DATE e) ->
  Forall (fun inst : event =>
            exists a, instant_of inst "startTime" = Some a
                      /\ (year a = year e -> month a = month e -> day a = day e ->
                          hour a = 0 /\ minute a = 0 /\ second a = 0))
         instances.
Proof.
  intros (recurrence & s & tz & sd & ed & rd & curs & Htz & Hs & Hr & _ & HF & _)%expanded_occurrences
    Hs' Hy Hd Hget.
  rewrite Hs in Hs'. injection Hs' as <-.
  pose proof (parse_datetime_valid _ _ (instant_of_Some _ _ _ Hs)) as Hvs.
  unfold instant_of in Hr. rewrite Hget, (parse_date_text e Hd) in Hr. injection Hr as <-.
  eapply (Forall_transfer _ (fun _ => True)); [| exact HF | apply Forall_true; trivial].
  cbv beta. intros c inst (Hm & (Hv & _ & Ho & _) & Hle) _.
  pose proof (occurrence_year sd c Hvs Hv Ho Hy) as Hyc.
  exists (whole_second c). split; [eapply made_at_start; eassumption|].
  cbn [whole_second year month day hour minute second].
  intros Hye Hmo Hda. destruct (le_midnight c e Hv Hle Hye Hmo Hda) as (? & ? & ? & _). auto.
Qed.

Lemma date_only_end_excludes_later_that_day_witness :
  Forall (fun inst : event =>
            exists a, instant_of inst "startTime" = Some a
                      /\ (year a = 2025 -> month a = 7 -> day a = 22 ->
                          hour a = 0 /\ minute a = 0 /\ second a = 0))
         (Samples.instances_of Samples.weekly_july_run).
Proof.
  apply (date_only_end_excludes_later_that_day Samples.counting Samples.weekly_july
           Samples.fresh _ (Samples.world_of Samples.weekly_july_run)
           (mk_datetime 2025 7 1 9 0 0 0) (mk_datetime 2025 7 22 0 0 0 0)).
  - exists "weekly". repeat split; vm_compute; reflexivity.
  - vm_compute. reflexivity.
  - vm_compute. discriminate.
  - reflexivity.
  - vm_compute. reflexivity.
Defined.

End Extras.
